(** * Kaspi statement parser: a shallow embedding of [kaspi_parser.py]

    The development follows the pipeline of the script:
    [parse_amount] (regular expression, currency check, [float]),
    [get_transactions] (row builder that skips failing rows),
    [get_transaction_tables] (header search over the pages),
    [parse_statement] (aggregation under a catch-all handler) and
    [export_to_csv] (field mapping with [round]).

    Python values are modelled as follows.
    - A [str] is the list of its Unicode code points.
    - A [float] is an IEEE 754 binary64 value ([spec_float] with
      precision 53 and maximal exponent 1024, round to nearest even).
    - An exception is a value of [exc]; a call that may raise returns
      [res].
    - A generator is the finite trace of what it does ([Log], [Yield])
      together with the way it stops. *)

From Stdlib Require Import List ZArith NArith PArith Bool Lia String Ascii.
From Stdlib Require Import Floats.SpecFloat Sorting.Permutation.
From Stdlib Require Decimal DecimalN.
Import ListNotations.

Local Open Scope N_scope.

(** ** Text *)

Definition codepoint := N.
Definition str := list codepoint.

(** Decoding of the UTF-8 bytes of a Rocq string literal, so that the
    literals of the script can be written as they are in the source. *)
Fixpoint utf8_decode (fuel : nat) (bs : list N) : str :=
  match fuel with
  | O => []
  | S fuel' =>
    match bs with
    | [] => []
    | b0 :: r0 =>
      if b0 <? 128 then b0 :: utf8_decode fuel' r0
      else if b0 <? 224 then
        match r0 with
        | b1 :: r1 => ((b0 - 192) * 64 + (b1 - 128)) :: utf8_decode fuel' r1
        | _ => []
        end
      else if b0 <? 240 then
        match r0 with
        | b1 :: b2 :: r2 =>
          ((b0 - 224) * 4096 + (b1 - 128) * 64 + (b2 - 128))
            :: utf8_decode fuel' r2
        | _ => []
        end
      else
        match r0 with
        | b1 :: b2 :: b3 :: r3 =>
          ((b0 - 240) * 262144 + (b1 - 128) * 4096 + (b2 - 128) * 64
           + (b3 - 128)) :: utf8_decode fuel' r3
        | _ => []
        end
    end
  end.

Definition u (s : string) : str :=
  let bs := map N_of_ascii (list_ascii_of_string s) in
  utf8_decode (List.length bs) bs.

(** The empty string. *)
Definition empty : str := [].

Definition str_eqb (a b : str) : bool :=
  if list_eq_dec N.eq_dec a b then true else false.

(** ** Unicode character classes used by [re], [float] and [int] *)

Module Unicode.

(** [str.isspace] for one character; also what [\s] matches in a
    [str] pattern. *)
Definition is_space (c : codepoint) : bool :=
  ((9 <=? c) && (c <=? 13)) || ((28 <=? c) && (c <=? 32))
  || (c =? 133) || (c =? 160) || (c =? 5760)
  || ((8192 <=? c) && (c <=? 8202))
  || (c =? 8232) || (c =? 8233) || (c =? 8239) || (c =? 8287)
  || (c =? 12288).

(** Code points of the digit zero of every decimal digit block
    (general category Nd, Unicode 14.0). Each block holds the ten
    digits 0..9 in order. *)
Definition decimal_zeros : list codepoint :=
  [ 48; 1632; 1776; 1984; 2406; 2534; 2662; 2790; 2918; 3046; 3174;
    3302; 3430; 3558; 3664; 3792; 3872; 4160; 4240; 6112; 6160; 6470;
    6608; 6784; 6800; 6992; 7088; 7232; 7248; 42528; 43216; 43264;
    43472; 43504; 43600; 44016; 65296; 66720; 68912; 69734; 69872;
    69942; 70096; 70384; 70736; 70864; 71248; 71360; 71472; 71904;
    72016; 72784; 73040; 73120; 92768; 92864; 93008; 120782; 120792;
    120802; 120812; 120822; 123200; 123632; 125264; 130032 ].

Fixpoint decimal_in (zeros : list codepoint) (c : codepoint) : option N :=
  match zeros with
  | [] => None
  | z :: zs =>
    if (z <=? c) && (c <? z + 10) then Some (c - z) else decimal_in zs c
  end.

(** The decimal value of a character, if it is a decimal digit. *)
Definition to_decimal (c : codepoint) : option N :=
  decimal_in decimal_zeros c.

(** What [\d] matches in a [str] pattern. *)
Definition is_digit (c : codepoint) : bool :=
  match to_decimal c with Some _ => true | None => false end.

End Unicode.

(** ** Exceptions *)

Inductive message :=
| Failed_to_parse_amount (amount_str : str)
| Unexpected_currency (found expected : str)
| Could_not_convert_string_to_float (s : str)
| Not_enough_or_too_many_values_to_unpack (n : nat)
| Time_data_does_not_match_format (data : str)
| Unconverted_data_remains (rest : str)
| Day_is_out_of_range_for_month
| Failed_to_find_the_transaction_table_header
| Cannot_convert_float_NaN_to_integer.

Inductive exc :=
| ValueError (m : message)
| TypeError
| AttributeError
| IndexError
| OverflowError
| UnicodeEncodeError
| ExternalError (what : string).

Inductive res (A : Type) :=
| Ok (a : A)
| Raise (e : exc).
Arguments Ok {A} a.
Arguments Raise {A} e.

Definition bind {A B} (m : res A) (f : A -> res B) : res B :=
  match m with
  | Ok a => f a
  | Raise e => Raise e
  end.

Notation "x <- m ;; k" := (bind m (fun x => k))
  (at level 61, m at next level, right associativity).

(** ** Regular expressions

    The matcher follows the structure of the compiled form that [re]
    executes: a sequence of opcodes run against the subject from a
    position, with marks recording group boundaries, and greedy
    repetition that gives back one character at a time. *)

Module Re.

Inductive op :=
| AT_BEGINNING
| AT_END
| IN (cls : codepoint -> bool)
| MAX_REPEAT (lo : nat) (cls : codepoint -> bool)
| MARK (i : nat).

Definition LITERAL (c : codepoint) : op := IN (N.eqb c).

Definition marks := list (nat * nat).

(** Greedy repetition of a character class: take as many characters
    as possible, then try the rest of the pattern, backing off one
    character at a time, never below [lo] repetitions. *)
Fixpoint max_repeat (cls : codepoint -> bool) (lo : nat)
         (k : nat -> str -> option marks)
         (n pos : nat) (rest : str) : option marks :=
  let stop := if (lo <=? n)%nat then k pos rest else None in
  match rest with
  | c :: r =>
    if cls c then
      match max_repeat cls lo k (S n) (S pos) r with
      | Some m => Some m
      | None => stop
      end
    else stop
  | [] => stop
  end.

Fixpoint exec (ops : list op) (ms : marks) (pos : nat) (rest : str)
  : option marks :=
  match ops with
  | [] => Some ms
  | AT_BEGINNING :: k =>
    if (pos =? 0)%nat then exec k ms pos rest else None
  | AT_END :: k =>
    (* without MULTILINE: at the end, or before a final newline *)
    match rest with
    | [] => exec k ms pos rest
    | [c] => if c =? 10 then exec k ms pos rest else None
    | _ => None
    end
  | IN cls :: k =>
    match rest with
    | c :: r => if cls c then exec k ms (S pos) r else None
    | [] => None
    end
  | MAX_REPEAT lo cls :: k => max_repeat cls lo (exec k ms) 0 pos rest
  | MARK i :: k => exec k ((i, pos) :: ms) pos rest
  end.

(** [re.match]: the pattern is tried at position 0 only. *)
Definition match_ (pattern : list op) (subject : str) : option marks :=
  exec pattern [] 0%nat subject.

Fixpoint mark (ms : marks) (i : nat) : option nat :=
  match ms with
  | [] => None
  | (j, p) :: ms' => if (i =? j)%nat then Some p else mark ms' i
  end.

Definition slice (s : str) (b e : nat) : str := firstn (e - b) (skipn b s).

(** [m.group(g)] for group number [g >= 1]: the text between marks
    [2g-2] and [2g-1]. *)
Definition group (subject : str) (ms : marks) (g : nat) : str :=
  match mark ms (2 * g - 2), mark ms (2 * g - 1) with
  | Some b, Some e => slice subject b e
  | _, _ => []
  end.

End Re.

(** ** Binary64 floating point *)

Module Float64.

Definition prec : Z := 53.
Definition emax : Z := 1024.

Definition float := spec_float.

Definition zero : float := S754_zero false.
Definition add : float -> float -> float := SFadd prec emax.
Definition neg : float -> float := SFopp.
Definition ltb : float -> float -> bool := SFltb.
Definition leb : float -> float -> bool := SFleb.
Definition eqb : float -> float -> bool := SFeqb.

(** The binary64 value nearest to [n / d] (ties to even): the
    correctly rounded quotient of the two integers. *)
Definition of_ratio (n : N) (d : positive) : float :=
  match n with
  | N0 => zero
  | Npos p =>
    SFdiv prec emax (S754_finite false p 0) (S754_finite false d 0)
  end.

(** The integer nearest to a finite float, ties to even. *)
Definition nearest_even (s : bool) (m : positive) (e : Z) : Z :=
  let a :=
    match e with
    | Zneg k =>
      let d := Z.pow_pos 2 k in
      let q := (Zpos m / d)%Z in
      let r := (Zpos m mod d)%Z in
      match (2 * r ?= d)%Z with
      | Lt => q
      | Gt => (q + 1)%Z
      | Eq => if Z.even q then q else (q + 1)%Z
      end
    | _ => (Zpos m * 2 ^ e)%Z
    end in
  if s then Z.opp a else a.

End Float64.

(** ** Built-ins of Python that the script calls *)

Module Py.

(** [s.split('\n')[0]]: the text before the first line feed. *)
Fixpoint first_line (s : str) : str :=
  match s with
  | [] => []
  | c :: r => if c =? 10 then [] else c :: first_line r
  end.

(** [s.replace(a, b)] for one-character [a] and [b]. *)
Definition replace_char (a b : codepoint) (s : str) : str :=
  map (fun c => if c =? a then b else c) s.

(** [s.replace(a, '')] for a one-character [a]. *)
Definition remove_char (a : codepoint) (s : str) : str :=
  filter (fun c => negb (c =? a)) s.

(** Digits of a run of decimal characters, most significant first;
    [None] if some character is not a decimal digit. *)
Fixpoint digits_of (s : str) : option (list N) :=
  match s with
  | [] => Some []
  | c :: r =>
    match Unicode.to_decimal c, digits_of r with
    | Some d, Some ds => Some (d :: ds)
    | _, _ => None
    end
  end.

Definition value_of (ds : list N) : N :=
  fold_left (fun acc d => acc * 10 + d) ds 0.

Fixpoint pow10 (k : nat) : positive :=
  match k with
  | O => 1%positive
  | S k' => (10 * pow10 k')%positive
  end.

(** Splits at the first full stop. *)
Fixpoint split_point (s : str) : str * option str :=
  match s with
  | [] => ([], None)
  | c :: r =>
    if c =? 46 then ([], Some r)
    else let '(a, b) := split_point r in (c :: a, b)
  end.

(** [float(s)] for a string made of decimal digits and full stops,
    which is all [parse_amount] can pass to it (see
    [float_is_called_on_digits_and_points]): an integer part,
    optionally a point and a fraction part, at least one digit
    overall. The result is the correctly rounded value of the decimal
    numeral. *)
Definition float (s : str) : res Float64.float :=
  let bad := Raise (ValueError (Could_not_convert_string_to_float s)) in
  let '(ip, fp) := split_point s in
  let fp := match fp with Some f => f | None => [] end in
  match digits_of ip, digits_of fp with
  | Some di, Some df =>
    match di ++ df with
    | [] => bad
    | ds => Ok (Float64.of_ratio (value_of ds) (pow10 (List.length df)))
    end
  | _, _ => bad
  end.

(** [round(x)] with one argument: the nearest integer, ties to
    even. *)
Definition round (x : Float64.float) : res Z :=
  match x with
  | S754_zero _ => Ok 0%Z
  | S754_finite s m e => Ok (Float64.nearest_even s m e)
  | S754_infinity _ => Raise OverflowError
  | S754_nan => Raise (ValueError Cannot_convert_float_NaN_to_integer)
  end.

End Py.

(** ** The amount parser *)

Definition is_sign (c : codepoint) : bool := (c =? 43) || (c =? 45).

Definition is_amount_char (c : codepoint) : bool :=
  Unicode.is_digit c || (c =? 44) || (c =? 32).

Definition not_space (c : codepoint) : bool := negb (Unicode.is_space c).

(** [^(?P<sign>[+-])\s*(?P<amount>[\d, ]+) (?P<currency>\S+)$] *)
Definition AMOUNT_PATTERN : list Re.op :=
  [ Re.AT_BEGINNING;
    Re.MARK 0; Re.IN is_sign; Re.MARK 1;
    Re.MAX_REPEAT 0 Unicode.is_space;
    Re.MARK 2; Re.MAX_REPEAT 1 is_amount_char; Re.MARK 3;
    Re.LITERAL 32;
    Re.MARK 4; Re.MAX_REPEAT 1 not_space; Re.MARK 5;
    Re.AT_END ].

Definition g_sign : nat := 1.
Definition g_amount : nat := 2.
Definition g_currency : nat := 3.

Definition EXPECTED_CURRENCY : str := u "₸".

Definition parse_amount (amount_str : str) : res Float64.float :=
  let first_line := Py.first_line amount_str in
  match Re.match_ AMOUNT_PATTERN first_line with
  | None => Raise (ValueError (Failed_to_parse_amount amount_str))
  | Some m =>
    let group := Re.group first_line m in
    if negb (str_eqb (group g_currency) EXPECTED_CURRENCY) then
      Raise (ValueError
               (Unexpected_currency (group g_currency) EXPECTED_CURRENCY))
    else
      amount <- Py.float (Py.remove_char 32
                            (Py.replace_char 44 46 (group g_amount))) ;;
      Ok (if str_eqb (group g_sign) (u "+") then amount
          else Float64.neg amount)
  end.

(** ** Dates: [datetime.strptime] and [strftime] for the two formats used *)

Module Datetime.

(** A [datetime] whose time of day is midnight, as [strptime] returns
    for a format without time directives. *)
Record datetime := { year : N; month : N; day : N }.

Definition between (a b c : codepoint) : bool := (a <=? c) && (c <=? b).

(** Directive [%d]: [3[0-1]|[1-2]\d|0[1-9]|[1-9]| [1-9]]. Each
    function below lists, in the order in which the matcher tries
    them, the alternatives that match a prefix of the text, with the
    integer value of the matched text and the text that remains. *)
Definition d_directive (s : str) : list (N * str) :=
  match s with
  | c1 :: c2 :: r =>
    if (c1 =? 51) && between 48 49 c2 then [(30 + (c2 - 48), r)] else []
  | _ => []
  end ++
  match s with
  | c1 :: c2 :: r =>
    if between 49 50 c1 then
      match Unicode.to_decimal c2 with
      | Some d => [((c1 - 48) * 10 + d, r)]
      | None => []
      end
    else []
  | _ => []
  end ++
  match s with
  | c1 :: c2 :: r =>
    if (c1 =? 48) && between 49 57 c2 then [(c2 - 48, r)] else []
  | _ => []
  end ++
  match s with
  | c1 :: r => if between 49 57 c1 then [(c1 - 48, r)] else []
  | _ => []
  end ++
  match s with
  | c1 :: c2 :: r =>
    if (c1 =? 32) && between 49 57 c2 then [(c2 - 48, r)] else []
  | _ => []
  end.

(** Directive [%m]: [1[0-2]|0[1-9]|[1-9]]. *)
Definition m_directive (s : str) : list (N * str) :=
  match s with
  | c1 :: c2 :: r =>
    if (c1 =? 49) && between 48 50 c2 then [(10 + (c2 - 48), r)] else []
  | _ => []
  end ++
  match s with
  | c1 :: c2 :: r =>
    if (c1 =? 48) && between 49 57 c2 then [(c2 - 48, r)] else []
  | _ => []
  end ++
  match s with
  | c1 :: r => if between 49 57 c1 then [(c1 - 48, r)] else []
  | _ => []
  end.

(** Directive [%y]: [\d\d]. *)
Definition y_directive (s : str) : list (N * str) :=
  match s with
  | c1 :: c2 :: r =>
    match Unicode.to_decimal c1, Unicode.to_decimal c2 with
    | Some d1, Some d2 => [(d1 * 10 + d2, r)]
    | _, _ => []
    end
  | _ => []
  end.

Definition full_stop (s : str) : list str :=
  match s with
  | c :: r => if c =? 46 then [r] else []
  | [] => []
  end.

(** All the ways in which the regular expression of ["%d.%m.%y"]
    matches a prefix of the text, in the order of the backtracking
    search; the first one is the match that [re] reports. *)
Definition format_matches (s : str) : list (N * N * N * str) :=
  flat_map (fun '(d, r1) =>
  flat_map (fun r2 =>
  flat_map (fun '(m, r3) =>
  flat_map (fun r4 =>
  map (fun '(y, r5) => (d, m, y, r5)) (y_directive r4))
    (full_stop r3)) (m_directive r2)) (full_stop r1)) (d_directive s).

Definition is_leap (y : N) : bool :=
  (y mod 4 =? 0) && (negb (y mod 100 =? 0) || (y mod 400 =? 0)).

Definition days_in_month (y m : N) : N :=
  if m =? 2 then (if is_leap y then 29 else 28)
  else if (m =? 4) || (m =? 6) || (m =? 9) || (m =? 11) then 30
  else 31.

(** [datetime.datetime.strptime(data, "%d.%m.%y")] *)
Definition strptime (data : str) : res datetime :=
  match format_matches data with
  | [] => Raise (ValueError (Time_data_does_not_match_format data))
  | (d, m, y, rest) :: _ =>
    match rest with
    | _ :: _ => Raise (ValueError (Unconverted_data_remains rest))
    | [] =>
      let year := if y <=? 68 then y + 2000 else y + 1900 in
      if d <=? days_in_month year m then
        Ok {| year := year; month := m; day := d |}
      else Raise (ValueError Day_is_out_of_range_for_month)
    end
  end.

Fixpoint uint_str (d : Decimal.uint) : str :=
  match d with
  | Decimal.Nil => []
  | Decimal.D0 d' => 48 :: uint_str d'
  | Decimal.D1 d' => 49 :: uint_str d'
  | Decimal.D2 d' => 50 :: uint_str d'
  | Decimal.D3 d' => 51 :: uint_str d'
  | Decimal.D4 d' => 52 :: uint_str d'
  | Decimal.D5 d' => 53 :: uint_str d'
  | Decimal.D6 d' => 54 :: uint_str d'
  | Decimal.D7 d' => 55 :: uint_str d'
  | Decimal.D8 d' => 56 :: uint_str d'
  | Decimal.D9 d' => 57 :: uint_str d'
  end.

Definition decimal_str (n : N) : str := uint_str (N.to_uint n).

Definition two_digits (n : N) : str :=
  if n <? 10 then 48 :: decimal_str n else decimal_str n.

(** [t.strftime("%Y-%m-%d")], for the years that [%y] produces
    (1969 to 2068, always four digits). *)
Definition strftime (t : datetime) : str :=
  decimal_str (year t) ++ [45] ++ two_digits (month t) ++ [45]
              ++ two_digits (day t).

End Datetime.

(** ** Rows, tables and transactions *)

(** A cell of an extracted table: a string, or [None] for a missing
    cell. *)
Definition cell := option str.
Definition row := list cell.
Definition table := list row.

Record Transaction := {
  date : Datetime.datetime;
  payee : cell;
  memo : str;
  amount : Float64.float
}.

Definition cell_eqb (a b : cell) : bool :=
  match a, b with
  | Some x, Some y => str_eqb x y
  | None, None => true
  | _, _ => false
  end.

Fixpoint row_eqb (a b : row) : bool :=
  match a, b with
  | [], [] => true
  | x :: a', y :: b' => cell_eqb x y && row_eqb a' b'
  | _, _ => false
  end.

(** [x in rows] for a list of rows: some element is equal to [x]. *)
Definition row_in (x : row) (rows : list row) : bool :=
  existsb (row_eqb x) rows.

Definition header (a b c d : string) : row :=
  [Some (u a); Some (u b); Some (u c); Some (u d)].

Definition TRANSACTION_TABLE_HEADER_VARIANTS : list row :=
  [ header "Date" "Amount" "Transaction" "Details";
    header "Дата" "Сумма" "Операция" "Детали";
    header "Күні" "Сомасы" "Операция" "Толығырақ" ].

(** ** Logging and generators *)

Inductive log_record :=
| INFO_transaction (t : Transaction)
| ERROR_failed_to_parse_transaction (line : row) (reason : exc)
| INFO_parsing_page (number : nat)
| INFO_parsing_statement (number_of_pages : nat)
| INFO_total_transactions (count : nat)
| INFO_total_change (v : Float64.float)
| INFO_total_inflow (v : Float64.float)
| INFO_total_outflow (v : Float64.float)
| ERROR_parsing_error (e : exc).

(** What a generator does between two resumptions. *)
Inductive event (A : Type) :=
| Log (r : log_record)
| Yield (a : A).
Arguments Log {A} r.
Arguments Yield {A} a.

Fixpoint yields {A} (evs : list (event A)) : list A :=
  match evs with
  | [] => []
  | Yield a :: evs' => a :: yields evs'
  | Log _ :: evs' => yields evs'
  end.

Fixpoint logged {A} (evs : list (event A)) : list log_record :=
  match evs with
  | [] => []
  | Log r :: evs' => r :: logged evs'
  | Yield _ :: evs' => logged evs'
  end.

Notation "' pat <- m ;; k" :=
  (bind m (fun x => match x with pat => k end))
  (at level 61, pat pattern, m at next level, right associativity).

(** ** The transaction builder *)

(** [date, amount, operation_type, details = line] *)
Definition unpack4 (line : row) : res (cell * cell * cell * cell) :=
  match line with
  | [a; b; c; d] => Ok (a, b, c, d)
  | _ => Raise (ValueError
                  (Not_enough_or_too_many_values_to_unpack (List.length line)))
  end.

(** The body of the [try] block of [get_transactions], up to the
    [yield]: unpacking, then the arguments of [Transaction(...)] in
    the order in which they are written. A [None] cell makes
    [strptime] raise [TypeError] and [amount_str.split] raise
    [AttributeError]. *)
Definition transaction_of_line (line : row) : res Transaction :=
  '(date, amount, operation_type, details) <- unpack4 line ;;
  d <- match date with
       | Some s => Datetime.strptime s
       | None => Raise TypeError
       end ;;
  a <- match amount with
       | Some s => parse_amount s
       | None => Raise AttributeError
       end ;;
  Ok {| date := d; payee := details; memo := empty; amount := a |}.

Fixpoint get_transactions (table : table) : list (event Transaction) :=
  match table with
  | [] => []
  | line :: table' =>
    match transaction_of_line line with
    | Ok transaction =>
      [Log (INFO_transaction transaction); Yield transaction]
    | Raise e => [Log (ERROR_failed_to_parse_transaction line e)]
    end ++ get_transactions table'
  end.

(** ** The table stream assembler *)

(** A page of the document: what [page.extract_tables()] returns, or
    the error it raises. *)
Record page := { extract_tables : res (list table) }.

(** A generator run to its end: the trace of its events and how it
    stopped ([None] for normal exhaustion, [Some e] for an exception
    raised in its body). *)
Definition generator (A : Type) : Type := list (event A) * option exc.

(** The inner [for table in page.extract_tables()] loop, from a given
    value of [header_is_found]; also returns the value of the flag at
    the end. *)
Fixpoint tables_loop (tables : list table) (header_is_found : bool)
  : list (event table) * bool * option exc :=
  match tables with
  | [] => ([], header_is_found, None)
  | table :: tables' =>
    if header_is_found then
      let '(evs, h, stop) := tables_loop tables' true in
      (Yield table :: evs, h, stop)
    else
      match table with
      | [] => ([], false, Some IndexError)          (* table[0] *)
      | first :: remainder =>
        if row_in first TRANSACTION_TABLE_HEADER_VARIANTS then
          let '(evs, h, stop) := tables_loop tables' true in
          (Yield remainder :: evs, h, stop)          (* table[1:] *)
        else tables_loop tables' false
      end
  end.

(** The outer [for i, page in enumerate(pages)] loop and the final
    check. *)
Fixpoint pages_loop (pages : list page) (i : nat) (header_is_found : bool)
  : generator table :=
  match pages with
  | [] =>
    ([], if header_is_found then None
         else Some (ValueError Failed_to_find_the_transaction_table_header))
  | page :: pages' =>
    let '(evs, stop) :=
      match extract_tables page with
      | Raise e => ([], Some e)
      | Ok tables =>
        let '(evs, h, stop) := tables_loop tables header_is_found in
        match stop with
        | Some e => (evs, Some e)
        | None =>
          let '(evs', stop') := pages_loop pages' (S i) h in
          (evs ++ evs', stop')
        end
      end in
    (Log (INFO_parsing_page (i + 1)) :: evs, stop)
  end.

Definition get_transaction_tables (pages : list page) : generator table :=
  pages_loop pages 0 false.

(** ** The statement aggregator *)

(** What [pdfplumber.open(pdf_file)] gives: the pages of the document,
    or the error raised while opening it. *)
Definition document := res (list page).

(** The variables of one call of [parse_statement], and the log. The
    totals start as the integer 0, which behaves as the float 0.0 in
    the additions and in the [.2f] formatting. *)
Record frame := {
  transactions : list Transaction;
  total_change : Float64.float;
  total_inflow : Float64.float;
  total_outflow : Float64.float;
  log : list log_record
}.

Definition emit (r : log_record) (f : frame) : frame :=
  {| transactions := transactions f;
     total_change := total_change f;
     total_inflow := total_inflow f;
     total_outflow := total_outflow f;
     log := log f ++ [r] |}.

(** The body of the innermost loop of [parse_statement]. *)
Definition account (f : frame) (transaction : Transaction) : frame :=
  let positive := Float64.ltb Float64.zero (amount transaction) in
  {| transactions := transactions f ++ [transaction];
     total_change := Float64.add (total_change f) (amount transaction);
     total_inflow :=
       if positive then Float64.add (total_inflow f) (amount transaction)
       else total_inflow f;
     total_outflow :=
       if positive then total_outflow f
       else Float64.add (total_outflow f) (amount transaction);
     log := log f |}.

(** A [for] loop over a generator: the events of the generator happen
    in order, and the loop body runs at each [Yield]. *)
Definition for_each {A} (body : frame -> A -> frame)
           (evs : list (event A)) (f : frame) : frame :=
  fold_left (fun f ev =>
               match ev with
               | Log r => emit r f
               | Yield a => body f a
               end) evs f.

(** The body of the outer loop of [parse_statement], for one yielded
    table: the inner loop over [get_transactions]. *)
Definition consume_table (f : frame) (transaction_table : table) : frame :=
  for_each account (get_transactions transaction_table) f.

(** The body of the [try] block; [Some e] when it is left by an
    exception. *)
Definition parse_statement_try (pdf : document) (f : frame)
  : frame * option exc :=
  match pdf with
  | Raise e => (f, Some e)
  | Ok pages =>
    let f := emit (INFO_parsing_statement (List.length pages)) f in
    let '(evs, stop) := get_transaction_tables pages in
    let f := for_each consume_table evs f in
    match stop with
    | Some e => (f, Some e)
    | None =>
      let f := emit (INFO_total_transactions
                       (List.length (transactions f))) f in
      let f := emit (INFO_total_change (total_change f)) f in
      let f := emit (INFO_total_inflow (total_inflow f)) f in
      let f := emit (INFO_total_outflow (total_outflow f)) f in
      (f, None)
    end
  end.

Definition initial_frame : frame :=
  {| transactions := [];
     total_change := Float64.zero;
     total_inflow := Float64.zero;
     total_outflow := Float64.zero;
     log := [] |}.

(** One call of [parse_statement]: the final frame (for the log and the
    totals) and the outcome of the call. *)
Definition parse_statement_run (pdf : document)
  : frame * res (list Transaction) :=
  let '(f, raised) := parse_statement_try pdf initial_frame in
  let f :=
    match raised with
    | Some e => emit (ERROR_parsing_error e) f       (* except Exception *)
    | None => f
    end in
  (f, Ok (transactions f)).

Definition parse_statement (pdf : document) : res (list Transaction) :=
  snd (parse_statement_run pdf).

(** ** Export *)

(** The dictionary handed to [writer.writerow]. *)
Record csv_record := {
  Date : str;
  Payee : cell;
  Memo : str;
  Amount : Z
}.

Definition csv_record_of (transaction : Transaction) : res csv_record :=
  a <- Py.round (amount transaction) ;;
  Ok {| Date := Datetime.strftime (date transaction);
        Payee := payee transaction;
        Memo := memo transaction;
        Amount := a |}.

(** *** The text that [csv.DictWriter] writes

    The writer is created with [quoting=csv.QUOTE_ALL] and the default
    dialect: fields separated by commas, every field between double
    quotes, a double quote inside a field written twice, rows ended by
    a carriage return and a line feed. *)

Module Csv.

(** [str(n)] for an [int]. *)
Definition str_of_int (n : Z) : str :=
  match n with
  | Z0 => [48]
  | Zpos p => Datetime.decimal_str (Npos p)
  | Zneg p => 45 :: Datetime.decimal_str (Npos p)
  end.

(** The text of a value that is a string or [None]: [None] is written
    as the empty string. *)
Definition text_of_cell (c : cell) : str :=
  match c with
  | Some s => s
  | None => []
  end.

Fixpoint double_quotes (s : str) : str :=
  match s with
  | [] => []
  | c :: r =>
    if c =? 34 then 34 :: 34 :: double_quotes r else c :: double_quotes r
  end.

Definition quoted (s : str) : str := 34 :: double_quotes s ++ [34].

Fixpoint join_fields (fields : list str) : str :=
  match fields with
  | [] => []
  | [f] => quoted f
  | f :: rest => quoted f ++ 44 :: join_fields rest
  end.

(** [writer.writerow(fields)]: the text added to the file. *)
Definition writerow (fields : list str) : str :=
  join_fields fields ++ [13; 10].

End Csv.

Definition fieldnames : list str :=
  [u "Date"; u "Payee"; u "Memo"; u "Amount"].

(** The values of a record in the order of [fieldnames], as text. *)
Definition fields_of (r : csv_record) : list str :=
  [Date r; Csv.text_of_cell (Payee r); Memo r; Csv.str_of_int (Amount r)].

(** The text that the writer hands to the output file for the records:
    [writer.writeheader()] and then one [writer.writerow] each. *)
Definition csv_text (records : list csv_record) : str :=
  Csv.writerow fieldnames
  ++ flat_map (fun r => Csv.writerow (fields_of r)) records.

(** *** The output file

    The file is opened with [encoding="utf-8"]: the text of each
    [write] is encoded at once, and a surrogate code point (U+D800 to
    U+DFFF) makes the encoder raise [UnicodeEncodeError]; nothing of
    that text reaches the file then. *)

Definition is_surrogate (c : codepoint) : bool :=
  (55296 <=? c) && (c <=? 57343).

Definition utf8_encodable (s : str) : bool :=
  forallb (fun c => negb (is_surrogate c)) s.

(** [csvfile.write(text)] *)
Definition file_write (text : str) : res unit :=
  if utf8_encodable text then Ok tt else Raise UnicodeEncodeError.

(** The loop over the transactions: the rows written before the loop
    ends or is left by an exception. In [writer.writerow({...})] the
    dictionary is built first, where [round] may raise; the writer
    then hands the text of the row to the file in one [write], where
    the encoder may raise. *)
Fixpoint write_rows (transactions : list Transaction)
  : list csv_record * option exc :=
  match transactions with
  | [] => ([], None)
  | transaction :: rest =>
    match csv_record_of transaction with
    | Raise e => ([], Some e)
    | Ok r =>
      match file_write (Csv.writerow (fields_of r)) with
      | Raise e => ([], Some e)
      | Ok _ => let '(rs, stop) := write_rows rest in (r :: rs, stop)
      end
    end
  end.

(** [export_to_csv]: the rows written after the header row, and the
    error that was printed, if any. [opened] is the outcome of opening
    the output file. *)
Definition export_to_csv (transactions : list Transaction)
           (opened : res unit) : list csv_record * option exc :=
  match opened with
  | Raise e => ([], Some e)
  | Ok _ => write_rows transactions
  end.

(** ** Vocabulary of the statements *)

(** The normalisation applied to the amount group before [float]:
    [.replace(',', '.').replace(' ', '')]. *)
Definition normalize (amt : str) : str :=
  Py.remove_char 32 (Py.replace_char 44 46 amt).

(** The marks that a match of [AMOUNT_PATTERN] leaves. *)
Definition amount_marks (ws amt cur : str) : Re.marks :=
  let p2 := S (List.length ws) in
  let p3 := (p2 + List.length amt)%nat in
  let p4 := S p3 in
  let p5 := (p4 + List.length cur)%nat in
  [(5, p5); (4, p4); (3, p3); (2, p2); (1, 1); (0, 0)]%nat.

(** [AMOUNT_PATTERN] after its sign group. *)
Definition after_sign : list Re.op :=
  [ Re.MAX_REPEAT 0 Unicode.is_space;
    Re.MARK 2; Re.MAX_REPEAT 1 is_amount_char; Re.MARK 3;
    Re.LITERAL 32;
    Re.MARK 4; Re.MAX_REPEAT 1 not_space; Re.MARK 5;
    Re.AT_END ].

(** A line has the shape of [AMOUNT_PATTERN]: a sign, a run of white
    space, a non-empty run of digits, commas and spaces, one space, and
    a non-empty run of characters that are not white space. *)
Definition amount_shape (line : str) (sg : codepoint) (ws amt cur : str)
  : Prop :=
  line = sg :: ws ++ amt ++ 32 :: cur
  /\ is_sign sg = true
  /\ forallb Unicode.is_space ws = true
  /\ forallb is_amount_char amt = true /\ amt <> []
  /\ forallb not_space cur = true /\ cur <> [].

Definition matches_amount_pattern (line : str) : Prop :=
  exists sg ws amt cur, amount_shape line sg ws amt cur.

(** The digits of a literal, most significant first, and the number of
    digits after its first comma. *)
Definition literal_digits (lit : str) : list N :=
  flat_map (fun c => match Unicode.to_decimal c with
                     | Some d => [d]
                     | None => []
                     end) lit.

Fixpoint after_comma (lit : str) : str :=
  match lit with
  | [] => []
  | c :: r => if c =? 44 then r else after_comma r
  end.

Definition literal_scale (lit : str) : nat :=
  List.length (literal_digits (after_comma lit)).

Definition commas (lit : str) : nat := count_occ N.eq_dec lit 44.

(** A numeric literal that denotes a number: digits, spaces and at
    most one comma, with at least one digit. *)
Definition numeric_literal (lit : str) : bool :=
  forallb is_amount_char lit
  && (commas lit <=? 1)%nat
  && existsb Unicode.is_digit lit.

(** The float that a numeric literal denotes: its digits read as an
    integer, divided by ten to the number of digits after the comma,
    correctly rounded. *)
Definition literal_value (lit : str) : Float64.float :=
  Float64.of_ratio (Py.value_of (literal_digits lit))
                   (Py.pow10 (literal_scale lit)).

Definition signed (sg : codepoint) (v : Float64.float) : Float64.float :=
  if sg =? 43 then v else Float64.neg v.

(** A table met before the header that has a first row, which is not a
    header signature. *)
Definition preamble (t : table) : bool :=
  match t with
  | first :: _ => negb (row_in first TRANSACTION_TABLE_HEADER_VARIANTS)
  | [] => false
  end.

(** A page whose extraction succeeds with the given tables. *)
Definition page_of (tables : list table) : page :=
  {| extract_tables := Ok tables |}.

(** The transactions that the builder yields for a table. *)
Definition built (t : table) : list Transaction :=
  yields (get_transactions t).

(** The transactions that [parse_statement] appends for the tables that
    the assembler yields. *)
Definition collected (evs : list (event table)) : list Transaction :=
  flat_map built (yields evs).


(** [row[i] = c] on a copy of the row. *)
Fixpoint set_cell (i : nat) (c : cell) (r : row) : row :=
  match r, i with
  | [], _ => []
  | _ :: r', O => c :: r'
  | x :: r', S i' => x :: set_cell i' c r'
  end.

(** A float that is not a NaN and whose sign bit is [s]. *)
Definition has_sign (s : bool) (v : Float64.float) : Prop :=
  match v with
  | S754_zero s' | S754_infinity s' | S754_finite s' _ _ => s' = s
  | S754_nan => False
  end.

(** Strictly positive floats, and floats that are zero or negative. *)
Definition is_pos (v : Float64.float) : Prop :=
  match v with
  | S754_finite false _ _ | S754_infinity false => True
  | _ => False
  end.

Definition is_nonpos (v : Float64.float) : Prop :=
  match v with
  | S754_zero _ | S754_finite true _ _ | S754_infinity true => True
  | _ => False
  end.

Definition amounts (ts : list Transaction) : list Float64.float :=
  map amount ts.

(** Left-to-right float sum, from 0. *)
Definition fsum (xs : list Float64.float) : Float64.float :=
  fold_left Float64.add xs Float64.zero.

Definition is_inflow (t : Transaction) : bool :=
  Float64.ltb Float64.zero (amount t).

(** [r] is the integer nearest to [num / den], ties to even. *)
Definition nearest_even_to (num den r : Z) : Prop :=
  (2 * Z.abs (r * den - num) <= den)%Z
  /\ ((2 * Z.abs (r * den - num) = den)%Z -> Z.even r = true).

(** A finite float as a fraction with a positive denominator. *)
Definition numerator (s : bool) (m : positive) (e : Z) : Z :=
  ((if s then -1 else 1) * Zpos m * 2 ^ Z.max e 0)%Z.
Definition denominator (e : Z) : Z := (2 ^ Z.max (- e) 0)%Z.

(** ** Documents and rows used as examples *)

(** Two pages whose tables have first rows that are no header
    signature. *)
Definition no_header_page : list (list table) :=
  [ [ [ [Some (u "Account"); Some (u "Balance")] ] ];
    [ [ [Some (u "Date"); Some (u "Amount"); Some (u "Transaction")];
        [Some (u "01.03.24"); Some (u "+ 20,93 ₸"); Some (u "Transfer")] ] ] ].

(** A row of four string cells. *)
Definition r4 (a b c d : string) : row :=
  [Some (u a); Some (u b); Some (u c); Some (u d)].

(** An account summary, the header table with one transaction row, and
    a continuation table. *)
Definition summary_table : table := [ r4 "Account" "Currency" "Balance" "Period" ].
Definition header_table : table :=
  [ header "Date" "Amount" "Transaction" "Details";
    r4 "01.03.24" "+ 1 000,50 ₸" "Transfer" "Alice" ].
Definition continuation_table : table :=
  [ r4 "02.03.24" "- 250 ₸" "Purchase" "Shop" ].

(** Three raw rows; the amount of the second one does not parse. *)
Definition alice_row : row := r4 "01.03.24" "+ 1 000,50 ₸" "Transfer" "Alice".
Definition garbage_row : row := r4 "02.03.24" "garbage" "Purchase" "Shop".
Definition shop_row : row := r4 "03.03.24" "- 250 ₸" "Purchase" "Shop".

(** The transactions of the rows above: 1000.5 is 8800491068719104 *
    2^-43 and -250 is -8796093022208000 * 2^-45. *)
Definition alice : Transaction :=
  {| date := {| Datetime.year := 2024; Datetime.month := 3;
                Datetime.day := 1 |};
     payee := Some (u "Alice"); memo := empty;
     amount := S754_finite false 8800491068719104 (-43) |}.

Definition shop (day : N) : Transaction :=
  {| date := {| Datetime.year := 2024; Datetime.month := 3;
                Datetime.day := day |};
     payee := Some (u "Shop"); memo := empty;
     amount := S754_finite true 8796093022208000 (-45) |}.

(** A statement with the amounts +0.10, -0.30, +0.20, and one with
    inflows only. *)
Definition mixed_statement : list page :=
  [ page_of [ [ header "Date" "Amount" "Transaction" "Details";
                r4 "01.03.24" "+ 0,10 ₸" "Transfer" "Alice";
                r4 "02.03.24" "- 0,30 ₸" "Purchase" "Shop";
                r4 "03.03.24" "+ 0,20 ₸" "Transfer" "Alice" ] ] ].

Definition inflow_statement : list page :=
  [ page_of [ [ header "Date" "Amount" "Transaction" "Details";
                r4 "01.03.24" "+ 0,10 ₸" "Transfer" "Alice";
                r4 "03.03.24" "+ 0,20 ₸" "Transfer" "Alice" ] ] ].

(** The end-to-end example: two rows under the first header
    signature. *)
Definition end_to_end_example : document :=
  Ok [ page_of [ [ header "Date" "Amount" "Transaction" "Details";
                   r4 "01.03.24" "+ 1 000,50 ₸" "Transfer" "Alice";
                   r4 "02.03.24" "- 250 ₸" "Purchase" "Shop" ] ] ].

(** ** The command line entry point *)

(** [s.rsplit(".", 1)[0]]: the text before the last full stop, or
    the whole text when it has none. *)
Fixpoint before_last_dot (s : str) : str :=
  match s with
  | [] => []
  | c :: r =>
    if (c =? 46) && negb (existsb (N.eqb 46) r) then []
    else c :: before_last_dot r
  end.

(** The parsed arguments: the positional [statement] and the optional
    [--output] (default [None]). *)
Record Namespace := { statement : str; output : option str }.

(** [args.output or input_pdf.rsplit(".", 1)[0] + ".csv"]: [None] and
    the empty string are both false. *)
Definition output_csv (args : Namespace) : str :=
  match output args with
  | Some (c :: o) => c :: o
  | _ => before_last_dot (statement args) ++ u ".csv"
  end.

(** The files that [main] touches: the document found at a path, and
    the outcome of opening a path for writing. *)
Record files := {
  pdf_at : str -> document;
  open_for_writing : str -> res unit
}.

(** [main], after [parse_arguments]: the path written to, the records
    written there and the error printed by [export_to_csv], if any. *)
Definition main (args : Namespace) (fs : files)
  : res (str * (list csv_record * option exc)) :=
  let input_pdf := statement args in
  let output_csv := output_csv args in
  transactions <- parse_statement (pdf_at fs input_pdf) ;;
  Ok (output_csv,
      export_to_csv transactions (open_for_writing fs output_csv)).

(** ** More vocabulary *)

(** [YYYY-MM-DD]: ten characters, ASCII digits around two hyphens. *)
Definition ascii_digit (c : codepoint) : bool := (48 <=? c) && (c <=? 57).

Definition iso_date (s : str) : bool :=
  match s with
  | [y1; y2; y3; y4; h1; m1; m2; h2; d1; d2] =>
    forallb ascii_digit [y1; y2; y3; y4; m1; m2; d1; d2]
    && (h1 =? 45) && (h2 =? 45)
  | _ => false
  end.

(** A date of the calendar between 1969 and 2068. *)
Definition valid_date (d : Datetime.datetime) : Prop :=
  1969 <= Datetime.year d <= 2068
  /\ 1 <= Datetime.month d <= 12
  /\ 1 <= Datetime.day d
     <= Datetime.days_in_month (Datetime.year d) (Datetime.month d).

(** An amount that [round] accepts. *)
Definition finite (v : Float64.float) : bool :=
  match v with
  | S754_zero _ | S754_finite _ _ _ => true
  | _ => false
  end.

(** A transaction that the export can write: [round] accepts the
    amount, and neither the payee nor the memo holds a surrogate. *)
Definition exportable (t : Transaction) : bool :=
  finite (amount t)
  && utf8_encodable (Csv.text_of_cell (payee t))
  && utf8_encodable (memo t).

Definition is_error_record (r : log_record) : bool :=
  match r with
  | ERROR_failed_to_parse_transaction _ _ => true
  | _ => false
  end.

(** The log record that the builder leaves for a row. *)
Definition record_of_line (line : row) : log_record :=
  match transaction_of_line line with
  | Ok t => INFO_transaction t
  | Raise e => ERROR_failed_to_parse_transaction line e
  end.

(** Reads a quoted field back: the text after the opening quote is
    consumed up to the closing quote, a doubled quote standing for
    one. Returns the field and the text after the closing quote. *)
Fixpoint read_quoted (s : str) : option (str * str) :=
  match s with
  | [] => None
  | c :: r =>
    if c =? 34 then
      match r with
      | c' :: r' =>
        if c' =? 34 then
          match read_quoted r' with
          | Some (f, rest) => Some (34 :: f, rest)
          | None => None
          end
        else Some ([], r)
      | [] => Some ([], [])
      end
    else
      match read_quoted r with
      | Some (f, rest) => Some (c :: f, rest)
      | None => None
      end
  end.

(** [p] followed by [k] zero bits: [p * 2^k]. *)
Fixpoint shl (p : positive) (k : nat) : positive :=
  match k with
  | O => p
  | S k' => xO (shl p k')
  end.

(** The text [dd.mm.yy] of a date, as the statements print it. *)
Definition dmy_text (d : Datetime.datetime) : str :=
  Datetime.two_digits (Datetime.day d) ++ [46]
    ++ Datetime.two_digits (Datetime.month d) ++ [46]
    ++ Datetime.two_digits (Datetime.year d mod 100).

Definition datetime_eqb (a b : Datetime.datetime) : bool :=
  (Datetime.year a =? Datetime.year b)
  && (Datetime.month a =? Datetime.month b)
  && (Datetime.day a =? Datetime.day b).

(** [strptime] reads the text [dd.mm.yy] of the date back as the
    date. *)
Definition reads_back (d : Datetime.datetime) : bool :=
  match Datetime.strptime (dmy_text d) with
  | Ok d' => datetime_eqb d' d
  | Raise _ => false
  end.

Definition numbers_from (first : nat) (count : nat) : list N :=
  map N.of_nat (seq first count).

(** The days 1 to 31 of every month of the years 1969 to 2068. *)
Definition days_of_the_century : list Datetime.datetime :=
  flat_map (fun y =>
  flat_map (fun m =>
  map (fun d => {| Datetime.year := y; Datetime.month := m;
                   Datetime.day := d |})
      (numbers_from 1 31)) (numbers_from 1 12)) (numbers_from 1969 100).

Definition on_the_calendar (d : Datetime.datetime) : bool :=
  Datetime.day d
  <=? Datetime.days_in_month (Datetime.year d) (Datetime.month d).

(** * Properties *)

(** * Facts about the character classes *)

Lemma is_space_cases (c : codepoint) :
  Unicode.is_space c = true ->
  In c [9; 10; 11; 12; 13; 28; 29; 30; 31; 32; 133; 160; 5760;
        8192; 8193; 8194; 8195; 8196; 8197; 8198; 8199; 8200; 8201; 8202;
        8232; 8233; 8239; 8287; 12288].
Proof.
  unfold Unicode.is_space. intros H.
  repeat rewrite orb_true_iff in H. repeat rewrite andb_true_iff in H.
  repeat rewrite N.leb_le in H. repeat rewrite N.eqb_eq in H.
  simpl. lia.
Qed.

Lemma space_is_not_digit (c : codepoint) :
  Unicode.is_space c = true -> Unicode.to_decimal c = None.
Proof.
  intros H. apply is_space_cases in H. simpl in H.
  repeat (destruct H as [H | H]; [subst c; reflexivity |]).
  contradiction.
Qed.

Lemma amount_char_cases (c : codepoint) :
  is_amount_char c = true ->
  (exists d, Unicode.to_decimal c = Some d) \/ c = 44 \/ c = 32.
Proof.
  unfold is_amount_char, Unicode.is_digit. intros H.
  repeat rewrite orb_true_iff in H. repeat rewrite N.eqb_eq in H.
  destruct H as [[H | H] | H]; auto.
  destruct (Unicode.to_decimal c) as [d |]; [eauto | discriminate].
Qed.

Lemma space_amount_char (c : codepoint) :
  Unicode.is_space c = true -> is_amount_char c = true -> c = 32.
Proof.
  intros Hs Ha. apply amount_char_cases in Ha.
  destruct Ha as [[d Hd] | [-> | ->]]; auto.
  - rewrite (space_is_not_digit c Hs) in Hd. discriminate.
  - discriminate.
Qed.

Lemma digit_not_special (c : codepoint) (d : N) :
  Unicode.to_decimal c = Some d -> c <> 32 /\ c <> 44 /\ c <> 46 /\ c <> 10.
Proof.
  intros H. repeat split; intros ->; discriminate.
Qed.

(** * Facts about lists of characters *)

Lemma first_line_no_newline (s : str) : ~ In 10 (Py.first_line s).
Proof.
  induction s as [| c r IH]; simpl; [tauto |].
  destruct (c =? 10) eqn:E; simpl; [tauto |].
  apply N.eqb_neq in E. intros [H | H]; [congruence | tauto].
Qed.

Lemma first_line_cons (c : codepoint) (s : str) :
  c <> 10 -> Py.first_line (c :: s) = c :: Py.first_line s.
Proof.
  intros H. simpl. apply N.eqb_neq in H. rewrite H. reflexivity.
Qed.

Lemma slice_middle (a b c : str) :
  Re.slice (a ++ b ++ c) (List.length a) (List.length a + List.length b) = b.
Proof.
  unfold Re.slice.
  replace (List.length a + List.length b - List.length a)%nat
    with (List.length b) by lia.
  rewrite skipn_app, skipn_all, Nat.sub_diag. simpl.
  rewrite firstn_app, firstn_all, Nat.sub_diag. simpl.
  apply app_nil_r.
Qed.

(** Two ways of cutting a text at a separator agree when the separator
    cannot occur in the part before it. *)
Lemma cut_at_separator (P : codepoint -> bool) (sep : codepoint) :
  P sep = false ->
  forall a a' y y',
    forallb P a = true -> forallb P a' = true ->
    a ++ sep :: y = a' ++ sep :: y' -> a = a' /\ y = y'.
Proof.
  intros Hsep. induction a as [| x a IH]; intros [| x' a'] y y' Ha Ha' E;
    simpl in *.
  - injection E as E. auto.
  - injection E as E1 E2. subst x'.
    apply andb_true_iff in Ha'. destruct Ha' as [Hx _]. congruence.
  - injection E as E1 E2. subst x.
    apply andb_true_iff in Ha. destruct Ha as [Hx _]. congruence.
  - injection E as E1 E2. subst x'.
    apply andb_true_iff in Ha. apply andb_true_iff in Ha'.
    destruct (IH a' y y') as [-> ->]; tauto.
Qed.

Lemma forallb_rev {A} (P : A -> bool) (l : list A) :
  forallb P (rev l) = forallb P l.
Proof.
  induction l as [| x l IH]; simpl; [reflexivity |].
  rewrite forallb_app, IH. simpl. rewrite andb_true_r. apply andb_comm.
Qed.

(** The same, cutting at the last separator. *)
Lemma cut_at_last_separator (P : codepoint -> bool) (sep : codepoint) :
  P sep = false ->
  forall x x' a a',
    forallb P a = true -> forallb P a' = true ->
    x ++ sep :: a = x' ++ sep :: a' -> x = x' /\ a = a'.
Proof.
  intros Hsep x x' a a' Ha Ha' E.
  apply (f_equal (@rev codepoint)) in E.
  rewrite !rev_app_distr in E. simpl in E. rewrite <- !app_assoc in E.
  simpl in E.
  destruct (cut_at_separator P sep Hsep (rev a) (rev a') (rev x) (rev x'))
    as [E1 E2]; try (rewrite forallb_rev; assumption); [exact E |].
  split; apply rev_inj; [exact E2 | exact E1].
Qed.

(** * The regular expression matcher *)

Lemma max_repeat_sound cls lo k :
  forall rest n pos m,
    Re.max_repeat cls lo k n pos rest = Some m ->
    exists a b, rest = a ++ b /\ forallb cls a = true
                /\ (lo <= n + List.length a)%nat
                /\ k (pos + List.length a)%nat b = Some m.
Proof.
  induction rest as [| c r IH]; intros n pos m H; simpl in H.
  - destruct (lo <=? n)%nat eqn:E; [| discriminate].
    apply Nat.leb_le in E.
    exists [], []. simpl. rewrite !Nat.add_0_r. auto.
  - assert (Hstop : (if (lo <=? n)%nat then k pos (c :: r) else None) = Some m ->
                    exists a b, c :: r = a ++ b /\ forallb cls a = true
                                /\ (lo <= n + List.length a)%nat
                                /\ k (pos + List.length a)%nat b = Some m).
    { intros Hs. destruct (lo <=? n)%nat eqn:E; [| discriminate].
      apply Nat.leb_le in E.
      exists [], (c :: r). simpl. rewrite !Nat.add_0_r. auto. }
    destruct (cls c) eqn:Hc; [| auto].
    destruct (Re.max_repeat cls lo k (S n) (S pos) r) as [m' |] eqn:Hr; [| auto].
    injection H as ->.
    destruct (IH _ _ _ Hr) as (a & b & -> & Ha & Hn & Hk).
    exists (c :: a), b. simpl. rewrite Hc, Ha.
    replace (pos + S (List.length a))%nat with (S pos + List.length a)%nat by lia.
    repeat split; auto. lia.
Qed.

Lemma max_repeat_complete cls lo k :
  forall a b n pos m,
    forallb cls a = true ->
    (lo <= n + List.length a)%nat ->
    k (pos + List.length a)%nat b = Some m ->
    exists m', Re.max_repeat cls lo k n pos (a ++ b) = Some m'.
Proof.
  induction a as [| c a IH]; intros b n pos m Ha Hn Hk; simpl in *.
  - rewrite Nat.add_0_r in *.
    assert (E : (lo <=? n)%nat = true) by (apply Nat.leb_le; lia).
    destruct b as [| c r]; simpl; rewrite E.
    + eauto.
    + destruct (cls c); [| eauto].
      destruct (Re.max_repeat cls lo k (S n) (S pos) r); eauto.
  - apply andb_true_iff in Ha. destruct Ha as [Hc Ha]. rewrite Hc.
    destruct (IH b (S n) (S pos) m Ha) as [m' Hm'].
    + lia.
    + replace (S pos + List.length a)%nat with (pos + S (List.length a))%nat by lia.
      exact Hk.
    + rewrite Hm'. eauto.
Qed.

Lemma amount_match_cons (c : codepoint) (r : str) :
  Re.match_ AMOUNT_PATTERN (c :: r)
  = if is_sign c then Re.exec after_sign [(1, 1); (0, 0)]%nat 1 r else None.
Proof. reflexivity. Qed.

Lemma amount_match_inv (line : str) (m : Re.marks) :
  Re.match_ AMOUNT_PATTERN line = Some m ->
  ~ In 10 line ->
  exists sg ws amt cur,
    amount_shape line sg ws amt cur /\ m = amount_marks ws amt cur.
Proof.
  unfold Re.match_, AMOUNT_PATTERN. intros H Hnl.
  cbn [Re.exec Nat.eqb] in H.
  destruct line as [| sg r]; [discriminate |].
  destruct (is_sign sg) eqn:Hsg; [| discriminate].
  apply max_repeat_sound in H. destruct H as (ws & r1 & -> & Hws & _ & H).
  cbn [Re.exec] in H.
  apply max_repeat_sound in H. destruct H as (amt & r2 & -> & Hamt & Hn & H).
  cbn [Re.exec Re.LITERAL] in H.
  destruct r2 as [| sp r3]; [discriminate |].
  destruct (32 =? sp) eqn:Hsp; [| discriminate].
  apply N.eqb_eq in Hsp. subst sp.
  apply max_repeat_sound in H. destruct H as (cur & r4 & -> & Hcur & Hc & H).
  cbn [Re.exec] in H.
  assert (r4 = []) as ->.
  { destruct r4 as [| c [| c' r5]]; [reflexivity | | discriminate].
    destruct (c =? 10) eqn:E; [| discriminate].
    apply N.eqb_eq in E. subst c. exfalso. apply Hnl.
    right. apply in_or_app. right. apply in_or_app. right. right.
    apply in_or_app. right. left. reflexivity. }
  injection H as <-.
  exists sg, ws, amt, cur. rewrite app_nil_r. split.
  - unfold amount_shape. repeat split; auto.
    + destruct amt; [simpl in Hn; lia | discriminate].
    + destruct cur; [simpl in Hc; lia | discriminate].
  - unfold amount_marks. repeat f_equal; lia.
Qed.

Lemma exec_max_repeat_complete lo cls k ms pos a b m :
  forallb cls a = true ->
  (lo <= List.length a)%nat ->
  Re.exec k ms (pos + List.length a)%nat b = Some m ->
  exists m', Re.exec (Re.MAX_REPEAT lo cls :: k) ms pos (a ++ b) = Some m'.
Proof.
  intros Ha Hlo Hk.
  change (Re.exec (Re.MAX_REPEAT lo cls :: k) ms pos (a ++ b))
    with (Re.max_repeat cls lo (Re.exec k ms) 0 pos (a ++ b)).
  eapply max_repeat_complete; eauto.
Qed.

Lemma amount_match_complete (line : str) sg ws amt cur :
  amount_shape line sg ws amt cur ->
  exists m, Re.match_ AMOUNT_PATTERN line = Some m.
Proof.
  intros (-> & Hsg & Hws & Hamt & Hne & Hcur & Hce).
  rewrite amount_match_cons, Hsg. unfold after_sign.
  set (ms1 := [(1, 1); (0, 0)]%nat).
  set (p2 := (1 + List.length ws)%nat).
  set (p3 := (p2 + List.length amt)%nat).
  assert (H3 : exists m, Re.exec [Re.MAX_REPEAT 1 not_space; Re.MARK 5; Re.AT_END]
                                 ((4, S p3) :: (3, p3) :: (2, p2) :: ms1)%nat
                                 (S p3) (cur ++ []) = Some m).
  { eapply exec_max_repeat_complete; [exact Hcur | | reflexivity].
    destruct cur; [congruence | simpl; lia]. }
  destruct H3 as [m3 H3]. rewrite app_nil_r in H3.
  assert (H2 : exists m, Re.exec [Re.MAX_REPEAT 1 is_amount_char; Re.MARK 3;
                                  Re.LITERAL 32; Re.MARK 4;
                                  Re.MAX_REPEAT 1 not_space; Re.MARK 5; Re.AT_END]
                                 ((2, p2) :: ms1)%nat p2 (amt ++ 32 :: cur) = Some m).
  { eapply exec_max_repeat_complete; [exact Hamt | |].
    - destruct amt; [congruence | simpl; lia].
    - cbn [Re.exec Re.LITERAL]. rewrite N.eqb_refl. exact H3. }
  destruct H2 as [m2 H2].
  eapply exec_max_repeat_complete; [exact Hws | lia |].
  exact H2.
Qed.

Lemma slice_between (a b c : str) (p q : nat) (line : str) :
  line = a ++ b ++ c ->
  p = List.length a -> q = (p + List.length b)%nat ->
  Re.slice line p q = b.
Proof. intros -> -> ->. apply slice_middle. Qed.

Lemma groups_of_amount_marks (sg : codepoint) (ws amt cur : str) :
  let line := sg :: ws ++ amt ++ 32 :: cur in
  let m := amount_marks ws amt cur in
  Re.group line m g_sign = [sg]
  /\ Re.group line m g_amount = amt
  /\ Re.group line m g_currency = cur.
Proof.
  intros line m. unfold Re.group, m, amount_marks, g_sign, g_amount, g_currency.
  cbn [Re.mark Nat.mul Nat.add Nat.sub Nat.eqb]. repeat split.
  - apply (slice_between (sg :: ws) amt (32 :: cur)).
    + reflexivity.
    + reflexivity.
    + simpl. lia.
  - apply (slice_between (sg :: ws ++ amt ++ [32]) cur []).
    + unfold line. rewrite app_nil_r. simpl. rewrite <- !app_assoc. reflexivity.
    + simpl. rewrite !length_app. simpl. lia.
    + lia.
Qed.

(** * Normalisation of the amount group *)

Lemma normalize_cons_space (x : str) : normalize (32 :: x) = normalize x.
Proof. reflexivity. Qed.

Lemma normalize_cons_comma (x : str) : normalize (44 :: x) = 46 :: normalize x.
Proof. reflexivity. Qed.

Lemma normalize_cons_digit (c : codepoint) (d : N) (x : str) :
  Unicode.to_decimal c = Some d -> normalize (c :: x) = c :: normalize x.
Proof.
  intros H. destruct (digit_not_special c d H) as (H32 & H44 & H46 & _).
  unfold normalize, Py.remove_char, Py.replace_char. simpl.
  apply N.eqb_neq in H32, H44. rewrite H44. simpl. rewrite H32. reflexivity.
Qed.

Lemma normalize_skip_spaces (w x : str) :
  forallb Unicode.is_space w = true ->
  forallb is_amount_char w = true ->
  normalize (w ++ x) = normalize x.
Proof.
  induction w as [| c w IH]; simpl; intros Hs Ha; [reflexivity |].
  apply andb_true_iff in Hs. apply andb_true_iff in Ha.
  destruct Hs as [Hc Hs]. destruct Ha as [Hc' Ha].
  rewrite (space_amount_char c Hc Hc'), normalize_cons_space. auto.
Qed.

Lemma normalize_same_text (ws ws' amt amt' : str) :
  ws ++ amt = ws' ++ amt' ->
  forallb Unicode.is_space ws = true ->
  forallb Unicode.is_space ws' = true ->
  forallb is_amount_char amt = true ->
  forallb is_amount_char amt' = true ->
  normalize amt = normalize amt'.
Proof.
  revert ws'. induction ws as [| c w IH]; intros [| c' w'] E Hs Hs' Ha Ha';
    simpl in E.
  - congruence.
  - subst amt. change (c' :: w' ++ amt') with ((c' :: w') ++ amt') in *.
    rewrite forallb_app in Ha. apply andb_true_iff in Ha.
    apply normalize_skip_spaces; tauto.
  - subst amt'. change (c :: w ++ amt) with ((c :: w) ++ amt) in *.
    rewrite forallb_app in Ha'. apply andb_true_iff in Ha'.
    symmetry. apply normalize_skip_spaces; tauto.
  - injection E as _ E. simpl in Hs, Hs'.
    apply andb_true_iff in Hs. apply andb_true_iff in Hs'.
    apply (IH w'); tauto.
Qed.

Lemma not_space_32 : not_space 32 = false.
Proof. reflexivity. Qed.

(** A line has the shape of the pattern in essentially one way. *)
Lemma amount_shape_unique (line : str) sg ws amt cur sg' ws' amt' cur' :
  amount_shape line sg ws amt cur ->
  amount_shape line sg' ws' amt' cur' ->
  sg = sg' /\ cur = cur' /\ normalize amt = normalize amt'.
Proof.
  intros (E & _ & Hws & Hamt & _ & Hcur & _) (E' & _ & Hws' & Hamt' & _ & Hcur' & _).
  rewrite E in E'. injection E' as Esg E'.
  rewrite !app_assoc in E'.
  destruct (cut_at_last_separator not_space 32 not_space_32 _ _ _ _ Hcur Hcur' E')
    as [Ebody Ecur].
  repeat split; auto.
  eapply normalize_same_text; eauto.
Qed.

(** * The amount parser in terms of the shape of its first line *)

Lemma str_eqb_eq (a b : str) : str_eqb a b = true <-> a = b.
Proof.
  unfold str_eqb. destruct (list_eq_dec N.eq_dec a b); split; congruence.
Qed.

Lemma str_eqb_refl (a : str) : str_eqb a a = true.
Proof. apply str_eqb_eq. reflexivity. Qed.

Lemma str_eqb_neq (a b : str) : str_eqb a b = false <-> a <> b.
Proof.
  unfold str_eqb. destruct (list_eq_dec N.eq_dec a b); split; congruence.
Qed.

Lemma str_eqb_plus (sg : codepoint) : str_eqb [sg] (u "+") = (sg =? 43).
Proof.
  change (u "+") with [43].
  destruct (sg =? 43) eqn:E.
  - apply N.eqb_eq in E. subst. reflexivity.
  - apply N.eqb_neq in E. apply str_eqb_neq. congruence.
Qed.

Lemma parse_amount_of_shape (s : str) sg ws amt cur :
  amount_shape (Py.first_line s) sg ws amt cur ->
  parse_amount s =
  if negb (str_eqb cur EXPECTED_CURRENCY) then
    Raise (ValueError (Unexpected_currency cur EXPECTED_CURRENCY))
  else
    a <- Py.float (normalize amt) ;; Ok (signed sg a).
Proof.
  intros Hshape.
  destruct (amount_match_complete _ _ _ _ _ Hshape) as [m Hm].
  destruct (amount_match_inv _ _ Hm (first_line_no_newline s))
    as (sg' & ws' & amt' & cur' & Hshape' & ->).
  destruct (amount_shape_unique _ _ _ _ _ _ _ _ _ Hshape' Hshape)
    as (-> & -> & Enorm).
  unfold parse_amount. rewrite Hm.
  destruct Hshape' as (E & _). rewrite E.
  destruct (groups_of_amount_marks sg ws' amt' cur) as (G1 & G2 & G3).
  rewrite G1, G2, G3, str_eqb_plus.
  fold (normalize amt'). rewrite Enorm. reflexivity.
Qed.

Lemma parse_amount_no_shape (s : str) :
  ~ matches_amount_pattern (Py.first_line s) ->
  parse_amount s = Raise (ValueError (Failed_to_parse_amount s)).
Proof.
  intros Hno. unfold parse_amount.
  destruct (Re.match_ AMOUNT_PATTERN (Py.first_line s)) as [m |] eqn:Hm;
    [| reflexivity].
  exfalso. apply Hno.
  destruct (amount_match_inv _ _ Hm (first_line_no_newline s))
    as (sg & ws & amt & cur & Hshape & _).
  exists sg, ws, amt, cur. exact Hshape.
Qed.

(** * [float] on normalised literals *)

Lemma literal_digits_digit (c : codepoint) (d : N) (r : str) :
  Unicode.to_decimal c = Some d ->
  literal_digits (c :: r) = d :: literal_digits r.
Proof. intros H. unfold literal_digits. cbn [flat_map]. rewrite H. reflexivity. Qed.

Lemma literal_digits_other (c : codepoint) (r : str) :
  Unicode.to_decimal c = None ->
  literal_digits (c :: r) = literal_digits r.
Proof. intros H. unfold literal_digits. cbn [flat_map]. rewrite H. reflexivity. Qed.

Lemma digits_of_cons (c : codepoint) (d : N) (r : str) :
  Unicode.to_decimal c = Some d ->
  Py.digits_of (c :: r)
  = match Py.digits_of r with Some ds => Some (d :: ds) | None => None end.
Proof. intros H. cbn [Py.digits_of]. rewrite H. reflexivity. Qed.

Lemma digits_of_normalize (x : str) :
  forallb is_amount_char x = true ->
  commas x = 0%nat ->
  Py.digits_of (normalize x) = Some (literal_digits x).
Proof.
  unfold commas in *.
  induction x as [| c x IH]; intros Ha Hc; [reflexivity |].
  simpl in Ha. apply andb_true_iff in Ha. destruct Ha as [Hch Ha].
  simpl in Hc. destruct (N.eq_dec c 44) as [-> | Hne]; [discriminate |].
  destruct (amount_char_cases c Hch) as [[d Hd] | [-> | ->]].
  - rewrite (normalize_cons_digit c d x Hd), (digits_of_cons c d _ Hd),
      (literal_digits_digit c d x Hd), IH; auto.
  - congruence.
  - rewrite normalize_cons_space, literal_digits_other by reflexivity. auto.
Qed.

Lemma digits_of_normalize_comma (x : str) :
  forallb is_amount_char x = true ->
  (0 < commas x)%nat ->
  Py.digits_of (normalize x) = None.
Proof.
  unfold commas in *.
  induction x as [| c x IH]; intros Ha Hc; [simpl in Hc; lia |].
  simpl in Ha. apply andb_true_iff in Ha. destruct Ha as [Hch Ha].
  destruct (amount_char_cases c Hch) as [[d Hd] | [-> | ->]].
  - rewrite (normalize_cons_digit c d x Hd), (digits_of_cons c d _ Hd).
    simpl in Hc. destruct (N.eq_dec c 44) as [-> | Hne]; [discriminate |].
    rewrite IH; auto.
  - reflexivity.
  - rewrite normalize_cons_space. apply IH; auto.
Qed.

Lemma count_after_comma (lit : str) :
  (0 < commas lit)%nat ->
  commas lit = S (commas (after_comma lit)).
Proof.
  unfold commas in *.
  induction lit as [| c r IH]; simpl; [lia |].
  destruct (N.eq_dec c 44) as [-> | Hne].
  - reflexivity.
  - apply N.eqb_neq in Hne. rewrite Hne. exact IH.
Qed.

Lemma after_comma_none (lit : str) :
  commas lit = 0%nat -> after_comma lit = [].
Proof.
  unfold commas in *.
  induction lit as [| c r IH]; simpl; [reflexivity |].
  destruct (N.eq_dec c 44) as [-> | Hne]; [discriminate |].
  apply N.eqb_neq in Hne. rewrite Hne. exact IH.
Qed.

Lemma forallb_after_comma (lit : str) :
  forallb is_amount_char lit = true ->
  forallb is_amount_char (after_comma lit) = true.
Proof.
  induction lit as [| c r IH]; simpl; [reflexivity |].
  intros H. apply andb_true_iff in H. destruct H as [_ H].
  destruct (c =? 44); auto.
Qed.

(** The integer part and the fraction part that [float] sees. *)
Lemma split_point_normalize (lit : str) :
  forallb is_amount_char lit = true ->
  exists ip di,
    Py.split_point (normalize lit)
    = (ip, if (0 <? commas lit)%nat
           then Some (normalize (after_comma lit)) else None)
    /\ Py.digits_of ip = Some di
    /\ literal_digits lit = di ++ literal_digits (after_comma lit).
Proof.
  unfold commas in *.
  induction lit as [| c r IH]; intros Ha.
  - exists [], []. auto.
  - simpl in Ha. apply andb_true_iff in Ha. destruct Ha as [Hch Ha].
    destruct (IH Ha) as (ip & di & Hsp & Hdi & Hld).
    destruct (amount_char_cases c Hch) as [[d Hd] | [-> | ->]].
    + destruct (digit_not_special c d Hd) as (_ & H44 & H46 & _).
      exists (c :: ip), (d :: di).
      rewrite (normalize_cons_digit c d r Hd), (digits_of_cons c d _ Hd),
        (literal_digits_digit c d r Hd), Hdi, Hld.
      cbn [Py.split_point after_comma count_occ].
      apply N.eqb_neq in H46. rewrite H46, Hsp.
      destruct (N.eq_dec c 44) as [-> | _]; [congruence |].
      apply N.eqb_neq in H44. rewrite H44. auto.
    + exists [], []. rewrite normalize_cons_comma.
      rewrite literal_digits_other by reflexivity. simpl. auto.
    + exists ip, di. rewrite normalize_cons_space.
      rewrite literal_digits_other by reflexivity. simpl. auto.
Qed.

Lemma literal_digits_nonempty (lit : str) :
  existsb Unicode.is_digit lit = true -> literal_digits lit <> [].
Proof.
  induction lit as [| c r IH]; cbn [existsb]; [discriminate |].
  unfold Unicode.is_digit at 1.
  destruct (Unicode.to_decimal c) as [d |] eqn:Hd.
  - rewrite (literal_digits_digit c d r Hd). discriminate.
  - rewrite (literal_digits_other c r Hd). exact IH.
Qed.

Lemma literal_digits_empty (lit : str) :
  existsb Unicode.is_digit lit = false -> literal_digits lit = [].
Proof.
  induction lit as [| c r IH]; cbn [existsb]; [reflexivity |].
  unfold Unicode.is_digit at 1.
  destruct (Unicode.to_decimal c) as [d |] eqn:Hd.
  - discriminate.
  - rewrite (literal_digits_other c r Hd). exact IH.
Qed.

Lemma float_of_numeric_literal (lit : str) :
  numeric_literal lit = true ->
  Py.float (normalize lit) = Ok (literal_value lit).
Proof.
  unfold numeric_literal. intros H.
  apply andb_true_iff in H. destruct H as [H Hdig].
  apply andb_true_iff in H. destruct H as [Ha Hc]. apply Nat.leb_le in Hc.
  destruct (split_point_normalize lit Ha) as (ip & di & Hsp & Hdi & Hld).
  unfold Py.float. rewrite Hsp, Hdi.
  assert (Hfp : Py.digits_of
                  (match (if (0 <? commas lit)%nat
                          then Some (normalize (after_comma lit)) else None)
                   with Some f => f | None => [] end)
                = Some (literal_digits (after_comma lit))).
  { destruct (0 <? commas lit)%nat eqn:E.
    - apply Nat.ltb_lt in E. apply digits_of_normalize.
      + apply forallb_after_comma, Ha.
      + pose proof (count_after_comma lit E). lia.
    - apply Nat.ltb_ge in E. rewrite after_comma_none by lia. reflexivity. }
  rewrite Hfp, <- Hld.
  pose proof (literal_digits_nonempty lit Hdig) as Hne.
  unfold literal_value, literal_scale.
  destruct (literal_digits lit); [congruence | reflexivity].
Qed.

Lemma float_of_bad_literal (lit : str) :
  forallb is_amount_char lit = true ->
  numeric_literal lit = false ->
  Py.float (normalize lit)
  = Raise (ValueError (Could_not_convert_string_to_float (normalize lit))).
Proof.
  unfold numeric_literal. intros Ha H. rewrite Ha in H. simpl in H.
  destruct (split_point_normalize lit Ha) as (ip & di & Hsp & Hdi & Hld).
  unfold Py.float. rewrite Hsp, Hdi.
  apply andb_false_iff in H. destruct H as [Hc | Hdig].
  - apply Nat.leb_gt in Hc.
    assert (E : (0 <? commas lit)%nat = true)
      by (apply Nat.ltb_lt; lia).
    rewrite E. rewrite digits_of_normalize_comma; [reflexivity | |].
    + apply forallb_after_comma, Ha.
    + apply Nat.ltb_lt in E. pose proof (count_after_comma lit E). lia.
  - pose proof (literal_digits_empty lit Hdig) as Hnil.
    rewrite Hnil in Hld. symmetry in Hld. apply app_eq_nil in Hld.
    destruct Hld as [-> Hdf]. clear Hdi.
    destruct (Py.digits_of _) as [df |] eqn:Edf; [| reflexivity].
    assert (df = []) as ->; [| reflexivity].
    destruct (0 <? commas lit)%nat eqn:E.
    + destruct (Nat.eq_dec (commas (after_comma lit)) 0) as [Z | NZ].
      * rewrite digits_of_normalize in Edf; auto using forallb_after_comma.
        congruence.
      * rewrite digits_of_normalize_comma in Edf;
          [discriminate | auto using forallb_after_comma | lia].
    + simpl in Edf. congruence.
Qed.

(** Everything [parse_amount] hands to [float] is made of decimal
    digits and full stops. *)
Lemma float_argument_alphabet (amt : str) :
  forallb is_amount_char amt = true ->
  forallb (fun c => Unicode.is_digit c || (c =? 46)) (normalize amt) = true.
Proof.
  induction amt as [| c r IH]; simpl; [reflexivity |].
  intros H. apply andb_true_iff in H. destruct H as [Hch Ha].
  destruct (amount_char_cases c Hch) as [[d Hd] | [-> | ->]].
  - rewrite (normalize_cons_digit c d r Hd). simpl.
    unfold Unicode.is_digit at 1. rewrite Hd. simpl. auto.
  - rewrite normalize_cons_comma. simpl. auto.
  - rewrite normalize_cons_space. auto.
Qed.

(** * Signs of binary64 results *)

Lemma shr_1_nonneg (mrs : shr_record) :
  (0 <= shr_m mrs)%Z -> (0 <= shr_m (shr_1 mrs))%Z.
Proof.
  destruct mrs as [m r s]. simpl.
  destruct m as [| [p | p |] | p]; simpl; lia.
Qed.

Lemma iter_shr_1_nonneg (p : positive) :
  forall mrs, (0 <= shr_m mrs)%Z -> (0 <= shr_m (iter_pos shr_1 p mrs))%Z.
Proof.
  induction p as [p IH | p IH |]; intros mrs H; simpl;
    auto using shr_1_nonneg.
Qed.

Lemma shr_m_of_loc (m : Z) (l : location) :
  shr_m (shr_record_of_loc m l) = m.
Proof. destruct l as [| []]; reflexivity. Qed.

Lemma shr_fexp_nonneg (m e : Z) (l : location) :
  (0 <= m)%Z ->
  (0 <= shr_m (fst (shr_fexp Float64.prec Float64.emax m e l)))%Z.
Proof.
  intros H. unfold shr_fexp, shr.
  destruct (_ - e)%Z as [| p | p]; simpl; rewrite ?shr_m_of_loc; auto.
  apply iter_shr_1_nonneg. rewrite shr_m_of_loc. exact H.
Qed.

Lemma round_nearest_even_nonneg (m : Z) (l : location) :
  (0 <= m)%Z -> (0 <= round_nearest_even m l)%Z.
Proof.
  intros H. destruct l as [| []]; simpl; try lia.
  destruct (Z.even m); lia.
Qed.

Lemma binary_round_aux_sign (sx : bool) (mx ex : Z) (lx : location) :
  (0 <= mx)%Z ->
  has_sign sx (binary_round_aux Float64.prec Float64.emax sx mx ex lx).
Proof.
  intros H. unfold binary_round_aux.
  pose proof (shr_fexp_nonneg mx ex lx H) as H1.
  destruct (shr_fexp Float64.prec Float64.emax mx ex lx) as [mrs' e'].
  simpl in H1.
  pose proof (shr_fexp_nonneg
                (round_nearest_even (shr_m mrs') (loc_of_shr_record mrs'))
                e' loc_Exact
                (round_nearest_even_nonneg _ _ H1)) as H2.
  destruct (shr_fexp _ _ (round_nearest_even _ _) e' loc_Exact) as [mrs'' e''].
  simpl in H2.
  destruct (shr_m mrs'') as [| p | p]; simpl; try reflexivity.
  - destruct (e'' <=? _)%Z; reflexivity.
  - lia.
Qed.

Lemma binary_round_sign (sx : bool) (mx : positive) (ex : Z) :
  has_sign sx (binary_round Float64.prec Float64.emax sx mx ex).
Proof.
  unfold binary_round. destruct (shl_align _ _ _) as [mz ez].
  apply binary_round_aux_sign. lia.
Qed.

Lemma of_ratio_sign (n : N) (d : positive) :
  has_sign false (Float64.of_ratio n d).
Proof.
  destruct n as [| p]; [reflexivity |].
  unfold Float64.of_ratio, SFdiv, SFdiv_core_binary.
  set (m' := match (0 - 0 - _)%Z with
             | Z0 => Zpos p
             | Zpos _ => Z.shiftl (Zpos p) _
             | Zneg _ => 0%Z
             end).
  assert (Hm : (0 <= m')%Z).
  { unfold m'. destruct (0 - 0 - _)%Z; try lia.
    apply Z.shiftl_nonneg. lia. }
  pose proof (Z_div_mod m' (Zpos d) eq_refl) as Hdm.
  destruct (Z.div_eucl m' (Zpos d)) as [q r].
  apply binary_round_aux_sign. nia.
Qed.

Lemma float_sign (s : str) (v : Float64.float) :
  Py.float s = Ok v -> has_sign false v.
Proof.
  unfold Py.float. destruct (Py.split_point s) as [ip fp].
  destruct (Py.digits_of ip); [| discriminate].
  destruct (Py.digits_of _); [| discriminate].
  destruct (_ ++ _); [discriminate |].
  intros H. injection H as <-. apply of_ratio_sign.
Qed.

Lemma neg_sign (s : bool) (v : Float64.float) :
  has_sign s v -> has_sign (negb s) (Float64.neg v).
Proof. destruct v; simpl; congruence. Qed.

Lemma neg_involutive (v : Float64.float) : Float64.neg (Float64.neg v) = v.
Proof. destruct v; simpl; rewrite ?negb_involutive; reflexivity. Qed.

Lemma zero_leb_plus (v : Float64.float) :
  has_sign false v -> Float64.leb Float64.zero v = true.
Proof. destruct v as [[] | [] | | [] m e]; simpl; intros H; try discriminate; try tauto; reflexivity. Qed.

Lemma minus_leb_zero (v : Float64.float) :
  has_sign true v -> Float64.leb v Float64.zero = true.
Proof. destruct v as [[] | [] | | [] m e]; simpl; intros H; try discriminate; try tauto; reflexivity. Qed.

Lemma eqb_refl_signed (s : bool) (v : Float64.float) :
  has_sign s v -> Float64.eqb v v = true.
Proof.
  unfold Float64.eqb, SFeqb.
  destruct v as [[] | [] | | [] m e]; simpl; try tauto; intros _;
    rewrite Z.compare_refl, Pos.compare_cont_refl; reflexivity.
Qed.

(** * Sums of amounts of one kind *)

Lemma ltb_zero_pos (v : Float64.float) :
  Float64.ltb Float64.zero v = true -> is_pos v.
Proof. destruct v as [[] | [] | | [] m e]; simpl; intros H; try discriminate; exact I. Qed.

Lemma ltb_zero_nonpos (s : bool) (v : Float64.float) :
  has_sign s v -> Float64.ltb Float64.zero v = false -> is_nonpos v.
Proof. destruct v as [[] | [] | | [] m e]; simpl; intros Hs H; try discriminate; try tauto. Qed.

Lemma add_plus (x y : Float64.float) :
  has_sign false x -> is_pos y -> has_sign false (Float64.add x y).
Proof.
  destruct x as [[] | [] | | [] mx ex]; simpl; try discriminate; try tauto;
    destruct y as [[] | [] | | [] my ey]; simpl; try tauto; intros _ _.
  unfold Float64.add, SFadd, binary_normalize. simpl.
  apply binary_round_sign.
Qed.

Lemma add_nonpos (x y : Float64.float) :
  is_nonpos x -> is_nonpos y -> is_nonpos (Float64.add x y).
Proof.
  destruct x as [[] | [] | | [] mx ex]; simpl; try tauto;
    destruct y as [[] | [] | | [] my ey]; simpl; try tauto; intros _ _.
  unfold Float64.add, SFadd, binary_normalize. simpl.
  pose proof (binary_round_sign true
    (fst (shl_align mx ex (Z.min ex ey)) + fst (shl_align my ey (Z.min ex ey)))
    (Z.min ex ey)) as H.
  destruct (binary_round _ _ _ _ _) as [[] | [] | | [] m e]; simpl in *;
    try discriminate; tauto.
Qed.

Lemma add_zero_r_plus (x : Float64.float) :
  has_sign false x -> Float64.add x Float64.zero = x.
Proof. destruct x as [[] | [] | | [] mx ex]; simpl; try discriminate; try tauto; reflexivity. Qed.

Lemma eqb_add_zero_l_nonpos (x : Float64.float) :
  is_nonpos x -> Float64.eqb x (Float64.add Float64.zero x) = true.
Proof.
  destruct x as [[] | [] | | [] mx ex]; simpl; try tauto; intros _;
    try reflexivity.
  unfold Float64.eqb, SFeqb. simpl.
  rewrite Z.compare_refl, Pos.compare_cont_refl. reflexivity.
Qed.

(** * Traces *)

Lemma yields_app {A} (a b : list (event A)) :
  yields (a ++ b) = yields a ++ yields b.
Proof.
  induction a as [| [r | x] a IH]; simpl; [reflexivity | exact IH |].
  rewrite IH. reflexivity.
Qed.

Lemma logged_app {A} (a b : list (event A)) :
  logged (a ++ b) = logged a ++ logged b.
Proof.
  induction a as [| [r | x] a IH]; simpl; [reflexivity | | exact IH].
  rewrite IH. reflexivity.
Qed.

Lemma yields_map_Yield {A} (l : list A) : yields (map Yield l) = l.
Proof. induction l as [| x l IH]; simpl; congruence. Qed.

(** * The builder *)

Lemma get_transactions_app (a b : table) :
  get_transactions (a ++ b) = get_transactions a ++ get_transactions b.
Proof.
  induction a as [| line a IH]; simpl; [reflexivity |].
  rewrite IH, app_assoc. reflexivity.
Qed.

Lemma built_app (a b : table) : built (a ++ b) = built a ++ built b.
Proof. unfold built. rewrite get_transactions_app. apply yields_app. Qed.

Lemma built_cons_ok (line : row) (t : Transaction) (rest : table) :
  transaction_of_line line = Ok t -> built (line :: rest) = t :: built rest.
Proof. intros H. unfold built. simpl. rewrite H. reflexivity. Qed.

Lemma built_cons_raise (line : row) (e : exc) (rest : table) :
  transaction_of_line line = Raise e -> built (line :: rest) = built rest.
Proof. intros H. unfold built. simpl. rewrite H. reflexivity. Qed.

(** * The assembler *)

Lemma cell_eqb_eq (x y : cell) : cell_eqb x y = true <-> x = y.
Proof.
  destruct x as [x |], y as [y |]; simpl.
  - rewrite str_eqb_eq. split; congruence.
  - split; discriminate.
  - split; discriminate.
  - tauto.
Qed.

Lemma row_eqb_eq (a b : row) : row_eqb a b = true <-> a = b.
Proof.
  revert b. induction a as [| x a IH]; intros [| y b]; simpl.
  - tauto.
  - split; discriminate.
  - split; discriminate.
  - rewrite andb_true_iff, IH, cell_eqb_eq. split.
    + intros [-> ->]. reflexivity.
    + intros H. injection H as -> ->. auto.
Qed.

Lemma row_in_In (x : row) (rows : list row) :
  row_in x rows = true <-> In x rows.
Proof.
  unfold row_in. rewrite existsb_exists. split.
  - intros (y & Hy & E). apply row_eqb_eq in E. subst. exact Hy.
  - intros H. exists x. split; [exact H | apply row_eqb_eq; reflexivity].
Qed.

Lemma tables_loop_found (tables : list table) :
  tables_loop tables true = (map Yield tables, true, None).
Proof.
  induction tables as [| t ts IH]; simpl; [reflexivity |].
  rewrite IH. reflexivity.
Qed.

Lemma tables_loop_preamble (pre rest : list table) :
  forallb preamble pre = true ->
  tables_loop (pre ++ rest) false = tables_loop rest false.
Proof.
  induction pre as [| t pre IH]; simpl; [reflexivity |].
  intros H. apply andb_true_iff in H. destruct H as [Ht Hpre].
  destruct t as [| first remainder]; [discriminate |].
  simpl in Ht. apply negb_true_iff in Ht. rewrite Ht. auto.
Qed.

Lemma tables_loop_header (h : row) (rows : table) (post : list table) :
  row_in h TRANSACTION_TABLE_HEADER_VARIANTS = true ->
  tables_loop ((h :: rows) :: post) false
  = (Yield rows :: map Yield post, true, None).
Proof.
  intros H. cbn [tables_loop]. rewrite H, tables_loop_found. reflexivity.
Qed.

Lemma tables_loop_empty_table (post : list table) :
  tables_loop ([] :: post) false = ([], false, Some IndexError).
Proof. reflexivity. Qed.

Lemma tables_loop_app (a b : list table) :
  forall h,
    tables_loop (a ++ b) h =
    let '(ev1, h1, stop1) := tables_loop a h in
    match stop1 with
    | Some e => (ev1, h1, Some e)
    | None =>
      let '(ev2, h2, stop2) := tables_loop b h1 in (ev1 ++ ev2, h2, stop2)
    end.
Proof.
  induction a as [| t a IH]; intros h.
  - simpl. destruct (tables_loop b h) as [[ev2 h2] stop2]. reflexivity.
  - cbn [tables_loop app]. destruct h.
    + rewrite IH. destruct (tables_loop a true) as [[ev1 h1] [e |]];
        [reflexivity |].
      destruct (tables_loop b h1) as [[ev2 h2] stop2]. reflexivity.
    + destruct t as [| first remainder]; [reflexivity |].
      destruct (row_in first TRANSACTION_TABLE_HEADER_VARIANTS).
      * rewrite IH. destruct (tables_loop a true) as [[ev1 h1] [e |]];
          [reflexivity |].
        destruct (tables_loop b h1) as [[ev2 h2] stop2]. reflexivity.
      * apply IH.
Qed.

(** The pages whose extraction succeeds behave as one sequence of
    tables; what follows them is reached only if no exception was
    raised before. *)
Lemma pages_loop_tables (pss : list (list table)) (rest : list page) :
  forall i h,
    let '(evs, h', stop) := tables_loop (List.concat pss) h in
    let r := pages_loop (map page_of pss ++ rest) i h in
    let r' := pages_loop rest (i + List.length pss) h' in
    yields (fst r) = match stop with
                     | Some _ => yields evs
                     | None => yields evs ++ yields (fst r')
                     end
    /\ snd r = match stop with
               | Some e => Some e
               | None => snd r'
               end.
Proof.
  induction pss as [| ts pss IH]; intros i h.
  - simpl. rewrite Nat.add_0_r. auto.
  - cbn [List.concat map app pages_loop page_of extract_tables].
    rewrite tables_loop_app.
    destruct (tables_loop ts h) as [[ev1 h1] [e |]].
    + simpl. auto.
    + specialize (IH (S i) h1).
      destruct (tables_loop (List.concat pss) h1) as [[ev2 h2] stop2].
      destruct (pages_loop (map page_of pss ++ rest) (S i) h1) as [evs' stop'].
      cbn [fst snd yields] in *.
      replace (i + List.length (ts :: pss))%nat
        with (S i + List.length pss)%nat by (simpl; lia).
      destruct IH as [IH1 IH2]. rewrite yields_app, IH1, IH2.
      destruct stop2; rewrite ?yields_app, ?app_assoc; auto.
Qed.

Lemma pages_loop_end (i : nat) (h : bool) :
  pages_loop [] i h
  = ([], if h then None
         else Some (ValueError Failed_to_find_the_transaction_table_header)).
Proof. reflexivity. Qed.

(** * The aggregator *)

Lemma for_each_app {A} (body : frame -> A -> frame) (a b : list (event A))
      (f : frame) :
  for_each body (a ++ b) f = for_each body b (for_each body a f).
Proof. unfold for_each. apply fold_left_app. Qed.

Lemma transactions_account_loop (evs : list (event Transaction)) :
  forall f,
    transactions (for_each account evs f) = transactions f ++ yields evs.
Proof.
  induction evs as [| [r | t] evs IH]; intros f; simpl.
  - symmetry. apply app_nil_r.
  - apply (IH (emit r f)).
  - change (transactions (for_each account evs (account f t))
            = transactions f ++ t :: yields evs).
    rewrite IH. simpl. rewrite <- app_assoc. reflexivity.
Qed.

Lemma totals_account_loop (evs : list (event Transaction)) :
  forall f,
    let f' := for_each account evs f in
    total_change f'
    = fold_left Float64.add (amounts (yields evs)) (total_change f)
    /\ total_inflow f'
       = fold_left Float64.add (amounts (filter is_inflow (yields evs)))
                   (total_inflow f)
    /\ total_outflow f'
       = fold_left Float64.add
                   (amounts (filter (fun t => negb (is_inflow t)) (yields evs)))
                   (total_outflow f).
Proof.
  induction evs as [| [r | t] evs IH]; intros f.
  - simpl. auto.
  - apply (IH (emit r f)).
  - destruct (IH (account f t)) as (H1 & H2 & H3).
    change (for_each account (Yield t :: evs) f)
      with (for_each account evs (account f t)).
    cbv zeta. rewrite H1, H2, H3. cbn [yields filter].
    unfold account. cbn [total_change total_inflow total_outflow].
    change (Float64.ltb Float64.zero (amount t)) with (is_inflow t).
    unfold amounts.
    destruct (is_inflow t); cbn [negb map fold_left]; auto.
Qed.

Lemma transactions_table_loop (evs : list (event table)) :
  forall f,
    transactions (for_each consume_table evs f)
    = transactions f ++ collected evs.
Proof.
  induction evs as [| [r | t] evs IH]; intros f.
  - simpl. symmetry. apply app_nil_r.
  - apply (IH (emit r f)).
  - change (for_each consume_table (Yield t :: evs) f)
      with (for_each consume_table evs (consume_table f t)).
    rewrite IH. unfold consume_table. rewrite transactions_account_loop.
    unfold collected. simpl. rewrite <- app_assoc. reflexivity.
Qed.

Lemma fold_left_add_app (xs ys : list Float64.float) (acc : Float64.float) :
  fold_left Float64.add (xs ++ ys) acc
  = fold_left Float64.add ys (fold_left Float64.add xs acc).
Proof. apply fold_left_app. Qed.

Lemma totals_table_loop (evs : list (event table)) :
  forall f,
    let f' := for_each consume_table evs f in
    total_change f'
    = fold_left Float64.add (amounts (collected evs)) (total_change f)
    /\ total_inflow f'
       = fold_left Float64.add (amounts (filter is_inflow (collected evs)))
                   (total_inflow f)
    /\ total_outflow f'
       = fold_left Float64.add
                   (amounts (filter (fun t => negb (is_inflow t))
                                    (collected evs)))
                   (total_outflow f).
Proof.
  induction evs as [| [r | t] evs IH]; intros f.
  - simpl. auto.
  - apply (IH (emit r f)).
  - destruct (IH (consume_table f t)) as (H1 & H2 & H3).
    change (for_each consume_table (Yield t :: evs) f)
      with (for_each consume_table evs (consume_table f t)).
    cbv zeta. rewrite H1, H2, H3.
    destruct (totals_account_loop (get_transactions t) f) as (G1 & G2 & G3).
    unfold consume_table. rewrite G1, G2, G3.
    unfold collected. cbn [yields flat_map]. fold (built t).
    unfold amounts. rewrite !filter_app, !map_app, !fold_left_app. auto.
Qed.

Lemma parse_statement_run_ok (pages : list page) :
  parse_statement_run (Ok pages) =
  let '(evs, stop) := get_transaction_tables pages in
  let f := for_each consume_table evs
             (emit (INFO_parsing_statement (List.length pages)) initial_frame) in
  match stop with
  | Some e => (emit (ERROR_parsing_error e) f, Ok (transactions f))
  | None =>
    (emit (INFO_total_outflow (total_outflow f))
       (emit (INFO_total_inflow (total_inflow f))
          (emit (INFO_total_change (total_change f))
             (emit (INFO_total_transactions (List.length (transactions f))) f))),
     Ok (transactions f))
  end.
Proof.
  unfold parse_statement_run, parse_statement_try.
  destruct (get_transaction_tables pages) as [evs [e |]]; reflexivity.
Qed.

Lemma parse_statement_ok (pages : list page) :
  parse_statement (Ok pages)
  = Ok (collected (fst (get_transaction_tables pages))).
Proof.
  unfold parse_statement. rewrite parse_statement_run_ok.
  destruct (get_transaction_tables pages) as [evs stop].
  destruct stop; cbn [fst snd]; rewrite transactions_table_loop; reflexivity.
Qed.

Lemma log_emit_last (r : log_record) (f : frame) : In r (log (emit r f)).
Proof. simpl. apply in_or_app. right. left. reflexivity. Qed.

Lemma parse_statement_reports (pages : list page) (e : exc) :
  snd (get_transaction_tables pages) = Some e ->
  In (ERROR_parsing_error e) (log (fst (parse_statement_run (Ok pages)))).
Proof.
  intros H. rewrite parse_statement_run_ok.
  destruct (get_transaction_tables pages) as [evs stop]. simpl in H. subst stop.
  apply log_emit_last.
Qed.

Lemma get_transaction_tables_pages (pss : list (list table)) (rest : list page) :
  let '(evs, h', stop) := tables_loop (List.concat pss) false in
  let r := get_transaction_tables (map page_of pss ++ rest) in
  let r' := pages_loop rest (List.length pss) h' in
  yields (fst r) = match stop with
                   | Some _ => yields evs
                   | None => yields evs ++ yields (fst r')
                   end
  /\ snd r = match stop with
             | Some e => Some e
             | None => snd r'
             end.
Proof. apply (pages_loop_tables pss rest 0 false). Qed.

Lemma tables_loop_all_preamble (ts : list table) :
  forallb preamble ts = true -> tables_loop ts false = ([], false, None).
Proof.
  intros H. rewrite <- (app_nil_r ts). rewrite tables_loop_preamble; auto.
Qed.

Lemma forallb_concat {A} (P : A -> bool) (ls : list (list A)) :
  Forall (fun l => forallb P l = true) ls -> forallb P (List.concat ls) = true.
Proof.
  induction 1 as [| l ls Hl _ IH]; simpl; [reflexivity |].
  rewrite forallb_app, Hl, IH. reflexivity.
Qed.

(** C1. [parse_statement] never raises: whatever happens while the
    document is opened or walked, it returns the transactions appended
    before the failure. An error on opening gives the empty list; an
    error raised by the assembler (a page whose extraction fails, or
    no header found) leaves what the tables yielded before it
    produced, so a page that fails gives the same result as a
    document that ends before it. A document in which every table has a first row that is
    not a header signature gives the empty list, and the missing
    header is logged. *)
Theorem parse_statement_contains_failures :
  (forall pdf : document, exists ts, parse_statement pdf = Ok ts)
  /\ (forall e, parse_statement (Raise e) = Ok [])
  /\ (forall pages,
         parse_statement (Ok pages)
         = Ok (flat_map built (yields (fst (get_transaction_tables pages)))))
  /\ (forall (pss : list (list table)) e rest,
         parse_statement
           (Ok (map page_of pss ++ {| extract_tables := Raise e |} :: rest))
         = parse_statement (Ok (map page_of pss)))
  /\ (forall pss : list (list table),
         Forall (fun ts => forallb preamble ts = true) pss ->
         parse_statement (Ok (map page_of pss)) = Ok []
         /\ In (ERROR_parsing_error
                  (ValueError Failed_to_find_the_transaction_table_header))
               (log (fst (parse_statement_run (Ok (map page_of pss)))))).
Proof.
  split; [| split; [| split; [| split]]].
  - intros [pages | e].
    + rewrite parse_statement_ok. eauto.
    + exists []. reflexivity.
  - reflexivity.
  - intros pages. apply parse_statement_ok.
  - intros pss e rest. rewrite !parse_statement_ok. unfold collected.
    pose proof (get_transaction_tables_pages
                  pss ({| extract_tables := Raise e |} :: rest)) as H1.
    pose proof (get_transaction_tables_pages pss []) as H2.
    rewrite app_nil_r in H2.
    destruct (tables_loop (List.concat pss) false) as [[evs h'] stop].
    destruct H1 as [H1 _]. destruct H2 as [H2 _]. rewrite H1, H2.
    destruct stop; reflexivity.
  - intros pss Hpre.
    pose proof (get_transaction_tables_pages pss []) as H.
    rewrite app_nil_r in H.
    rewrite (tables_loop_all_preamble _ (forallb_concat _ _ Hpre)) in H.
    destruct H as [Hy Hs]. simpl in Hy, Hs. split.
    + rewrite parse_statement_ok. unfold collected. rewrite Hy. reflexivity.
    + apply parse_statement_reports. exact Hs.
Qed.

Lemma parse_statement_contains_failures_witness :
  parse_statement (Ok (map page_of no_header_page)) = Ok []
  /\ In (ERROR_parsing_error
           (ValueError Failed_to_find_the_transaction_table_header))
        (log (fst (parse_statement_run (Ok (map page_of no_header_page))))).
Proof.
  apply (proj2 (proj2 (proj2 (proj2 parse_statement_contains_failures)))).
  repeat constructor.
Defined.

(** C3, as the code has it. Once the pages are extracted, the
    assembler sees one sequence of tables. If the tables before the
    first header table all have a first row that is not a header
    signature, the assembler yields the header table without its
    first row and then every later table in full, in document order,
    and ends normally. For pages [[T0; T1]] and [[T2]], with [T0] a
    table with rows that is not a header table and [T1] a header
    table, the rows yielded are [rows(T1)[1:]] followed by
    [rows(T2)]. A table without rows before the header is not
    skipped: the assembler stops there with [IndexError] and has
    yielded nothing. *)
Theorem assembler_yields_after_header :
  (forall (pss : list (list table)) (pre : list table) (h : row)
          (rows : table) (post : list table),
      List.concat pss = pre ++ (h :: rows) :: post ->
      forallb preamble pre = true ->
      row_in h TRANSACTION_TABLE_HEADER_VARIANTS = true ->
      yields (fst (get_transaction_tables (map page_of pss))) = rows :: post
      /\ snd (get_transaction_tables (map page_of pss)) = None)
  /\ (forall (T0 T1 T2 : table) (h : row),
         preamble T0 = true ->
         hd_error T1 = Some h ->
         row_in h TRANSACTION_TABLE_HEADER_VARIANTS = true ->
         List.concat
           (yields (fst (get_transaction_tables
                           [page_of [T0; T1]; page_of [T2]])))
         = tl T1 ++ T2)
  /\ (forall (pss : list (list table)) (pre post : list table),
         List.concat pss = pre ++ [] :: post ->
         forallb preamble pre = true ->
         yields (fst (get_transaction_tables (map page_of pss))) = []
         /\ snd (get_transaction_tables (map page_of pss))
            = Some IndexError).
Proof.
  assert (General : forall (pss : list (list table)) (pre : list table) (h : row)
          (rows : table) (post : list table),
      List.concat pss = pre ++ (h :: rows) :: post ->
      forallb preamble pre = true ->
      row_in h TRANSACTION_TABLE_HEADER_VARIANTS = true ->
      yields (fst (get_transaction_tables (map page_of pss))) = rows :: post
      /\ snd (get_transaction_tables (map page_of pss)) = None).
  { intros pss pre h rows post E Hpre Hh.
    pose proof (get_transaction_tables_pages pss []) as H.
    rewrite app_nil_r, E, (tables_loop_preamble _ _ Hpre),
      (tables_loop_header _ _ _ Hh) in H.
    destruct H as [Hy Hs]. rewrite Hy, Hs. simpl.
    rewrite yields_map_Yield, app_nil_r. auto. }
  split; [exact General | split].
  - intros T0 T1 T2 h H0 H1 Hh.
    destruct T1 as [| h' rows]; [discriminate |]. injection H1 as ->.
    destruct (General [[T0; h :: rows]; [T2]] [T0] h rows [T2]) as [Hy _];
      auto.
    + simpl. rewrite H0. reflexivity.
    + change [page_of [T0; h :: rows]; page_of [T2]]
        with (map page_of [[T0; h :: rows]; [T2]]).
      rewrite Hy. simpl. rewrite app_nil_r. reflexivity.
  - intros pss pre post E Hpre.
    pose proof (get_transaction_tables_pages pss []) as H.
    rewrite app_nil_r, E, (tables_loop_preamble _ _ Hpre),
      tables_loop_empty_table in H.
    exact H.
Qed.

Lemma assembler_yields_after_header_witness :
  (yields (fst (get_transaction_tables
                  (map page_of [[summary_table; header_table];
                                [continuation_table]])))
   = tl header_table :: [continuation_table]
   /\ snd (get_transaction_tables
             (map page_of [[summary_table; header_table];
                           [continuation_table]])) = None)
  /\ List.concat
       (yields (fst (get_transaction_tables
                       [page_of [summary_table; header_table];
                        page_of [continuation_table]])))
     = tl header_table ++ continuation_table.
Proof.
  split.
  - apply (proj1 assembler_yields_after_header
                 [[summary_table; header_table]; [continuation_table]]
                 [summary_table]
                 (header "Date" "Amount" "Transaction" "Details"));
      reflexivity.
  - apply (proj1 (proj2 assembler_yields_after_header)
                 summary_table header_table continuation_table
                 (header "Date" "Amount" "Transaction" "Details"));
      reflexivity.
Defined.

(** C3 as stated fails: a table without rows before the header has no
    first row that could match a signature, yet it is not skipped.
    With such a table in the place of [T0] the rows yielded are not
    [rows(T1)[1:]] followed by [rows(T2)]: nothing is yielded. *)
Lemma empty_table_is_not_skipped :
  ~ (forall (T0 T1 T2 : table) (h : row),
        (forall first : row,
            hd_error T0 = Some first ->
            row_in first TRANSACTION_TABLE_HEADER_VARIANTS = false) ->
        hd_error T1 = Some h ->
        row_in h TRANSACTION_TABLE_HEADER_VARIANTS = true ->
        List.concat
          (yields (fst (get_transaction_tables
                          [page_of [T0; T1]; page_of [T2]])))
        = tl T1 ++ T2).
Proof.
  intros H.
  assert (E : List.concat
                (yields (fst (get_transaction_tables
                                [page_of [[]; header_table];
                                 page_of [continuation_table]])))
              = tl header_table ++ continuation_table).
  { apply (H [] header_table continuation_table
             (header "Date" "Amount" "Transaction" "Details"));
      [intros first Hfirst; discriminate Hfirst | reflexivity | reflexivity]. }
  vm_compute in E. discriminate E.
Qed.

(** C10. A table without rows met before the header makes [table[0]]
    raise [IndexError]: if the tables before it all have a first row
    that is not a header signature, the assembler yields nothing and
    stops with [IndexError], whatever follows in the document;
    [parse_statement] logs the error and returns the empty list, so
    the transactions of the later tables are lost. *)
Theorem empty_table_before_header_aborts :
  forall (pss : list (list table)) (pre post : list table)
         (rest : list page),
    List.concat pss = pre ++ [] :: post ->
    forallb preamble pre = true ->
    let pages := map page_of pss ++ rest in
    yields (fst (get_transaction_tables pages)) = []
    /\ snd (get_transaction_tables pages) = Some IndexError
    /\ parse_statement (Ok pages) = Ok []
    /\ In (ERROR_parsing_error IndexError)
          (log (fst (parse_statement_run (Ok pages)))).
Proof.
  intros pss pre post rest E Hpre pages.
  pose proof (get_transaction_tables_pages pss rest) as H.
  rewrite E, (tables_loop_preamble _ _ Hpre), tables_loop_empty_table in H.
  destruct H as [Hy Hs]. fold pages in Hy, Hs. simpl in Hy.
  repeat split; auto.
  - rewrite parse_statement_ok. unfold collected. rewrite Hy. reflexivity.
  - apply parse_statement_reports. exact Hs.
Qed.

Lemma empty_table_before_header_aborts_witness :
  let pages := map page_of [[summary_table; []]; [header_table]]
                   ++ [page_of [continuation_table]] in
  yields (fst (get_transaction_tables pages)) = []
  /\ snd (get_transaction_tables pages) = Some IndexError
  /\ parse_statement (Ok pages) = Ok []
  /\ In (ERROR_parsing_error IndexError)
        (log (fst (parse_statement_run (Ok pages)))).
Proof.
  apply (empty_table_before_header_aborts
           [[summary_table; []]; [header_table]]
           [summary_table] [header_table] [page_of [continuation_table]]);
    reflexivity.
Defined.

Lemma variants_cases (r : row) :
  In r TRANSACTION_TABLE_HEADER_VARIANTS ->
  r = header "Date" "Amount" "Transaction" "Details"
  \/ r = header "Дата" "Сумма" "Операция" "Детали"
  \/ r = header "Күні" "Сомасы" "Операция" "Толығырақ".
Proof.
  unfold TRANSACTION_TABLE_HEADER_VARIANTS. cbn [In].
  intros [H | [H | [H | []]]]; auto.
Qed.

Lemma tables_loop_recognizes (t : table) (evs : list (event table)) :
  tables_loop [t] false = (evs, true, None) ->
  exists sig rest,
    t = sig :: rest /\ In sig TRANSACTION_TABLE_HEADER_VARIANTS.
Proof.
  destruct t as [| first rest]; [discriminate |].
  cbn [tables_loop].
  destruct (row_in first TRANSACTION_TABLE_HEADER_VARIANTS) eqn:E;
    [| discriminate].
  intros _. exists first, rest. split; [reflexivity |].
  apply row_in_In. exact E.
Qed.

(** C4. A table is taken as the header table exactly when its first
    row is equal to one of the three signatures: same length, same
    cells in the same order, each cell the same string. A first row
    with a column missing, or a signature with any one cell changed,
    is not recognised. *)
Theorem header_is_matched_exactly :
  (forall first : row,
      row_in first TRANSACTION_TABLE_HEADER_VARIANTS = true
      <-> (first = header "Date" "Amount" "Transaction" "Details"
           \/ first = header "Дата" "Сумма" "Операция" "Детали"
           \/ first = header "Күні" "Сомасы" "Операция" "Толығырақ"))
  /\ List.length TRANSACTION_TABLE_HEADER_VARIANTS = 3%nat
  /\ Forall (fun sig => List.length sig = 4%nat)
            TRANSACTION_TABLE_HEADER_VARIANTS
  /\ (forall t : table,
         (exists evs, tables_loop [t] false = (evs, true, None))
         <-> (exists sig rest,
                 t = sig :: rest
                 /\ In sig TRANSACTION_TABLE_HEADER_VARIANTS))
  /\ row_in [Some (u "Date"); Some (u "Amount"); Some (u "Transaction")]
            TRANSACTION_TABLE_HEADER_VARIANTS = false
  /\ (forall (sig : row) (i : nat) (c : cell),
         In sig TRANSACTION_TABLE_HEADER_VARIANTS ->
         (i < 4)%nat ->
         nth_error sig i <> Some c ->
         row_in (set_cell i c sig) TRANSACTION_TABLE_HEADER_VARIANTS = false).
Proof.
  split; [| split; [| split; [| split; [| split]]]].
  - intros first. rewrite row_in_In.
    unfold TRANSACTION_TABLE_HEADER_VARIANTS. cbn [In].
    split; [intros [H | [H | [H | []]]] | intros [H | [H | H]]]; auto.
  - reflexivity.
  - repeat constructor.
  - intros t. split.
    + intros [evs H]. eapply tables_loop_recognizes; eauto.
    + intros (sig & rest & -> & Hin). apply row_in_In in Hin.
      rewrite tables_loop_header by exact Hin. eauto.
  - reflexivity.
  - intros sig i c Hin Hi Hc.
    destruct (row_in (set_cell i c sig) TRANSACTION_TABLE_HEADER_VARIANTS)
      eqn:E; [| reflexivity].
    exfalso. apply row_in_In in E.
    apply variants_cases in Hin. apply variants_cases in E.
    destruct i as [| [| [| [| i]]]]; [| | | | lia];
      destruct Hin as [-> | [-> | ->]];
      vm_compute in Hc; vm_compute in E;
      destruct E as [E | [E | E]];
      try discriminate E;
      injection E as E; apply Hc; congruence.
Qed.

Lemma header_is_matched_exactly_witness :
  row_in (set_cell 0 (Some (u "date"))
                   (header "Date" "Amount" "Transaction" "Details"))
         TRANSACTION_TABLE_HEADER_VARIANTS = false.
Proof.
  apply (proj2 (proj2 (proj2 (proj2 (proj2 header_is_matched_exactly))))).
  - simpl. tauto.
  - lia.
  - discriminate.
Defined.

(** C2. The builder does not stop at a row that fails. Unpacking a
    row that does not have four cells, a date that does not parse and
    an amount that does not parse each raise inside the [try] block;
    the row is then logged and skipped, and the rows before and after
    it give their transactions in the original order. For three rows
    of which the second has an amount that does not parse, exactly the
    transactions of the first and the third are yielded, in that
    order. *)
Theorem builder_skips_failing_rows :
  (forall (pre post : table) (bad : row) (e : exc),
      transaction_of_line bad = Raise e ->
      yields (get_transactions (pre ++ bad :: post))
      = yields (get_transactions pre) ++ yields (get_transactions post)
      /\ In (ERROR_failed_to_parse_transaction bad e)
            (logged (get_transactions (pre ++ bad :: post))))
  /\ (forall line : row,
         List.length line <> 4%nat ->
         exists e, transaction_of_line line = Raise e)
  /\ (forall (d a o x : cell) (e : exc),
         match d with
         | Some s => Datetime.strptime s = Raise e
         | None => e = TypeError
         end ->
         transaction_of_line [d; a; o; x] = Raise e)
  /\ (forall (d s : str) (o x : cell) (dt : Datetime.datetime) (e : exc),
         Datetime.strptime d = Ok dt ->
         parse_amount s = Raise e ->
         transaction_of_line [Some d; Some s; o; x] = Raise e)
  /\ (forall (r1 r2 r3 : row) (t1 t3 : Transaction)
             (d s : str) (o x : cell) (dt : Datetime.datetime) (e : exc),
         transaction_of_line r1 = Ok t1 ->
         r2 = [Some d; Some s; o; x] ->
         Datetime.strptime d = Ok dt ->
         parse_amount s = Raise e ->
         transaction_of_line r3 = Ok t3 ->
         yields (get_transactions [r1; r2; r3]) = [t1; t3]).
Proof.
  assert (Amount : forall (d s : str) (o x : cell) dt e,
             Datetime.strptime d = Ok dt ->
             parse_amount s = Raise e ->
             transaction_of_line [Some d; Some s; o; x] = Raise e).
  { intros d s o x dt e Hd Ha. unfold transaction_of_line. simpl.
    rewrite Hd. simpl. rewrite Ha. reflexivity. }
  split; [| split; [| split; [| split]]].
  - intros pre post bad e H.
    rewrite get_transactions_app, yields_app, logged_app.
    cbn [get_transactions]. rewrite H. split.
    + reflexivity.
    + apply in_or_app. right. left. reflexivity.
  - intros line H. unfold transaction_of_line, unpack4.
    destruct line as [| a [| b [| c [| d [| x r]]]]]; simpl in *;
      try (eexists; reflexivity). lia.
  - intros d a o x e H. unfold transaction_of_line. simpl.
    destruct d as [s |]; [rewrite H | subst e]; reflexivity.
  - exact Amount.
  - intros r1 r2 r3 t1 t3 d s o x dt e H1 -> Hd Ha H3.
    simpl. rewrite H1, (Amount d s o x dt e Hd Ha), H3. reflexivity.
Qed.

Lemma builder_skips_failing_rows_witness :
  (yields (get_transactions ([alice_row] ++ garbage_row :: [shop_row]))
   = yields (get_transactions [alice_row])
            ++ yields (get_transactions [shop_row])
   /\ In (ERROR_failed_to_parse_transaction
            garbage_row (ValueError (Failed_to_parse_amount (u "garbage"))))
         (logged (get_transactions ([alice_row] ++ garbage_row :: [shop_row]))))
  /\ (exists e, transaction_of_line [Some (u "01.03.24")] = Raise e)
  /\ transaction_of_line [Some (u "2024-03-01"); Some (u "+ 1 ₸"); None; None]
     = Raise (ValueError (Time_data_does_not_match_format (u "2024-03-01")))
  /\ transaction_of_line garbage_row
     = Raise (ValueError (Failed_to_parse_amount (u "garbage")))
  /\ yields (get_transactions [alice_row; garbage_row; shop_row])
     = [alice; shop 3].
Proof.
  split; [| split; [| split; [| split]]].
  - apply (proj1 builder_skips_failing_rows). vm_compute. reflexivity.
  - apply (proj1 (proj2 builder_skips_failing_rows)). simpl. lia.
  - apply (proj1 (proj2 (proj2 builder_skips_failing_rows))).
    vm_compute. reflexivity.
  - apply (proj1 (proj2 (proj2 (proj2 builder_skips_failing_rows)))
                 (u "02.03.24") (u "garbage") _ _
                 {| Datetime.year := 2024; Datetime.month := 3;
                    Datetime.day := 2 |});
      vm_compute; reflexivity.
  - apply (proj2 (proj2 (proj2 (proj2 builder_skips_failing_rows)))
                 alice_row garbage_row shop_row alice (shop 3)
                 (u "02.03.24") (u "garbage")
                 (Some (u "Purchase")) (Some (u "Shop"))
                 {| Datetime.year := 2024; Datetime.month := 3;
                    Datetime.day := 2 |}
                 (ValueError (Failed_to_parse_amount (u "garbage"))));
      vm_compute; reflexivity.
Defined.

(** * The amount parser: signs *)

Lemma first_line_head (s : str) (c : codepoint) (r : str) :
  Py.first_line s = c :: r -> hd_error s = Some c.
Proof.
  destruct s as [| x s]; simpl; [discriminate |].
  destruct (x =? 10); [discriminate | congruence].
Qed.

Lemma parse_amount_inv (s : str) (v : Float64.float) :
  parse_amount s = Ok v ->
  exists sg ws amt a,
    amount_shape (Py.first_line s) sg ws amt EXPECTED_CURRENCY
    /\ Py.float (normalize amt) = Ok a
    /\ v = signed sg a.
Proof.
  intros H.
  destruct (Re.match_ AMOUNT_PATTERN (Py.first_line s)) as [m |] eqn:Hm.
  - destruct (amount_match_inv _ _ Hm (first_line_no_newline s))
      as (sg & ws & amt & cur & Hshape & _).
    rewrite (parse_amount_of_shape s sg ws amt cur Hshape) in H.
    destruct (str_eqb cur EXPECTED_CURRENCY) eqn:Ecur; [| discriminate].
    apply str_eqb_eq in Ecur. subst cur. simpl in H.
    destruct (Py.float (normalize amt)) as [a | e] eqn:Ef; [| discriminate].
    simpl in H. injection H as <-.
    exists sg, ws, amt, a. auto.
  - unfold parse_amount in H. rewrite Hm in H. discriminate.
Qed.

(** What [parse_amount] hands to [float] is always made of decimal
    digits and full stops, the alphabet on which [Py.float] is
    modelled. *)
Lemma float_is_called_on_digits_and_points (s : str) (m : Re.marks) :
  let line := Py.first_line s in
  Re.match_ AMOUNT_PATTERN line = Some m ->
  forallb (fun c => Unicode.is_digit c || (c =? 46))
          (Py.remove_char 32
             (Py.replace_char 44 46 (Re.group line m g_amount))) = true.
Proof.
  intros line Hm.
  destruct (amount_match_inv _ _ Hm (first_line_no_newline s))
    as (sg & ws & amt & cur & Hshape & ->).
  destruct Hshape as (E & _ & _ & Ha & _). fold line in E. rewrite E.
  destruct (groups_of_amount_marks sg ws amt cur) as (_ & G2 & _).
  rewrite G2. apply (float_argument_alphabet amt Ha).
Qed.

Lemma sign_cases (sg : codepoint) : is_sign sg = true -> sg = 43 \/ sg = 45.
Proof.
  unfold is_sign. rewrite orb_true_iff, !N.eqb_eq. tauto.
Qed.

Lemma parse_amount_sign (s : str) (v : Float64.float) :
  parse_amount s = Ok v ->
  (hd_error s = Some 43 /\ has_sign false v)
  \/ (hd_error s = Some 45 /\ has_sign true v).
Proof.
  intros H.
  destruct (parse_amount_inv s v H) as (sg & ws & amt & a & Hshape & Hf & ->).
  pose proof (float_sign _ _ Hf) as Ha.
  destruct Hshape as (E & Hsg & _). apply first_line_head in E.
  destruct (sign_cases sg Hsg) as [-> | ->]; [left | right]; split; auto.
  apply (neg_sign false a Ha).
Qed.

(** C5. Changing the sign character of an amount string negates the
    result: for every text [X], the strings ["+X ₸"] and ["-X ₸"] are
    either both rejected, or parse to [a] and [b] with [a = -b],
    [a >= 0] and [b <= 0]. More generally a result parsed from a
    string that starts with [+] is never below zero, and one parsed
    from a string that starts with [-] is never above zero. *)
Theorem amount_sign_is_respected :
  (forall X : str,
      match parse_amount (43 :: X ++ u " ₸"),
            parse_amount (45 :: X ++ u " ₸") with
      | Ok a, Ok b =>
        a = Float64.neg b
        /\ Float64.leb Float64.zero a = true
        /\ Float64.leb b Float64.zero = true
      | Raise _, Raise _ => True
      | _, _ => False
      end)
  /\ (forall (s : str) (v : Float64.float),
         parse_amount s = Ok v -> hd_error s = Some 43 ->
         Float64.leb Float64.zero v = true)
  /\ (forall (s : str) (v : Float64.float),
         parse_amount s = Ok v -> hd_error s = Some 45 ->
         Float64.leb v Float64.zero = true).
Proof.
  split; [| split].
  - intros X. set (rest := X ++ u " ₸").
    assert (Hm : Re.match_ AMOUNT_PATTERN (Py.first_line (43 :: rest))
                 = Re.match_ AMOUNT_PATTERN (Py.first_line (45 :: rest))).
    { rewrite !first_line_cons by discriminate.
      rewrite !amount_match_cons. reflexivity. }
    destruct (Re.match_ AMOUNT_PATTERN (Py.first_line (43 :: rest)))
      as [m |] eqn:Hp.
    + destruct (amount_match_inv _ _ Hp (first_line_no_newline _))
        as (sg & ws & amt & cur & Hshape & _).
      assert (Hminus : amount_shape (Py.first_line (45 :: rest))
                                    45 ws amt cur).
      { destruct Hshape as (E & Hsg & Hrest).
        rewrite first_line_cons in E |- * by discriminate.
        injection E as <- E. rewrite E. split; [reflexivity |].
        split; [reflexivity | exact Hrest]. }
      assert (sg = 43) as ->.
      { destruct Hshape as (E & _).
        rewrite first_line_cons in E by discriminate. congruence. }
      rewrite (parse_amount_of_shape _ _ _ _ _ Hshape),
        (parse_amount_of_shape _ _ _ _ _ Hminus).
      destruct (negb (str_eqb cur EXPECTED_CURRENCY)); [exact I |].
      destruct (Py.float (normalize amt)) as [a | e] eqn:Hf; simpl; [| exact I].
      pose proof (float_sign _ _ Hf) as Ha.
      rewrite neg_involutive. repeat split.
      * apply zero_leb_plus, Ha.
      * apply minus_leb_zero, (neg_sign false a Ha).
    + unfold parse_amount. rewrite <- Hm, Hp. exact I.
  - intros s v H E.
    destruct (parse_amount_sign s v H) as [[Hh Hs] | [Hh Hs]];
      rewrite Hh in E; [| discriminate E].
    apply zero_leb_plus, Hs.
  - intros s v H E.
    destruct (parse_amount_sign s v H) as [[Hh Hs] | [Hh Hs]];
      rewrite Hh in E; [discriminate E |].
    apply minus_leb_zero, Hs.
Qed.

Lemma amount_sign_is_respected_witness :
  Float64.leb Float64.zero (S754_finite false 5891271262554030 (-48)) = true
  /\ Float64.leb (S754_finite true 5891271262554030 (-48)) Float64.zero
     = true.
Proof.
  split.
  - apply (proj1 (proj2 amount_sign_is_respected) (u "+ 20,93 ₸"));
      vm_compute; reflexivity.
  - apply (proj2 (proj2 amount_sign_is_respected) (u "- 20,93 ₸"));
      vm_compute; reflexivity.
Defined.

(** * The amount parser: outcomes *)

(** Closes [amount_shape] goals on concrete lines. *)
Ltac concrete_shape :=
  unfold amount_shape; repeat split; solve [reflexivity | discriminate].

Lemma expected_currency_not_space :
  forallb not_space EXPECTED_CURRENCY = true /\ EXPECTED_CURRENCY <> [].
Proof. split; [reflexivity | discriminate]. Qed.

Lemma numeric_literal_nonempty (lit : str) :
  numeric_literal lit = true -> lit <> [].
Proof. intros H ->. discriminate. Qed.

Lemma numeric_literal_chars (lit : str) :
  numeric_literal lit = true -> forallb is_amount_char lit = true.
Proof.
  unfold numeric_literal. intros H.
  apply andb_true_iff in H. destruct H as [H _].
  apply andb_true_iff in H. tauto.
Qed.

(** C8, as the code has it. The pattern is anchored at the sign: a
    string whose first line is a sign, optional white space, a numeric
    literal, one space and the expected currency symbol is accepted,
    and the result is the value of the literal with that sign. White
    space before the sign is not accepted. *)
Theorem amount_without_leading_space_is_parsed :
  forall (s : str) (sg : codepoint) (ws lit : str),
    Py.first_line s = sg :: ws ++ lit ++ 32 :: EXPECTED_CURRENCY ->
    is_sign sg = true ->
    forallb Unicode.is_space ws = true ->
    numeric_literal lit = true ->
    parse_amount s = Ok (signed sg (literal_value lit)).
Proof.
  intros s sg ws lit E Hsg Hws Hlit.
  destruct expected_currency_not_space as [Hc Hne].
  rewrite (parse_amount_of_shape s sg ws lit EXPECTED_CURRENCY).
  - rewrite str_eqb_refl. simpl.
    rewrite (float_of_numeric_literal lit Hlit). reflexivity.
  - repeat split; auto using numeric_literal_chars, numeric_literal_nonempty.
Qed.

Lemma amount_without_leading_space_is_parsed_witness :
  parse_amount (u "+ 20,93 ₸")
  = Ok (signed 43 (literal_value (u "20,93"))).
Proof.
  apply (amount_without_leading_space_is_parsed
           (u "+ 20,93 ₸") 43 (u " ") (u "20,93")); reflexivity.
Defined.

(** C8 as stated fails: with one space before the sign the string is
    rejected, although the rest of the line has the required form. *)
Lemma leading_space_is_rejected :
  ~ (forall (s : str) (lead : str) (sg : codepoint) (ws lit : str),
        Py.first_line s
        = lead ++ sg :: ws ++ lit ++ 32 :: EXPECTED_CURRENCY ->
        forallb Unicode.is_space lead = true ->
        is_sign sg = true ->
        forallb Unicode.is_space ws = true ->
        numeric_literal lit = true ->
        exists v, parse_amount s = Ok v).
Proof.
  intros H.
  destruct (H (u " + 20,93 ₸") (u " ") 43 (u " ") (u "20,93"))
    as [v Hv]; try reflexivity.
  vm_compute in Hv. discriminate Hv.
Qed.

Lemma float_error (s : str) (e : exc) :
  Py.float s = Raise e ->
  e = ValueError (Could_not_convert_string_to_float s).
Proof.
  unfold Py.float. destruct (Py.split_point s) as [ip fp].
  destruct (Py.digits_of ip); [| congruence].
  destruct (Py.digits_of _); [| congruence].
  destruct (_ ++ _); congruence.
Qed.

(** C6, as the code has it. [parse_amount] has three ways to fail and
    one to succeed, decided by the first line of its input: it raises
    the format error exactly when the line does not have the shape of
    the pattern; when the line has the shape, it raises the currency
    error if the currency token is not the expected symbol; otherwise
    it returns a number if the amount group is a numeric literal
    (digits and spaces with at most one comma and at least one digit)
    and else raises the error of [float]. *)
Theorem parse_amount_outcomes :
  forall s : str,
    (parse_amount s = Raise (ValueError (Failed_to_parse_amount s))
     <-> ~ matches_amount_pattern (Py.first_line s))
    /\ (forall sg ws amt cur,
           amount_shape (Py.first_line s) sg ws amt cur ->
           cur <> EXPECTED_CURRENCY ->
           parse_amount s
           = Raise (ValueError (Unexpected_currency cur EXPECTED_CURRENCY)))
    /\ (forall sg ws amt,
           amount_shape (Py.first_line s) sg ws amt EXPECTED_CURRENCY ->
           numeric_literal amt = true ->
           parse_amount s = Ok (signed sg (literal_value amt)))
    /\ (forall sg ws amt,
           amount_shape (Py.first_line s) sg ws amt EXPECTED_CURRENCY ->
           numeric_literal amt = false ->
           parse_amount s
           = Raise (ValueError
                      (Could_not_convert_string_to_float (normalize amt)))).
Proof.
  intros s. split; [| split; [| split]].
  - split; [| apply parse_amount_no_shape].
    intros H (sg & ws & amt & cur & Hshape).
    rewrite (parse_amount_of_shape s sg ws amt cur Hshape) in H.
    destruct (negb (str_eqb cur EXPECTED_CURRENCY)); [discriminate |].
    destruct (Py.float (normalize amt)) as [a | e] eqn:Hf;
      simpl in H; [discriminate |].
    rewrite (float_error _ _ Hf) in H. discriminate H.
  - intros sg ws amt cur Hshape Hcur.
    rewrite (parse_amount_of_shape s sg ws amt cur Hshape).
    apply str_eqb_neq in Hcur. rewrite Hcur. reflexivity.
  - intros sg ws amt Hshape Hlit.
    rewrite (parse_amount_of_shape s sg ws amt _ Hshape), str_eqb_refl.
    simpl. rewrite (float_of_numeric_literal amt Hlit). reflexivity.
  - intros sg ws amt Hshape Hlit.
    rewrite (parse_amount_of_shape s sg ws amt _ Hshape), str_eqb_refl.
    simpl. rewrite (float_of_bad_literal amt); [reflexivity | | exact Hlit].
    destruct Hshape as (_ & _ & _ & Ha & _). exact Ha.
Qed.

Lemma parse_amount_outcomes_witness :
  parse_amount (u "+ 20,93 $")
  = Raise (ValueError (Unexpected_currency (u "$") EXPECTED_CURRENCY))
  /\ parse_amount (u "+ 1,2,3 ₸")
     = Raise (ValueError (Could_not_convert_string_to_float (u "1.2.3")))
  /\ parse_amount (u "- 1 000,50 ₸")
     = Ok (signed 45 (literal_value (u "1 000,50")))
  /\ parse_amount (u "garbage")
     = Raise (ValueError (Failed_to_parse_amount (u "garbage"))).
Proof.
  split; [| split; [| split]].
  - apply (proj1 (proj2 (parse_amount_outcomes (u "+ 20,93 $")))
                 43 (u " ") (u "20,93") (u "$")).
    + concrete_shape.
    + apply str_eqb_neq. reflexivity.
  - apply (proj2 (proj2 (proj2 (parse_amount_outcomes (u "+ 1,2,3 ₸"))))
                 43 (u " ") (u "1,2,3")).
    + concrete_shape.
    + reflexivity.
  - apply (proj1 (proj2 (proj2 (parse_amount_outcomes (u "- 1 000,50 ₸"))))
                 45 (u " ") (u "1 000,50")).
    + concrete_shape.
    + reflexivity.
  - apply (proj1 (parse_amount_outcomes (u "garbage"))).
    intros (sg & ws & amt & cur & E & Hsg & _).
    vm_compute in E. injection E as <- _. discriminate Hsg.
Defined.

(** C6 as stated fails: a first line can match the pattern with the
    expected currency and still not give a number. *)
Lemma matching_amount_may_still_fail :
  ~ (forall s : str,
        (~ matches_amount_pattern (Py.first_line s) ->
         parse_amount s = Raise (ValueError (Failed_to_parse_amount s)))
        /\ (forall sg ws amt cur,
               amount_shape (Py.first_line s) sg ws amt cur ->
               cur <> EXPECTED_CURRENCY ->
               parse_amount s
               = Raise (ValueError
                          (Unexpected_currency cur EXPECTED_CURRENCY)))
        /\ (forall sg ws amt,
               amount_shape (Py.first_line s) sg ws amt EXPECTED_CURRENCY ->
               exists v, parse_amount s = Ok v)).
Proof.
  intros H.
  destruct (H (u "+ 1,2,3 ₸")) as (_ & _ & Hnum).
  destruct (Hnum 43 (u " ") (u "1,2,3")) as [v Hv].
  - concrete_shape.
  - vm_compute in Hv. discriminate Hv.
Qed.

(** * Run totals *)

Lemma In_built (t : Transaction) (tb : table) :
  In t (built tb) ->
  exists line, In line tb /\ transaction_of_line line = Ok t.
Proof.
  induction tb as [| line tb IH]; [intros [] |].
  destruct (transaction_of_line line) as [t' | e] eqn:E.
  - rewrite (built_cons_ok _ _ _ E). intros [<- | H].
    + exists line. split; [left; reflexivity | exact E].
    + destruct (IH H) as (l & Hl & Hok). exists l. split; [right |]; auto.
  - rewrite (built_cons_raise _ _ _ E). intros H.
    destruct (IH H) as (l & Hl & Hok). exists l. split; [right |]; auto.
Qed.

Lemma transaction_of_line_amount (line : row) (t : Transaction) :
  transaction_of_line line = Ok t ->
  exists s, parse_amount s = Ok (amount t).
Proof.
  unfold transaction_of_line, unpack4.
  destruct line as [| d [| a [| o [| x [| y r]]]]]; try discriminate.
  simpl.
  destruct d as [d |]; [| discriminate].
  destruct (Datetime.strptime d); [| discriminate]. simpl.
  destruct a as [a |]; [| discriminate].
  destruct (parse_amount a) as [v | e] eqn:E; [| discriminate]. simpl.
  intros H. injection H as <-. exists a. exact E.
Qed.

Lemma collected_amount_sign (evs : list (event table)) (t : Transaction) :
  In t (collected evs) -> exists b, has_sign b (amount t).
Proof.
  unfold collected. rewrite in_flat_map. intros (tb & _ & H).
  destruct (In_built t tb H) as (line & _ & Hok).
  destruct (transaction_of_line_amount line t Hok) as [s Hs].
  destruct (parse_amount_sign s _ Hs) as [[_ Hb] | [_ Hb]]; eauto.
Qed.

Lemma filter_all {A} (p : A -> bool) (l : list A) :
  forallb p l = true -> filter p l = l.
Proof.
  induction l as [| x l IH]; simpl; [reflexivity |].
  intros H. apply andb_true_iff in H. destruct H as [Hx Hl].
  rewrite Hx, IH; auto.
Qed.

Lemma filter_none {A} (p : A -> bool) (l : list A) :
  forallb p l = true -> filter (fun x => negb (p x)) l = [].
Proof.
  induction l as [| x l IH]; simpl; [reflexivity |].
  intros H. apply andb_true_iff in H. destruct H as [Hx Hl].
  rewrite Hx. simpl. auto.
Qed.

Lemma filter_negb_negb {A} (p : A -> bool) (l : list A) :
  filter (fun x => negb (negb (p x))) l = filter p l.
Proof.
  apply filter_ext. intros x. apply negb_involutive.
Qed.

Lemma filter_partition {A} (p : A -> bool) (l : list A) :
  Permutation l (filter p l ++ filter (fun x => negb (p x)) l).
Proof.
  induction l as [| x l IH]; simpl; [constructor |].
  destruct (p x); simpl.
  - constructor. exact IH.
  - apply Permutation_cons_app. exact IH.
Qed.

Lemma sum_of_inflows (ts : list Transaction) :
  forallb is_inflow ts = true ->
  forall acc, has_sign false acc ->
              has_sign false (fold_left Float64.add (amounts ts) acc).
Proof.
  induction ts as [| t ts IH]; simpl; intros H acc Hacc; [exact Hacc |].
  apply andb_true_iff in H. destruct H as [Ht Hts].
  apply IH; [exact Hts |].
  apply add_plus; [exact Hacc | apply ltb_zero_pos, Ht].
Qed.

Lemma sum_of_outflows (ts : list Transaction) :
  forallb (fun t => negb (is_inflow t)) ts = true ->
  (forall t, In t ts -> exists b, has_sign b (amount t)) ->
  forall acc, is_nonpos acc ->
              is_nonpos (fold_left Float64.add (amounts ts) acc).
Proof.
  induction ts as [| t ts IH]; simpl; intros H Hs acc Hacc; [exact Hacc |].
  apply andb_true_iff in H. destruct H as [Ht Hts].
  apply IH; [exact Hts | intros t' Ht'; apply Hs; right; exact Ht' |].
  apply add_nonpos; [exact Hacc |].
  destruct (Hs t (or_introl eq_refl)) as [b Hb].
  apply (ltb_zero_nonpos b); [exact Hb |].
  apply negb_true_iff in Ht. exact Ht.
Qed.

Lemma run_totals (pages : list page) :
  let f := fst (parse_statement_run (Ok pages)) in
  let ts := collected (fst (get_transaction_tables pages)) in
  transactions f = ts
  /\ total_change f = fsum (amounts ts)
  /\ total_inflow f = fsum (amounts (filter is_inflow ts))
  /\ total_outflow f
     = fsum (amounts (filter (fun t => negb (is_inflow t)) ts)).
Proof.
  rewrite parse_statement_run_ok.
  destruct (get_transaction_tables pages) as [evs stop]. cbn [fst].
  set (f0 := emit _ initial_frame).
  pose proof (transactions_table_loop evs f0) as HT.
  destruct (totals_table_loop evs f0) as (H1 & H2 & H3).
  destruct stop; cbn [fst]; unfold emit;
    cbn [transactions total_change total_inflow total_outflow];
    rewrite HT, H1, H2, H3; auto.
Qed.

(** C7, as the code has it. After a run that completes, the logged
    count is the length of the returned list; the net change, the
    inflow and the outflow are the left-to-right binary64 sums of all
    amounts, of the amounts above zero, and of the other amounts (zero
    counts as outflow), so that inflow and outflow together add up the
    same amounts as the net change, in another order. The net change
    is equal to inflow plus outflow when all the transactions are
    inflows or all are outflows. *)
Theorem run_totals_are_sums :
  forall pages : list page,
    snd (get_transaction_tables pages) = None ->
    let f := fst (parse_statement_run (Ok pages)) in
    let ts := transactions f in
    parse_statement (Ok pages) = Ok ts
    /\ (exists before,
           log f = before
                     ++ [INFO_total_transactions (List.length ts);
                         INFO_total_change (total_change f);
                         INFO_total_inflow (total_inflow f);
                         INFO_total_outflow (total_outflow f)])
    /\ total_change f = fsum (amounts ts)
    /\ total_inflow f = fsum (amounts (filter is_inflow ts))
    /\ total_outflow f
       = fsum (amounts (filter (fun t => negb (is_inflow t)) ts))
    /\ Permutation (amounts ts)
                   (amounts (filter is_inflow ts)
                      ++ amounts (filter (fun t => negb (is_inflow t)) ts))
    /\ (forallb is_inflow ts = true
        \/ forallb (fun t => negb (is_inflow t)) ts = true ->
        Float64.eqb (total_change f)
                    (Float64.add (total_inflow f) (total_outflow f)) = true).
Proof.
  intros pages Hstop f ts.
  destruct (run_totals pages) as (HT & H1 & H2 & H3).
  change (fst (parse_statement_run (Ok pages))) with f in HT, H1, H2, H3.
  change (transactions f) with ts in HT.
  rewrite <- HT in H1, H2, H3.
  split; [| split; [| split; [| split; [| split; [| split]]]]]; auto.
  - rewrite parse_statement_ok, HT. reflexivity.
  - unfold ts, f. rewrite parse_statement_run_ok.
    destruct (get_transaction_tables pages) as [evs stop].
    simpl in Hstop. subst stop. cbn [fst].
    set (f1 := for_each consume_table evs _).
    exists (log f1). unfold emit.
    cbn [log transactions total_change total_inflow total_outflow].
    rewrite <- !app_assoc. reflexivity.
  - unfold amounts. rewrite <- map_app. apply Permutation_map.
    apply filter_partition.
  - intros [Hin | Hout]; rewrite H1, H2, H3.
    + rewrite (filter_all _ _ Hin), (filter_none _ _ Hin).
      change (fsum (amounts [])) with Float64.zero.
      pose proof (sum_of_inflows ts Hin Float64.zero eq_refl) as Hs.
      fold (fsum (amounts ts)) in Hs.
      rewrite (add_zero_r_plus _ Hs). apply (eqb_refl_signed false _ Hs).
    + rewrite (filter_all _ _ Hout).
      assert (Hnone : filter is_inflow ts = []).
      { rewrite <- (filter_negb_negb is_inflow ts).
        apply (filter_none (fun t => negb (is_inflow t))). exact Hout. }
      rewrite Hnone. change (fsum (amounts [])) with Float64.zero.
      apply eqb_add_zero_l_nonpos.
      apply (sum_of_outflows ts Hout); [| exact I].
      intros t Ht. rewrite HT in Ht.
      apply (collected_amount_sign _ t Ht).
Qed.

Lemma run_totals_are_sums_witness :
  let f := fst (parse_statement_run (Ok inflow_statement)) in
  Float64.eqb (total_change f)
              (Float64.add (total_inflow f) (total_outflow f)) = true.
Proof.
  apply (proj2 (proj2 (proj2 (proj2 (proj2 (proj2
           (run_totals_are_sums inflow_statement eq_refl))))))).
  left. reflexivity.
Defined.

(** C7 as stated fails: for the amounts +0.10, -0.30, +0.20 the run
    completes with net change 2^-55 while inflow plus outflow is
    2^-54. *)
Lemma net_change_differs_from_inflow_plus_outflow :
  ~ (forall (pages : list page) (ts : list Transaction),
        snd (get_transaction_tables pages) = None ->
        parse_statement (Ok pages) = Ok ts ->
        exists before count change inflow outflow,
          log (fst (parse_statement_run (Ok pages)))
          = before ++ [INFO_total_transactions count;
                       INFO_total_change change;
                       INFO_total_inflow inflow;
                       INFO_total_outflow outflow]
          /\ Float64.eqb change (Float64.add inflow outflow) = true
          /\ count = List.length ts).
Proof.
  intros H.
  destruct (H mixed_statement _ eq_refl eq_refl)
    as (before & count & change & inflow & outflow & Hlog & E & _).
  vm_compute in Hlog.
  apply (f_equal (@rev log_record)) in Hlog.
  rewrite rev_app_distr in Hlog. simpl in Hlog.
  injection Hlog as Ho Hi Hc _. subst change inflow outflow.
  vm_compute in E. discriminate E.
Qed.

(** * Export *)

Lemma nearest_even_spec (s : bool) (m : positive) (e : Z) :
  nearest_even_to (numerator s m e) (denominator e)
                  (Float64.nearest_even s m e).
Proof.
  unfold nearest_even_to, numerator, denominator, Float64.nearest_even.
  destruct e as [| k | k]; cbv beta iota zeta.
  - change (Z.max 0 0) with 0%Z. change (Z.max (- 0) 0) with 0%Z.
    rewrite !Z.pow_0_r. destruct s; split; intros; lia.
  - change (Z.max (Z.pos k) 0) with (Z.pos k).
    change (Z.max (- Z.pos k) 0) with 0%Z. rewrite Z.pow_0_r.
    set (P := (2 ^ Z.pos k)%Z). destruct s; split; intros; lia.
  - change (Z.max (Z.neg k) 0) with 0%Z.
    change (Z.max (- Z.neg k) 0) with (Z.pos k). rewrite Z.pow_0_r.
    change (Z.pow_pos 2 k) with (2 ^ Z.pos k)%Z.
    set (d := (2 ^ Z.pos k)%Z).
    assert (Hd : (0 < d)%Z) by (apply Z.pow_pos_nonneg; lia).
    pose proof (Z.div_mod (Z.pos m) d ltac:(lia)) as Hdm.
    pose proof (Z.mod_pos_bound (Z.pos m) d Hd) as Hr.
    set (q := (Z.pos m / d)%Z) in *. set (r := (Z.pos m mod d)%Z) in *.
    assert (Hodd : Z.even q = false -> Z.even (q + 1) = true).
    { intros Hq. rewrite Z.even_add, Hq. reflexivity. }
    clearbody q r d. rewrite Hdm. clear Hdm.
    assert (Hcmp : match (2 * r ?= d)%Z with
                   | Eq => (2 * r = d)%Z
                   | Lt => (2 * r < d)%Z
                   | Gt => (2 * r > d)%Z
                   end).
    { destruct (2 * r ?= d)%Z eqn:C.
      - apply Z.compare_eq, C.
      - apply Z.compare_lt_iff, C.
      - apply Z.compare_gt_iff in C. lia. }
    destruct (2 * r ?= d)%Z;
      destruct (Z.even q) eqn:Hq; destruct s; rewrite ?Z.even_opp;
      match goal with
      | |- context [Z.abs ?x] => ring_simplify x
      end;
      split; intros; auto; lia.
Qed.

(** C9, as the code has it. The exported record holds the date as
    [YYYY-MM-DD], the payee and the memo unchanged, and the amount
    rounded to the nearest integer with ties going to the even
    integer. In the end-to-end example the amounts are 1000.5 and
    -250.0 and the exported amounts are 1000 and -250, with dates
    [2024-03-01] and [2024-03-02]. *)
Theorem export_rounds_half_to_even :
  (forall (t : Transaction) (r : csv_record),
      csv_record_of t = Ok r ->
      Date r = Datetime.strftime (date t)
      /\ Payee r = payee t
      /\ Memo r = memo t
      /\ match amount t with
         | S754_zero _ => Amount r = 0%Z
         | S754_finite s m e =>
           nearest_even_to (numerator s m e) (denominator e) (Amount r)
         | _ => False
         end)
  /\ (forall (ts : list Transaction) (rs : list csv_record),
         export_to_csv ts (Ok tt) = (rs, None) ->
         Forall2 (fun t r => csv_record_of t = Ok r) ts rs)
  /\ parse_statement end_to_end_example = Ok [alice; shop 2]
  /\ (2 * numerator false 8800491068719104 (-43)
      = 2001 * denominator (-43))%Z
  /\ (numerator true 8796093022208000 (-45) = -250 * denominator (-45))%Z
  /\ export_to_csv [alice; shop 2] (Ok tt)
     = ([ {| Date := u "2024-03-01"; Payee := Some (u "Alice");
             Memo := empty; Amount := 1000 |};
          {| Date := u "2024-03-02"; Payee := Some (u "Shop");
             Memo := empty; Amount := -250 |} ], None).
Proof.
  split; [| split; [| repeat split; vm_compute; reflexivity]].
  - intros t r. unfold csv_record_of.
    destruct (amount t) as [s | s | | s m e] eqn:Ea; simpl; try discriminate;
      intros H; injection H as <-; simpl; repeat split; auto;
      apply nearest_even_spec.
  - simpl. induction ts as [| t ts IH]; intros rs H; simpl in H.
    + injection H as <-. constructor.
    + destruct (csv_record_of t) as [r | e] eqn:Er; [| discriminate].
      destruct (file_write (Csv.writerow (fields_of r))); [| discriminate].
      destruct (write_rows ts) as [rs' stop]. injection H as <- ->.
      constructor; auto.
Qed.

Lemma export_rounds_half_to_even_witness :
  Date {| Date := u "2024-03-01"; Payee := Some (u "Alice");
          Memo := empty; Amount := 1000 |}
  = Datetime.strftime (date alice)
  /\ nearest_even_to (numerator false 8800491068719104 (-43))
                     (denominator (-43)) 1000.
Proof.
  destruct (proj1 export_rounds_half_to_even alice
                  {| Date := u "2024-03-01"; Payee := Some (u "Alice");
                     Memo := empty; Amount := 1000 |} eq_refl)
    as (HD & _ & _ & HA).
  split; [exact HD | exact HA].
Defined.

(** C9 as stated fails: the first exported amount of the end-to-end
    example is 1000, not 1001. *)
Lemma example_amount_is_not_1001 :
  ~ (forall ts : list Transaction,
        parse_statement end_to_end_example = Ok ts ->
        map Amount (fst (export_to_csv ts (Ok tt))) = [1001; -250]%Z).
Proof.
  intros H. specialize (H [alice; shop 2] eq_refl).
  vm_compute in H. discriminate H.
Qed.

(** * Checks of the models of the built-ins

    The values on the right are what CPython 3.11 computes for the
    same calls. *)

Example float_tenth :
  Py.float (u "0.1")
  = Ok (S754_finite false 7205759403792794 (-56)).
Proof. vm_compute. reflexivity. Qed.

Example float_amount_20_93 :
  Py.float (u "20.93")
  = Ok (S754_finite false 5891271262554030 (-48)).
Proof. vm_compute. reflexivity. Qed.

Example float_tie_to_even :
  Py.float (u "9007199254740993")
  = Ok (S754_finite false 4503599627370496 (1)).
Proof. vm_compute. reflexivity. Qed.

Example float_above_tie :
  Py.float (u "9007199254740993.0000000000000001")
  = Ok (S754_finite false 4503599627370497 (1)).
Proof. vm_compute. reflexivity. Qed.

Example float_thirty_digits :
  Py.float (u "123456789012345678901234567890")
  = Ok (S754_finite false 7017705969039166 (44)).
Proof. vm_compute. reflexivity. Qed.

Example float_trailing_point :
  Py.float (u "5.")
  = Ok (S754_finite false 5629499534213120 (-50)).
Proof. vm_compute. reflexivity. Qed.

Example float_leading_point :
  Py.float (u ".5")
  = Ok (S754_finite false 4503599627370496 (-53)).
Proof. vm_compute. reflexivity. Qed.

Example float_arabic_indic :
  Py.float (u "٢٠.٩٣")
  = Ok (S754_finite false 5891271262554030 (-48)).
Proof. vm_compute. reflexivity. Qed.

Example float_smallest_subnormal :
  Py.float (u "0.000000000000000000000000000000000000000000000000000000000000000000000000000000000000000000000000000000000000000000000000000000000000000000000000000000000000000000000000000000000000000000000000000000000000000000000000000000000000000000000000000000000000000000000000000000000000000000000000000000000000000000000000000000000003")
  = Ok (S754_finite false 1 (-1074)).
Proof. vm_compute. reflexivity. Qed.

Example float_underflow :
  Py.float (u "0.000000000000000000000000000000000000000000000000000000000000000000000000000000000000000000000000000000000000000000000000000000000000000000000000000000000000000000000000000000000000000000000000000000000000000000000000000000000000000000000000000000000000000000000000000000000000000000000000000000000000000000000000000000000002")
  = Ok (S754_zero false).
Proof. vm_compute. reflexivity. Qed.

Example float_overflow :
  Py.float (u "1000000000000000000000000000000000000000000000000000000000000000000000000000000000000000000000000000000000000000000000000000000000000000000000000000000000000000000000000000000000000000000000000000000000000000000000000000000000000000000000000000000000000000000000000000000000000000000000000000000000000000000000")
  = Ok (S754_infinity false).
Proof. vm_compute. reflexivity. Qed.

Example float_two_points :
  Py.float (u "1.2.3")
  = Raise (ValueError (Could_not_convert_string_to_float (u "1.2.3"))).
Proof. vm_compute. reflexivity. Qed.

Example float_empty :
  Py.float empty
  = Raise (ValueError (Could_not_convert_string_to_float empty)).
Proof. vm_compute. reflexivity. Qed.

Example float_only_point :
  Py.float (u ".")
  = Raise (ValueError (Could_not_convert_string_to_float (u "."))).
Proof. vm_compute. reflexivity. Qed.

Example round_half :
  Py.round (S754_finite false 4503599627370496 (-53)) = Ok (0)%Z.
Proof. vm_compute. reflexivity. Qed.

Example round_one_and_half :
  Py.round (S754_finite false 6755399441055744 (-52)) = Ok (2)%Z.
Proof. vm_compute. reflexivity. Qed.

Example round_two_and_half :
  Py.round (S754_finite false 5629499534213120 (-51)) = Ok (2)%Z.
Proof. vm_compute. reflexivity. Qed.

Example round_minus_two_and_half :
  Py.round (S754_finite true 5629499534213120 (-51)) = Ok (-2)%Z.
Proof. vm_compute. reflexivity. Qed.

Example round_minus_0_75 :
  Py.round (S754_finite true 6755399441055744 (-53)) = Ok (-1)%Z.
Proof. vm_compute. reflexivity. Qed.

Example round_big :
  Py.round (S754_finite false 6103515625000000 (14)) = Ok (100000000000000000000)%Z.
Proof. vm_compute. reflexivity. Qed.

Example round_thousand_and_half :
  Py.round (S754_finite false 8800491068719104 (-43)) = Ok (1000)%Z.
Proof. vm_compute. reflexivity. Qed.

Example round_just_above_half :
  Py.round (S754_finite false 4503599627370497 (-53)) = Ok (1)%Z.
Proof. vm_compute. reflexivity. Qed.

Example strptime_plain :
  Datetime.strptime (u "01.03.24")
  = Ok {| Datetime.year := 2024; Datetime.month := 3; Datetime.day := 1 |}.
Proof. vm_compute. reflexivity. Qed.

Example strftime_plain :
  Datetime.strftime {| Datetime.year := 2024; Datetime.month := 3; Datetime.day := 1 |}
  = u "2024-03-01".
Proof. vm_compute. reflexivity. Qed.

Example strptime_one_digit_fields :
  Datetime.strptime (u "1.3.24")
  = Ok {| Datetime.year := 2024; Datetime.month := 3; Datetime.day := 1 |}.
Proof. vm_compute. reflexivity. Qed.

Example strftime_one_digit_fields :
  Datetime.strftime {| Datetime.year := 2024; Datetime.month := 3; Datetime.day := 1 |}
  = u "2024-03-01".
Proof. vm_compute. reflexivity. Qed.

Example strptime_last_century :
  Datetime.strptime (u "31.12.69")
  = Ok {| Datetime.year := 1969; Datetime.month := 12; Datetime.day := 31 |}.
Proof. vm_compute. reflexivity. Qed.

Example strftime_last_century :
  Datetime.strftime {| Datetime.year := 1969; Datetime.month := 12; Datetime.day := 31 |}
  = u "1969-12-31".
Proof. vm_compute. reflexivity. Qed.

Example strptime_this_century :
  Datetime.strptime (u "01.01.68")
  = Ok {| Datetime.year := 2068; Datetime.month := 1; Datetime.day := 1 |}.
Proof. vm_compute. reflexivity. Qed.

Example strftime_this_century :
  Datetime.strftime {| Datetime.year := 2068; Datetime.month := 1; Datetime.day := 1 |}
  = u "2068-01-01".
Proof. vm_compute. reflexivity. Qed.

Example strptime_leap_day :
  Datetime.strptime (u "29.02.24")
  = Ok {| Datetime.year := 2024; Datetime.month := 2; Datetime.day := 29 |}.
Proof. vm_compute. reflexivity. Qed.

Example strftime_leap_day :
  Datetime.strftime {| Datetime.year := 2024; Datetime.month := 2; Datetime.day := 29 |}
  = u "2024-02-29".
Proof. vm_compute. reflexivity. Qed.

Example strptime_space_padded_day :
  Datetime.strptime (u " 1.03.24")
  = Ok {| Datetime.year := 2024; Datetime.month := 3; Datetime.day := 1 |}.
Proof. vm_compute. reflexivity. Qed.

Example strftime_space_padded_day :
  Datetime.strftime {| Datetime.year := 2024; Datetime.month := 3; Datetime.day := 1 |}
  = u "2024-03-01".
Proof. vm_compute. reflexivity. Qed.

Example strptime_no_leap_day :
  Datetime.strptime (u "29.02.23")
  = Raise (ValueError Day_is_out_of_range_for_month).
Proof. vm_compute. reflexivity. Qed.

Example strptime_four_digit_year :
  Datetime.strptime (u "01.03.2024")
  = Raise (ValueError (Unconverted_data_remains (u "24"))).
Proof. vm_compute. reflexivity. Qed.

Example strptime_day_32 :
  Datetime.strptime (u "32.03.24")
  = Raise (ValueError (Time_data_does_not_match_format (u "32.03.24"))).
Proof. vm_compute. reflexivity. Qed.

Example strptime_month_13 :
  Datetime.strptime (u "10.13.24")
  = Raise (ValueError (Time_data_does_not_match_format (u "10.13.24"))).
Proof. vm_compute. reflexivity. Qed.

Example match_plain :
  option_map (fun m => (Re.group (u "+ 20,93 ₸") m g_sign,
                        Re.group (u "+ 20,93 ₸") m g_amount,
                        Re.group (u "+ 20,93 ₸") m g_currency))
             (Re.match_ AMOUNT_PATTERN (u "+ 20,93 ₸"))
  = Some (u "+", u "20,93", u "₸").
Proof. vm_compute. reflexivity. Qed.

Example match_grouped :
  option_map (fun m => (Re.group (u "- 1 000,50 ₸") m g_sign,
                        Re.group (u "- 1 000,50 ₸") m g_amount,
                        Re.group (u "- 1 000,50 ₸") m g_currency))
             (Re.match_ AMOUNT_PATTERN (u "- 1 000,50 ₸"))
  = Some (u "-", u "1 000,50", u "₸").
Proof. vm_compute. reflexivity. Qed.

Example match_spaces_only :
  option_map (fun m => (Re.group (u "+   ₸") m g_sign,
                        Re.group (u "+   ₸") m g_amount,
                        Re.group (u "+   ₸") m g_currency))
             (Re.match_ AMOUNT_PATTERN (u "+   ₸"))
  = Some (u "+", u " ", u "₸").
Proof. vm_compute. reflexivity. Qed.

Example match_no_space_after_sign :
  option_map (fun m => (Re.group (u "+5 $") m g_sign,
                        Re.group (u "+5 $") m g_amount,
                        Re.group (u "+5 $") m g_currency))
             (Re.match_ AMOUNT_PATTERN (u "+5 $"))
  = Some (u "+", u "5", u "$").
Proof. vm_compute. reflexivity. Qed.

Example match_wide_space :
  option_map (fun m => (Re.group (u "+　 7 ₸") m g_sign,
                        Re.group (u "+　 7 ₸") m g_amount,
                        Re.group (u "+　 7 ₸") m g_currency))
             (Re.match_ AMOUNT_PATTERN (u "+　 7 ₸"))
  = Some (u "+", u "7", u "₸").
Proof. vm_compute. reflexivity. Qed.

Example no_match_leading_space :
  Re.match_ AMOUNT_PATTERN (u " + 20,93 ₸") = None.
Proof. vm_compute. reflexivity. Qed.

Example no_match_no_currency :
  Re.match_ AMOUNT_PATTERN (u "+ 20,93") = None.
Proof. vm_compute. reflexivity. Qed.

Example no_match_no_number :
  Re.match_ AMOUNT_PATTERN (u "+ ₸") = None.
Proof. vm_compute. reflexivity. Qed.

Example no_match_letters :
  Re.match_ AMOUNT_PATTERN (u "garbage") = None.
Proof. vm_compute. reflexivity. Qed.

Example no_match_trailing_space :
  Re.match_ AMOUNT_PATTERN (u "+ 20,93 ₸ ") = None.
Proof. vm_compute. reflexivity. Qed.

(** * More about the amount parser *)

Lemma first_line_app_newline (s t : str) :
  ~ In 10 s -> Py.first_line (s ++ 10 :: t) = s.
Proof.
  induction s as [| c s IH]; intros H; [reflexivity |].
  simpl. destruct (c =? 10) eqn:E.
  - apply N.eqb_eq in E. subst c. exfalso. apply H. left. reflexivity.
  - rewrite IH; [reflexivity |]. intros Hin. apply H. right. exact Hin.
Qed.

Lemma first_line_no_newline_id (s : str) :
  ~ In 10 s -> Py.first_line s = s.
Proof.
  induction s as [| c s IH]; intros H; [reflexivity |].
  simpl. destruct (c =? 10) eqn:E.
  - apply N.eqb_eq in E. subst c. exfalso. apply H. left. reflexivity.
  - rewrite IH; [reflexivity |]. intros Hin. apply H. right. exact Hin.
Qed.

(** [parse_amount] reads its argument only through its first line,
    except for the text of the format error. *)
Lemma parse_amount_by_first_line (s s' : str) :
  Py.first_line s = Py.first_line s' ->
  parse_amount s' =
  match parse_amount s with
  | Raise (ValueError (Failed_to_parse_amount _)) =>
    Raise (ValueError (Failed_to_parse_amount s'))
  | outcome => outcome
  end.
Proof.
  intros E. unfold parse_amount. rewrite <- E.
  destruct (Re.match_ AMOUNT_PATTERN (Py.first_line s)) as [m |];
    [| reflexivity].
  destruct (negb (str_eqb _ _)); [reflexivity |].
  destruct (Py.float _) as [a | e] eqn:Hf; [reflexivity |].
  rewrite (float_error _ _ Hf). reflexivity.
Qed.

(** X1. Only the first line of a cell counts: whatever follows the
    first line feed changes neither the value returned nor the kind of
    error raised. *)
Theorem later_lines_are_ignored :
  forall s t : str,
    ~ In 10 s ->
    parse_amount (s ++ 10 :: t) =
    match parse_amount s with
    | Raise (ValueError (Failed_to_parse_amount _)) =>
      Raise (ValueError (Failed_to_parse_amount (s ++ 10 :: t)))
    | outcome => outcome
    end.
Proof.
  intros s t H. apply parse_amount_by_first_line.
  rewrite first_line_app_newline, first_line_no_newline_id; auto.
Qed.

Lemma later_lines_are_ignored_witness :
  parse_amount (u "- 250 ₸" ++ 10 :: u "Комиссия 0 ₸")
  = Ok (S754_finite true 8796093022208000 (-45)).
Proof.
  rewrite (later_lines_are_ignored (u "- 250 ₸") (u "Комиссия 0 ₸")).
  - vm_compute. reflexivity.
  - vm_compute. intuition discriminate.
Defined.

Lemma forallb_last {A} (P : A -> bool) (l : list A) (x : A) :
  forallb P (l ++ [x]) = true -> P x = true.
Proof.
  rewrite forallb_app. simpl. intros H.
  apply andb_true_iff in H. destruct H as [_ H].
  apply andb_true_iff in H. tauto.
Qed.

Lemma shape_last_not_space (line body : str) (c : codepoint) sg ws amt cur :
  amount_shape line sg ws amt cur ->
  line = body ++ [c] -> Unicode.is_space c = false.
Proof.
  intros (E & _ & _ & _ & _ & Hcur & Hne) El.
  destruct (exists_last Hne) as (cur' & x & ->).
  rewrite E in El.
  change (sg :: ws ++ amt ++ 32 :: cur' ++ [x])
    with ((sg :: ws) ++ amt ++ (32 :: cur') ++ [x]) in El.
  rewrite !app_assoc in El. apply app_inj_tail in El. destruct El as [_ ->].
  apply forallb_last in Hcur. unfold not_space in Hcur.
  apply negb_true_iff in Hcur. exact Hcur.
Qed.

(** X2. Some strings can never be amounts: [parse_amount] raises the
    format error when the first line is empty or starts with anything
    but [+] or [-], and when it ends with a white-space character,
    such as a trailing space or the carriage return of a CRLF line
    break. *)
Theorem malformed_lines_are_rejected :
  forall s : str,
    (match Py.first_line s with
     | [] => True
     | c :: _ => is_sign c = false
     end
     \/ exists body c,
          Py.first_line s = body ++ [c] /\ Unicode.is_space c = true) ->
    parse_amount s = Raise (ValueError (Failed_to_parse_amount s)).
Proof.
  intros s H. apply parse_amount_no_shape.
  intros (sg & ws & amt & cur & Hshape).
  destruct H as [H | (body & c & E & Hc)].
  - destruct Hshape as (E & Hsg & _). rewrite E in H. congruence.
  - rewrite (shape_last_not_space _ _ _ _ _ _ _ Hshape E) in Hc.
    discriminate Hc.
Qed.

Lemma malformed_lines_are_rejected_witness :
  parse_amount (u "−20,93 ₸")
  = Raise (ValueError (Failed_to_parse_amount (u "−20,93 ₸")))
  /\ parse_amount (u "+ 20,93 ₸" ++ [13; 10] ++ u "note")
     = Raise (ValueError
                (Failed_to_parse_amount
                   (u "+ 20,93 ₸" ++ [13; 10] ++ u "note"))).
Proof.
  split.
  - apply malformed_lines_are_rejected. left. reflexivity.
  - apply malformed_lines_are_rejected. right.
    exists (u "+ 20,93 ₸"), 13. split; reflexivity.
Defined.

Lemma normalize_remove_first (lit : str) :
  normalize lit = Py.replace_char 44 46 (Py.remove_char 32 lit).
Proof.
  induction lit as [| c r IH]; [reflexivity |].
  unfold normalize, Py.remove_char, Py.replace_char in *. simpl.
  destruct (c =? 44) eqn:E44.
  - apply N.eqb_eq in E44. subst c. simpl. rewrite IH. reflexivity.
  - destruct (c =? 32) eqn:E32; simpl; rewrite ?E44, IH; reflexivity.
Qed.

Lemma shape_of_parts (line : str) sg ws lit :
  line = sg :: ws ++ lit ++ 32 :: EXPECTED_CURRENCY ->
  is_sign sg = true ->
  forallb Unicode.is_space ws = true ->
  forallb is_amount_char lit = true -> lit <> [] ->
  amount_shape line sg ws lit EXPECTED_CURRENCY.
Proof.
  intros E Hsg Hws Hlit Hne.
  destruct expected_currency_not_space as [Hc Hcne].
  repeat split; auto.
Qed.

(** X3. Spaces inside the number carry no meaning: two amount strings
    with the same sign whose numbers differ only by spaces (and by the
    white space after the sign) give the same outcome. *)
Theorem digit_grouping_is_ignored :
  forall (s1 s2 : str) (sg : codepoint) (ws1 ws2 lit1 lit2 : str),
    Py.first_line s1 = sg :: ws1 ++ lit1 ++ 32 :: EXPECTED_CURRENCY ->
    Py.first_line s2 = sg :: ws2 ++ lit2 ++ 32 :: EXPECTED_CURRENCY ->
    is_sign sg = true ->
    forallb Unicode.is_space ws1 = true ->
    forallb Unicode.is_space ws2 = true ->
    forallb is_amount_char lit1 = true -> lit1 <> [] ->
    forallb is_amount_char lit2 = true -> lit2 <> [] ->
    Py.remove_char 32 lit1 = Py.remove_char 32 lit2 ->
    parse_amount s1 = parse_amount s2.
Proof.
  intros s1 s2 sg ws1 ws2 lit1 lit2 E1 E2 Hsg Hw1 Hw2 Hl1 Hn1 Hl2 Hn2 E.
  rewrite (parse_amount_of_shape s1 sg ws1 lit1 EXPECTED_CURRENCY)
    by (apply shape_of_parts; auto).
  rewrite (parse_amount_of_shape s2 sg ws2 lit2 EXPECTED_CURRENCY)
    by (apply shape_of_parts; auto).
  rewrite !normalize_remove_first, E. reflexivity.
Qed.

Lemma digit_grouping_is_ignored_witness :
  parse_amount (u "- 1 000 000,50 ₸") = parse_amount (u "-1000000,50 ₸").
Proof.
  apply (digit_grouping_is_ignored
           (u "- 1 000 000,50 ₸") (u "-1000000,50 ₸") 45
           (u " ") empty (u "1 000 000,50") (u "1000000,50"));
    try reflexivity; discriminate.
Defined.

(** * Whole numbers are converted exactly *)

Lemma shl_digits (p : positive) (k : nat) :
  Zpos (digits2_pos (shl p k)) = (Zpos (digits2_pos p) + Z.of_nat k)%Z.
Proof.
  induction k as [| k IH]; simpl shl; [lia |].
  cbn [digits2_pos]. rewrite Pos2Z.inj_succ, IH. lia.
Qed.

Lemma shl_value (p : positive) (k : nat) :
  Zpos (shl p k) = (Zpos p * 2 ^ Z.of_nat k)%Z.
Proof.
  induction k as [| k IH]; simpl shl.
  - simpl. lia.
  - rewrite Nat2Z.inj_succ, Z.pow_succ_r by lia.
    change (Zpos (shl p k)~0) with (2 * Zpos (shl p k))%Z. rewrite IH. ring.
Qed.

Lemma shiftl_shl (p : positive) (k : nat) :
  Z.shiftl (Zpos p) (Z.of_nat k) = Zpos (shl p k).
Proof.
  rewrite Z.shiftl_mul_pow2 by lia. symmetry. apply shl_value.
Qed.

Lemma div_eucl_1 (z : Z) : Z.div_eucl z 1 = (z, 0%Z).
Proof.
  pose proof (Z.div_1_r z) as Hq. pose proof (Z.mod_1_r z) as Hr.
  unfold Z.div, Z.modulo in Hq, Hr.
  destruct (Z.div_eucl z 1) as [q r]. congruence.
Qed.

Lemma digits_lower_bound (p : positive) :
  (2 ^ (Zpos (digits2_pos p) - 1) <= Zpos p)%Z.
Proof.
  induction p as [p IH | p IH |]; cbn [digits2_pos];
    try (rewrite Pos2Z.inj_succ;
         replace (Z.succ (Zpos (digits2_pos p)) - 1)%Z
           with (Z.succ (Zpos (digits2_pos p) - 1)) by lia;
         rewrite Z.pow_succ_r by lia; lia).
  simpl. lia.
Qed.

Lemma small_has_few_digits (p : positive) :
  (Zpos p < 2 ^ 53)%Z -> (Zpos (digits2_pos p) <= 53)%Z.
Proof.
  intros H. pose proof (digits_lower_bound p) as Hl.
  destruct (Z_le_gt_dec (Zpos (digits2_pos p)) 53) as [Hle | Hgt]; [exact Hle |].
  exfalso.
  assert (2 ^ 53 <= 2 ^ (Zpos (digits2_pos p) - 1))%Z
    by (apply Z.pow_le_mono_r; lia).
  lia.
Qed.

(** Rounding a 54-bit even mantissa to 53 bits drops the last bit. *)
Lemma round_drops_zero_bit (q : positive) (e : Z) :
  Zpos (digits2_pos q) = 53%Z ->
  (-1074 <= e <= 971)%Z ->
  binary_round_aux Float64.prec Float64.emax false (Zpos q~0) (e - 1)
                   loc_Exact
  = S754_finite false q e.
Proof.
  intros Hd He. unfold binary_round_aux.
  assert (H1 : shr_fexp Float64.prec Float64.emax (Zpos q~0) (e - 1) loc_Exact
               = ({| shr_m := Zpos q; shr_r := false; shr_s := false |}, e)).
  { unfold shr_fexp. cbn [Zdigits2 digits2_pos shr_record_of_loc].
    rewrite Pos2Z.inj_succ, Hd.
    replace (fexp Float64.prec Float64.emax (Z.succ 53 + (e - 1)) - (e - 1))%Z
      with 1%Z
      by (unfold fexp, emin, Float64.prec, Float64.emax; lia).
    cbn. f_equal. lia. }
  rewrite H1. cbn [shr_m loc_of_shr_record round_nearest_even].
  assert (H2 : shr_fexp Float64.prec Float64.emax (Zpos q) e loc_Exact
               = ({| shr_m := Zpos q; shr_r := false; shr_s := false |}, e)).
  { unfold shr_fexp. cbn [Zdigits2 shr_record_of_loc]. rewrite Hd.
    replace (fexp Float64.prec Float64.emax (53 + e) - e)%Z with 0%Z
      by (unfold fexp, emin, Float64.prec, Float64.emax; lia).
    reflexivity. }
  rewrite H2. cbn [shr_m].
  replace (e <=? Float64.emax - Float64.prec)%Z with true; [reflexivity |].
  symmetry. apply Z.leb_le. unfold Float64.emax, Float64.prec. lia.
Qed.

(** An integer of at most 53 bits is a binary64 value: its mantissa
    is the integer shifted to 53 bits. *)
Lemma of_ratio_integer (p : positive) (k : nat) :
  (Zpos (digits2_pos p) + Z.of_nat k = 53)%Z ->
  Float64.of_ratio (Npos p) 1 = S754_finite false (shl p k) (- Z.of_nat k).
Proof.
  intros Hk. unfold Float64.of_ratio, SFdiv.
  assert (Hcore : SFdiv_core_binary Float64.prec Float64.emax (Zpos p) 0 1 0
                  = (Zpos (shl p (S k)), (- Z.of_nat k - 1)%Z, loc_Exact)).
  { unfold SFdiv_core_binary. cbn [Zdigits2 digits2_pos]. cbv zeta.
    replace (Z.min (fexp Float64.prec Float64.emax
                         (Zpos (digits2_pos p) + 0 - (1 + 0))) (0 - 0))%Z
      with (- Z.of_nat (S k))%Z
      by (unfold fexp, emin, Float64.prec, Float64.emax; lia).
    replace (0 - 0 - - Z.of_nat (S k))%Z with (Z.of_nat (S k)) by lia.
    rewrite shiftl_shl.
    destruct (Z.of_nat (S k)) eqn:E; try lia.
    rewrite div_eucl_1. cbn. f_equal. f_equal. lia. }
  rewrite Hcore. cbn [xorb shl].
  apply round_drops_zero_bit.
  - rewrite shl_digits. exact Hk.
  - lia.
Qed.

Lemma round_of_integer (sg : bool) (p : positive) (k : nat) :
  Py.round (S754_finite sg (shl p k) (- Z.of_nat k))
  = Ok (if sg then Zneg p else Zpos p).
Proof.
  unfold Py.round, Float64.nearest_even.
  destruct k as [| k].
  - simpl. destruct sg; f_equal; lia.
  - assert (E : (- Z.of_nat (S k))%Z = Zneg (Pos.of_succ_nat k)) by lia.
    rewrite E.
    change (Z.pow_pos 2 (Pos.of_succ_nat k))
      with (2 ^ Zpos (Pos.of_succ_nat k))%Z.
    replace (Zpos (Pos.of_succ_nat k)) with (Z.of_nat (S k)) by lia.
    set (d := (2 ^ Z.of_nat (S k))%Z).
    assert (Hd : (0 < d)%Z) by (apply Z.pow_pos_nonneg; lia).
    rewrite shl_value. fold d.
    rewrite Z.div_mul, Z.mod_mul by lia.
    replace (2 * 0 ?= d)%Z with Lt by (symmetry; apply Z.compare_lt_iff; lia).
    destruct sg; reflexivity.
Qed.

(** X4. An amount written as a whole number below 2^53 (digits, with
    or without spaces between them, no comma) goes through [float] and
    [round] unchanged: the value parsed rounds to exactly the number
    written, with the sign written. *)
Theorem whole_amounts_are_exact :
  forall (s : str) (sg : codepoint) (ws lit : str),
    Py.first_line s = sg :: ws ++ lit ++ 32 :: EXPECTED_CURRENCY ->
    is_sign sg = true ->
    forallb Unicode.is_space ws = true ->
    numeric_literal lit = true ->
    commas lit = 0%nat ->
    (Z.of_N (Py.value_of (literal_digits lit)) < 2 ^ 53)%Z ->
    exists v,
      parse_amount s = Ok v
      /\ Py.round v
         = Ok (if sg =? 43 then Z.of_N (Py.value_of (literal_digits lit))
               else (- Z.of_N (Py.value_of (literal_digits lit)))%Z).
Proof.
  intros s sg ws lit E Hsg Hws Hlit Hc Hn.
  exists (signed sg (literal_value lit)). split.
  - rewrite (parse_amount_of_shape s sg ws lit EXPECTED_CURRENCY).
    + rewrite str_eqb_refl. simpl.
      rewrite (float_of_numeric_literal lit Hlit). reflexivity.
    + apply shape_of_parts;
        auto using numeric_literal_chars, numeric_literal_nonempty.
  - unfold literal_value, literal_scale.
    rewrite (after_comma_none lit Hc). simpl Py.pow10.
    destruct (Py.value_of (literal_digits lit)) as [| p].
    + unfold signed. destruct (sg =? 43); reflexivity.
    + pose proof (small_has_few_digits p Hn) as Hd.
      assert (Hk : (Zpos (digits2_pos p)
                    + Z.of_nat (Z.to_nat (53 - Zpos (digits2_pos p))) = 53)%Z)
        by lia.
      rewrite (of_ratio_integer p _ Hk). unfold signed.
      destruct (sg =? 43).
      * apply (round_of_integer false).
      * apply (round_of_integer true).
Qed.

Lemma whole_amounts_are_exact_witness :
  exists v,
    parse_amount (u "- 12 345 678 ₸") = Ok v
    /\ Py.round v = Ok (-12345678)%Z.
Proof.
  apply (whole_amounts_are_exact (u "- 12 345 678 ₸") 45 (u " ")
                                 (u "12 345 678"));
    reflexivity.
Defined.

(** * Dates *)

Lemma decimal_in_bound (zeros : list codepoint) (c : codepoint) (v : N) :
  Unicode.decimal_in zeros c = Some v -> v < 10.
Proof.
  induction zeros as [| z zs IH]; simpl; [discriminate |].
  destruct ((z <=? c) && (c <? z + 10)) eqn:E; [| exact IH].
  apply andb_true_iff in E. destruct E as [E1 E2].
  apply N.leb_le in E1. apply N.ltb_lt in E2.
  intros H. injection H as <-. lia.
Qed.

Lemma to_decimal_bound (c : codepoint) (v : N) :
  Unicode.to_decimal c = Some v -> v < 10.
Proof. apply decimal_in_bound. Qed.

Lemma between_spec (a b c : codepoint) :
  Datetime.between a b c = true -> a <= c <= b.
Proof.
  unfold Datetime.between. intros H. apply andb_true_iff in H.
  destruct H as [H1 H2]. apply N.leb_le in H1, H2. lia.
Qed.

(** Splits the membership in a list written as [if b then [x] else []]. *)
Ltac one_alternative H :=
  match type of H with
  | In _ (if ?b then _ else _) =>
    let E := fresh "E" in destruct b eqn:E; [| destruct H]
  | In _ (match ?o with Some _ => _ | None => _ end) =>
    let E := fresh "E" in destruct o eqn:E; [| destruct H]
  | In _ [_] => destruct H as [H | []]
  | In _ [] => destruct H
  end.

Lemma d_directive_range (s : str) (d : N) (r : str) :
  In (d, r) (Datetime.d_directive s) -> 1 <= d <= 31.
Proof.
  unfold Datetime.d_directive. intros H.
  repeat (apply in_app_or in H; destruct H as [H | H]);
    destruct s as [| c1 [| c2 s']]; cbv beta iota in H;
    try (destruct H; fail);
    repeat one_alternative H;
    apply (f_equal fst) in H; cbn [fst] in H; subst d;
    repeat match goal with
           | E : _ && _ = true |- _ =>
             apply andb_true_iff in E; destruct E
           | E : Datetime.between _ _ _ = true |- _ => apply between_spec in E
           | E : (_ =? _) = true |- _ => apply N.eqb_eq in E
           | E : Unicode.to_decimal _ = Some _ |- _ =>
             apply to_decimal_bound in E
           end; subst; lia.
Qed.

Lemma m_directive_range (s : str) (m : N) (r : str) :
  In (m, r) (Datetime.m_directive s) -> 1 <= m <= 12.
Proof.
  unfold Datetime.m_directive. intros H.
  repeat (apply in_app_or in H; destruct H as [H | H]);
    destruct s as [| c1 [| c2 s']]; cbv beta iota in H;
    try (destruct H; fail);
    repeat one_alternative H;
    apply (f_equal fst) in H; cbn [fst] in H; subst m;
    repeat match goal with
           | E : _ && _ = true |- _ =>
             apply andb_true_iff in E; destruct E
           | E : Datetime.between _ _ _ = true |- _ => apply between_spec in E
           | E : (_ =? _) = true |- _ => apply N.eqb_eq in E
           end; subst; lia.
Qed.

Lemma y_directive_range (s : str) (y : N) (r : str) :
  In (y, r) (Datetime.y_directive s) -> y <= 99.
Proof.
  unfold Datetime.y_directive. intros H.
  destruct s as [| c1 [| c2 s']]; try (destruct H; fail).
  destruct (Unicode.to_decimal c1) as [d1 |] eqn:E1; [| destruct H].
  destruct (Unicode.to_decimal c2) as [d2 |] eqn:E2; [| destruct H].
  destruct H as [H | []].
  apply (f_equal fst) in H. cbn [fst] in H. subst y.
  apply to_decimal_bound in E1, E2. lia.
Qed.

Lemma format_matches_inv (s : str) (d m y : N) (rest : str) :
  In (d, m, y, rest) (Datetime.format_matches s) ->
  1 <= d <= 31 /\ 1 <= m <= 12 /\ y <= 99.
Proof.
  unfold Datetime.format_matches. intros H.
  apply in_flat_map in H. destruct H as ([d' r1] & Hd & H).
  apply in_flat_map in H. destruct H as (r2 & _ & H).
  apply in_flat_map in H. destruct H as ([m' r3] & Hm & H).
  apply in_flat_map in H. destruct H as (r4 & _ & H).
  apply in_map_iff in H. destruct H as ([y' r5] & E & Hy).
  assert (Eq : d' = d /\ m' = m /\ y' = y) by (repeat split; congruence).
  destruct Eq as (-> & -> & ->).
  repeat split;
    first [ apply (d_directive_range _ _ _ Hd)
          | apply (m_directive_range _ _ _ Hm)
          | apply (y_directive_range _ _ _ Hy) ].
Qed.

Lemma strptime_valid (s : str) (dt : Datetime.datetime) :
  Datetime.strptime s = Ok dt -> valid_date dt.
Proof.
  unfold Datetime.strptime.
  destruct (Datetime.format_matches s) as [| [[[d m] y] rest] l] eqn:E;
    [discriminate |].
  assert (Hin : In (d, m, y, rest) (Datetime.format_matches s))
    by (rewrite E; left; reflexivity).
  apply format_matches_inv in Hin. destruct Hin as (Hd & Hm & Hy).
  destruct rest; [| discriminate].
  destruct (d <=? _) eqn:Hdays; [| discriminate].
  apply N.leb_le in Hdays. intros H. injection H as <-.
  unfold valid_date. cbn [Datetime.year Datetime.month Datetime.day].
  destruct (y <=? 68) eqn:Hy68;
    [apply N.leb_le in Hy68 | apply N.leb_gt in Hy68]; lia.
Qed.

(** * The builder, row by row *)

Lemma transaction_of_line_inv (line : row) (t : Transaction) :
  transaction_of_line line = Ok t ->
  exists d a o,
    line = [Some d; Some a; o; payee t]
    /\ Datetime.strptime d = Ok (date t)
    /\ parse_amount a = Ok (amount t)
    /\ memo t = empty.
Proof.
  unfold transaction_of_line, unpack4.
  destruct line as [| d [| a [| o [| x [| y r]]]]]; try discriminate.
  simpl.
  destruct d as [d |]; [| discriminate].
  destruct (Datetime.strptime d) as [dt |] eqn:Ed; [| discriminate]. simpl.
  destruct a as [a |]; [| discriminate].
  destruct (parse_amount a) as [v | e] eqn:Ea; [| discriminate]. simpl.
  intros H. injection H as <-. exists d, a, o. auto.
Qed.

Lemma In_collected (evs : list (event table)) (t : Transaction) :
  In t (collected evs) ->
  exists line, transaction_of_line line = Ok t.
Proof.
  unfold collected. rewrite in_flat_map. intros (tb & _ & H).
  destruct (In_built t tb H) as (line & _ & Hok). eauto.
Qed.

(** X5. Every transaction that [parse_statement] returns is well
    formed: its date is a date of the calendar between 1969 and 2068,
    its memo is empty and its amount is a number (never a NaN). *)
Theorem returned_transactions_are_well_formed :
  forall (pdf : document) (ts : list Transaction) (t : Transaction),
    parse_statement pdf = Ok ts ->
    In t ts ->
    valid_date (date t)
    /\ memo t = empty
    /\ exists b, has_sign b (amount t).
Proof.
  intros [pages | e] ts t H Hin.
  - rewrite parse_statement_ok in H. injection H as <-.
    destruct (In_collected _ t Hin) as (line & Hok).
    destruct (transaction_of_line_inv line t Hok)
      as (d & a & o & _ & Hd & Ha & Hm).
    repeat split; auto; try (apply (strptime_valid d _ Hd)).
    destruct (parse_amount_sign a _ Ha) as [[_ Hb] | [_ Hb]]; eauto.
  - injection H as <-. destruct Hin.
Qed.

Lemma returned_transactions_are_well_formed_witness :
  valid_date (date alice) /\ memo alice = empty
  /\ exists b, has_sign b (amount alice).
Proof.
  apply (returned_transactions_are_well_formed
           end_to_end_example [alice; shop 2] alice).
  - vm_compute. reflexivity.
  - left. reflexivity.
Defined.

Lemma built_map_set_operation (c : cell) (tb : table) :
  built (map (set_cell 2 c) tb) = built tb.
Proof.
  induction tb as [| line tb IH]; [reflexivity |].
  cbn [map].
  assert (E : match transaction_of_line (set_cell 2 c line),
                    transaction_of_line line with
              | Ok t, Ok t' => t = t'
              | Raise _, Raise _ => True
              | _, _ => False
              end).
  { unfold transaction_of_line, unpack4.
    destruct line as [| d [| a [| o [| x [| y r]]]]]; simpl; auto.
    destruct d as [d |]; simpl; auto.
    destruct (Datetime.strptime d); simpl; auto.
    destruct a as [a |]; simpl; auto.
    destruct (parse_amount a); simpl; auto. }
  destruct (transaction_of_line (set_cell 2 c line)) as [t | e] eqn:E1;
    destruct (transaction_of_line line) as [t' | e'] eqn:E2;
    try contradiction.
  - subst t'. rewrite (built_cons_ok _ _ _ E1), (built_cons_ok _ _ _ E2), IH.
    reflexivity.
  - rewrite (built_cons_raise _ _ _ E1), (built_cons_raise _ _ _ E2). exact IH.
Qed.

(** X6. The third cell of a row (the operation type) is never used,
    and the fourth is copied: replacing the operation type in every
    row of a table changes nothing in the transactions built, and the
    payee of a transaction is the fourth cell of its row as it is
    ([None] included). *)
Theorem operation_type_is_unused :
  (forall (c : cell) (tb : table), built (map (set_cell 2 c) tb) = built tb)
  /\ (forall (line : row) (t : Transaction),
         transaction_of_line line = Ok t ->
         nth_error line 3 = Some (payee t) /\ List.length line = 4%nat).
Proof.
  split; [exact built_map_set_operation |].
  intros line t H.
  destruct (transaction_of_line_inv line t H) as (d & a & o & -> & _).
  split; reflexivity.
Qed.

Lemma operation_type_is_unused_witness :
  nth_error alice_row 3 = Some (payee alice)
  /\ List.length alice_row = 4%nat.
Proof.
  apply (proj2 operation_type_is_unused alice_row alice).
  vm_compute. reflexivity.
Defined.

Lemma logged_get_transactions (tb : table) :
  logged (get_transactions tb) = map record_of_line tb.
Proof.
  induction tb as [| line tb IH]; [reflexivity |].
  cbn [get_transactions map]. rewrite logged_app, IH.
  unfold record_of_line at 2.
  destruct (transaction_of_line line); reflexivity.
Qed.

(** X7. The builder accounts for every row: it leaves one log record
    per row, in order, and the rows that give no transaction are
    exactly the rows with an error record, which holds the row and the
    exception. *)
Theorem every_row_is_accounted_for :
  forall tb : table,
    logged (get_transactions tb) = map record_of_line tb
    /\ (List.length (built tb)
        + List.length (filter is_error_record (logged (get_transactions tb)))
        = List.length tb)%nat.
Proof.
  intros tb. split; [apply logged_get_transactions |].
  rewrite logged_get_transactions.
  induction tb as [| line tb IH]; [reflexivity |].
  cbn [map filter]. unfold record_of_line at 1.
  destruct (transaction_of_line line) as [t | e] eqn:E.
  - rewrite (built_cons_ok _ _ _ E). simpl. lia.
  - rewrite (built_cons_raise _ _ _ E). simpl. lia.
Qed.

Lemma header_row_is_no_transaction (sig : row) :
  In sig TRANSACTION_TABLE_HEADER_VARIANTS ->
  exists e, transaction_of_line sig = Raise e.
Proof.
  intros H. apply variants_cases in H.
  destruct H as [-> | [-> | ->]]; eexists; vm_compute; reflexivity.
Qed.

(** * The assembler over whole documents *)

Lemma parse_statement_by_tables (pss : list (list table)) :
  parse_statement (Ok (map page_of pss))
  = Ok (collected (fst (fst (tables_loop (List.concat pss) false)))).
Proof.
  rewrite parse_statement_ok. unfold collected.
  pose proof (get_transaction_tables_pages pss []) as H.
  rewrite app_nil_r in H.
  destruct (tables_loop (List.concat pss) false) as [[evs h'] stop].
  destruct H as [H _]. rewrite H. cbn [fst].
  destruct stop; [reflexivity |]. simpl. rewrite app_nil_r. reflexivity.
Qed.

(** X8. How the tables are spread over the pages does not matter: two
    documents whose pages extract to the same sequence of tables give
    the same transactions. *)
Theorem page_breaks_do_not_matter :
  forall pss pss' : list (list table),
    List.concat pss = List.concat pss' ->
    parse_statement (Ok (map page_of pss))
    = parse_statement (Ok (map page_of pss')).
Proof.
  intros pss pss' E. rewrite !parse_statement_by_tables, E. reflexivity.
Qed.

Lemma page_breaks_do_not_matter_witness :
  parse_statement (Ok (map page_of [[summary_table; header_table];
                                    [continuation_table]]))
  = parse_statement (Ok (map page_of [[summary_table];
                                      [];
                                      [header_table; continuation_table]])).
Proof.
  apply (page_breaks_do_not_matter
           [[summary_table; header_table]; [continuation_table]]
           [[summary_table]; []; [header_table; continuation_table]]).
  reflexivity.
Defined.

Lemma completed_run_found_header (pss : list (list table)) :
  snd (get_transaction_tables (map page_of pss)) = None ->
  exists evs, tables_loop (List.concat pss) false = (evs, true, None).
Proof.
  intros H.
  pose proof (get_transaction_tables_pages pss []) as G.
  rewrite app_nil_r in G.
  destruct (tables_loop (List.concat pss) false) as [[evs h'] stop].
  destruct G as [_ G]. rewrite H in G.
  destruct stop; [discriminate |]. simpl in G.
  destruct h'; [eauto | discriminate].
Qed.

Lemma collected_app (a b : list (event table)) :
  collected (a ++ b) = collected a ++ collected b.
Proof. unfold collected. rewrite yields_app. apply flat_map_app. Qed.

Lemma collected_map_Yield (tables : list table) :
  collected (map Yield tables) = flat_map built tables.
Proof. unfold collected. rewrite yields_map_Yield. reflexivity. Qed.

Lemma parse_after_header (pss pss' : list (list table))
      (evs : list (event table)) :
  tables_loop (List.concat pss) false = (evs, true, None) ->
  parse_statement (Ok (map page_of (pss ++ pss')))
  = Ok (collected evs ++ flat_map built (List.concat pss')).
Proof.
  intros H. rewrite parse_statement_by_tables, concat_app, tables_loop_app, H.
  rewrite tables_loop_found. cbn [fst].
  rewrite collected_app, collected_map_Yield. reflexivity.
Qed.

(** X9. Once a run has found the header, pages added at the end of
    the document add the transactions of all their rows, in order,
    after the ones already found. *)
Theorem later_pages_continue_the_table :
  forall pss pss' : list (list table),
    snd (get_transaction_tables (map page_of pss)) = None ->
    exists ts,
      parse_statement (Ok (map page_of pss)) = Ok ts
      /\ parse_statement (Ok (map page_of (pss ++ pss')))
         = Ok (ts ++ flat_map built (List.concat pss')).
Proof.
  intros pss pss' H.
  destruct (completed_run_found_header pss H) as [evs Hevs].
  exists (collected evs). split.
  - rewrite parse_statement_by_tables, Hevs. reflexivity.
  - apply parse_after_header. exact Hevs.
Qed.

Lemma later_pages_continue_the_table_witness :
  exists ts,
    parse_statement (Ok (map page_of [[summary_table; header_table]]))
    = Ok ts
    /\ parse_statement (Ok (map page_of ([[summary_table; header_table]]
                                          ++ [[continuation_table]])))
       = Ok (ts ++ flat_map built (List.concat [[continuation_table]])).
Proof.
  apply (later_pages_continue_the_table [[summary_table; header_table]]
                                        [[continuation_table]]).
  reflexivity.
Defined.

(** X10. After the header, a table is never indexed: a table without
    rows there changes nothing (before the header it stops the run),
    and a table that starts with a header row again is read as data,
    where the header row fails as a transaction and is skipped. *)
Theorem tables_after_the_header_are_data :
  forall (pss : list (list table)) (before after : list table),
    snd (get_transaction_tables (map page_of pss)) = None ->
    parse_statement (Ok (map page_of (pss ++ [before ++ [] :: after])))
    = parse_statement (Ok (map page_of (pss ++ [before ++ after])))
    /\ forall (sig : row) (t : table),
        In sig TRANSACTION_TABLE_HEADER_VARIANTS ->
        parse_statement
          (Ok (map page_of (pss ++ [before ++ (sig :: t) :: after])))
        = parse_statement (Ok (map page_of (pss ++ [before ++ t :: after]))).
Proof.
  intros pss before after H.
  destruct (completed_run_found_header pss H) as [evs Hevs].
  split; [| intros sig t Hsig];
    rewrite !(parse_after_header _ _ evs Hevs);
    cbn [List.concat]; rewrite !app_nil_r, !flat_map_app; cbn [flat_map].
  - reflexivity.
  - destruct (header_row_is_no_transaction sig Hsig) as [e He].
    rewrite (built_cons_raise sig e t He). reflexivity.
Qed.

Lemma tables_after_the_header_are_data_witness :
  parse_statement
    (Ok (map page_of ([[summary_table; header_table]]
                        ++ [[] ++ [] :: [continuation_table]])))
  = parse_statement
      (Ok (map page_of ([[summary_table; header_table]]
                          ++ [[] ++ [continuation_table]])))
  /\ parse_statement
       (Ok (map page_of
              ([[summary_table; header_table]]
                 ++ [[] ++ (header "Дата" "Сумма" "Операция" "Детали"
                              :: continuation_table) :: []])))
     = parse_statement
         (Ok (map page_of ([[summary_table; header_table]]
                             ++ [[] ++ continuation_table :: []]))).
Proof.
  destruct (tables_after_the_header_are_data
              [[summary_table; header_table]] [] [continuation_table] eq_refl)
    as [H1 _].
  destruct (tables_after_the_header_are_data
              [[summary_table; header_table]] [] [] eq_refl)
    as [_ H2].
  split; [exact H1 |].
  apply (H2 (header "Дата" "Сумма" "Операция" "Детали") continuation_table).
  simpl. tauto.
Defined.

(** ** The signs of the totals *)

Lemma forallb_filter_same {A} (p : A -> bool) (l : list A) :
  forallb p (filter p l) = true.
Proof.
  induction l as [| x l IH]; simpl; [reflexivity |].
  destruct (p x) eqn:Hx; simpl; [rewrite Hx |]; exact IH.
Qed.

(** X11. In every run, also one that is cut short, the inflow total is
    a number with the sign bit clear (zero, positive or plus infinity)
    and the outflow total is zero, negative or minus infinity: neither
    is ever a NaN and neither has the sign of the other side. *)
Theorem totals_keep_their_sides :
  forall pdf : document,
    let f := fst (parse_statement_run pdf) in
    has_sign false (total_inflow f) /\ is_nonpos (total_outflow f).
Proof.
  intros [pages | e]; [| split; [reflexivity | exact I]].
  intros f. destruct (run_totals pages) as (HT & _ & H2 & H3).
  change (fst (parse_statement_run (Ok pages))) with f in HT, H2, H3.
  rewrite H2, H3. split.
  - apply sum_of_inflows; [apply forallb_filter_same | reflexivity].
  - apply sum_of_outflows; [apply forallb_filter_same | | exact I].
    intros t Ht. apply filter_In in Ht. destruct Ht as [Ht _].
    apply (collected_amount_sign _ t Ht).
Qed.

(** ** What the export writes *)

Lemma encodable_app (a b : str) :
  utf8_encodable (a ++ b) = utf8_encodable a && utf8_encodable b.
Proof. apply forallb_app. Qed.

Lemma encodable_double_quotes (s : str) :
  utf8_encodable (Csv.double_quotes s) = utf8_encodable s.
Proof.
  induction s as [| c s IH]; [reflexivity |].
  cbn [Csv.double_quotes]. destruct (c =? 34) eqn:Hc.
  - apply N.eqb_eq in Hc. subst c.
    change (utf8_encodable (34 :: 34 :: Csv.double_quotes s))
      with (utf8_encodable (Csv.double_quotes s)).
    change (utf8_encodable (34 :: s)) with (utf8_encodable s). exact IH.
  - unfold utf8_encodable in *. cbn [forallb]. rewrite IH. reflexivity.
Qed.

Lemma encodable_quoted (s : str) :
  utf8_encodable (Csv.quoted s) = utf8_encodable s.
Proof.
  unfold Csv.quoted.
  change (utf8_encodable (34 :: Csv.double_quotes s ++ [34]))
    with (utf8_encodable (Csv.double_quotes s ++ [34])).
  rewrite encodable_app, encodable_double_quotes. apply andb_true_r.
Qed.

Lemma encodable_uint_str (d : Decimal.uint) :
  utf8_encodable (Datetime.uint_str d) = true.
Proof. induction d; cbn [Datetime.uint_str]; auto. Qed.

Lemma encodable_two_digits (n : N) :
  utf8_encodable (Datetime.two_digits n) = true.
Proof.
  unfold Datetime.two_digits, Datetime.decimal_str.
  destruct (n <? 10); [| apply encodable_uint_str].
  change (utf8_encodable (48 :: Datetime.uint_str (N.to_uint n)))
    with (utf8_encodable (Datetime.uint_str (N.to_uint n))).
  apply encodable_uint_str.
Qed.

Lemma encodable_strftime (d : Datetime.datetime) :
  utf8_encodable (Datetime.strftime d) = true.
Proof.
  unfold Datetime.strftime, Datetime.decimal_str.
  rewrite !encodable_app, !encodable_two_digits, encodable_uint_str.
  reflexivity.
Qed.

Lemma encodable_str_of_int (n : Z) :
  utf8_encodable (Csv.str_of_int n) = true.
Proof.
  destruct n as [| p | p]; cbn [Csv.str_of_int]; [reflexivity | |];
    unfold Datetime.decimal_str; [apply encodable_uint_str |].
  change (utf8_encodable (45 :: Datetime.uint_str (N.to_uint (Npos p))))
    with (utf8_encodable (Datetime.uint_str (N.to_uint (Npos p)))).
  apply encodable_uint_str.
Qed.

Lemma encodable_writerow (a b c d : str) :
  utf8_encodable (Csv.writerow [a; b; c; d])
  = utf8_encodable a && utf8_encodable b && utf8_encodable c
    && utf8_encodable d.
Proof.
  unfold Csv.writerow. cbn [Csv.join_fields].
  repeat (rewrite encodable_app
          || rewrite encodable_quoted
          || match goal with
             | |- context [utf8_encodable (44 :: ?s)] =>
               change (utf8_encodable (44 :: s)) with (utf8_encodable s)
             end).
  change (utf8_encodable [13; 10]) with true.
  rewrite andb_true_r, !andb_assoc. reflexivity.
Qed.

(** The file accepts the row of a transaction exactly when the payee
    and the memo can be encoded: the date and the amount are ASCII. *)
Lemma file_write_row (t : Transaction) (r : csv_record) :
  csv_record_of t = Ok r ->
  file_write (Csv.writerow (fields_of r))
  = if utf8_encodable (Csv.text_of_cell (payee t))
       && utf8_encodable (memo t)
    then Ok tt else Raise UnicodeEncodeError.
Proof.
  unfold csv_record_of. destruct (Py.round (amount t)) as [a | e];
    [| discriminate].
  intros H. injection H as <-. unfold file_write, fields_of.
  cbn [Date Payee Memo Amount].
  rewrite encodable_writerow, encodable_strftime, encodable_str_of_int.
  rewrite andb_true_r. reflexivity.
Qed.

Lemma write_rows_exportable (t : Transaction) (rest : list Transaction) :
  exportable t = true ->
  exists a,
    Py.round (amount t) = Ok a
    /\ write_rows (t :: rest)
       = ({| Date := Datetime.strftime (date t); Payee := payee t;
             Memo := memo t; Amount := a |} :: fst (write_rows rest),
          snd (write_rows rest)).
Proof.
  unfold exportable. intros H.
  apply andb_true_iff in H. destruct H as [H Hm].
  apply andb_true_iff in H. destruct H as [Hf Hp].
  assert (exists a, Py.round (amount t) = Ok a) as [a Ha]
      by (destruct (amount t); try discriminate; simpl; eauto).
  exists a. split; [exact Ha |].
  assert (Hr : csv_record_of t
               = Ok {| Date := Datetime.strftime (date t); Payee := payee t;
                       Memo := memo t; Amount := a |})
    by (unfold csv_record_of; rewrite Ha; reflexivity).
  cbn [write_rows]. rewrite Hr, (file_write_row t _ Hr), Hp, Hm.
  cbn [andb]. destruct (write_rows rest). reflexivity.
Qed.

Lemma write_rows_not_exportable (t : Transaction) (rest : list Transaction) :
  exportable t = false ->
  write_rows (t :: rest)
  = ([], Some match amount t with
              | S754_infinity _ => OverflowError
              | S754_nan => ValueError Cannot_convert_float_NaN_to_integer
              | _ => UnicodeEncodeError
              end).
Proof.
  unfold exportable. intros H. cbn [write_rows].
  destruct (csv_record_of t) as [r | e] eqn:Hr.
  - rewrite (file_write_row t r Hr).
    assert (Hf : finite (amount t) = true)
      by (unfold csv_record_of in Hr; destruct (amount t);
          try discriminate; reflexivity).
    rewrite Hf in H. cbn [andb] in H. rewrite H.
    destruct (amount t); try discriminate; reflexivity.
  - unfold csv_record_of in Hr.
    destruct (amount t); simpl in Hr; try discriminate;
      injection Hr as <-; reflexivity.
Qed.

Lemma write_rows_app (ts post : list Transaction) :
  forallb exportable ts = true ->
  exists rs,
    Forall2 (fun t r =>
               exists a, Py.round (amount t) = Ok a
                         /\ r = {| Date := Datetime.strftime (date t);
                                   Payee := payee t;
                                   Memo := memo t;
                                   Amount := a |}) ts rs
    /\ write_rows (ts ++ post)
       = (rs ++ fst (write_rows post), snd (write_rows post)).
Proof.
  induction ts as [| t ts IH]; intros H.
  - exists []. split; [constructor |]. cbn [app].
    destruct (write_rows post); reflexivity.
  - cbn [forallb] in H. apply andb_true_iff in H. destruct H as [Ht Hts].
    destruct (IH Hts) as (rs & HF & Hw).
    destruct (write_rows_exportable t (ts ++ post) Ht) as (a & Ha & Hstep).
    exists ({| Date := Datetime.strftime (date t); Payee := payee t;
               Memo := memo t; Amount := a |} :: rs).
    split; [constructor; eauto |].
    rewrite <- app_comm_cons, Hstep, Hw. reflexivity.
Qed.





(** ** Dates in and out *)

Lemma In_numbers_from (first count : nat) (n : N) :
  N.of_nat first <= n < N.of_nat (first + count) ->
  In n (numbers_from first count).
Proof.
  intros H. unfold numbers_from. apply in_map_iff.
  exists (N.to_nat n). split; [apply N2Nat.id |].
  apply in_seq. lia.
Qed.

Lemma days_in_month_bound (y m : N) : Datetime.days_in_month y m <= 31.
Proof.
  unfold Datetime.days_in_month.
  destruct (m =? 2); [destruct (Datetime.is_leap y); lia |].
  destruct ((m =? 4) || (m =? 6) || (m =? 9) || (m =? 11)); lia.
Qed.

Lemma valid_date_listed (d : Datetime.datetime) :
  valid_date d -> In d days_of_the_century /\ on_the_calendar d = true.
Proof.
  intros (Hy & Hm & Hd). split.
  - pose proof (days_in_month_bound (Datetime.year d) (Datetime.month d)).
    destruct d as [y m dd]. cbn [Datetime.year Datetime.month Datetime.day] in *.
    unfold days_of_the_century. apply in_flat_map.
    exists y. split; [apply In_numbers_from; simpl; lia |].
    apply in_flat_map.
    exists m. split; [apply In_numbers_from; simpl; lia |].
    apply in_map_iff.
    exists dd. split; [reflexivity | apply In_numbers_from; simpl; lia].
  - apply N.leb_le. apply Hd.
Qed.

Lemma century_checked :
  forallb (fun d => negb (on_the_calendar d)
                    || (iso_date (Datetime.strftime d) && reads_back d))
          days_of_the_century = true.
Proof. vm_compute. reflexivity. Qed.

Lemma valid_date_checked (d : Datetime.datetime) :
  valid_date d -> iso_date (Datetime.strftime d) = true /\ reads_back d = true.
Proof.
  intros H. destruct (valid_date_listed d H) as [Hin Hcal].
  pose proof (proj1 (forallb_forall _ _) century_checked d Hin) as Hc.
  cbv beta in Hc. rewrite Hcal in Hc. simpl in Hc.
  apply andb_true_iff in Hc. exact Hc.
Qed.

Lemma datetime_eqb_eq (a b : Datetime.datetime) :
  datetime_eqb a b = true -> a = b.
Proof.
  unfold datetime_eqb. destruct a, b. simpl. intros H.
  apply andb_true_iff in H. destruct H as [H Hd].
  apply andb_true_iff in H. destruct H as [Hy Hm].
  apply N.eqb_eq in Hy, Hm, Hd. congruence.
Qed.

(** X14. Every date of the calendar from 1969 to 2068, written as
    [dd.mm.yy] with two digits each, is read back by [strptime] as
    that date: the two digits of the year stand for 2000 to 2068 when
    they are at most 68 and for 1969 to 1999 otherwise. *)
Theorem dates_are_read_back :
  forall d : Datetime.datetime,
    valid_date d -> Datetime.strptime (dmy_text d) = Ok d.
Proof.
  intros d H. destruct (valid_date_checked d H) as [_ Hr].
  unfold reads_back in Hr.
  destruct (Datetime.strptime (dmy_text d)) as [d' | e]; [| discriminate].
  apply datetime_eqb_eq in Hr. congruence.
Qed.

Lemma dates_are_read_back_witness :
  Datetime.strptime (u "29.02.24")
  = Ok {| Datetime.year := 2024; Datetime.month := 2; Datetime.day := 29 |}.
Proof.
  apply (dates_are_read_back
           {| Datetime.year := 2024; Datetime.month := 2;
              Datetime.day := 29 |}).
  unfold valid_date. vm_compute. repeat split; discriminate.
Defined.

Lemma In_write_rows (ts : list Transaction) (r : csv_record) :
  In r (fst (write_rows ts)) ->
  exists t, In t ts /\ csv_record_of t = Ok r.
Proof.
  induction ts as [| t ts IH]; simpl; [intros [] |].
  destruct (csv_record_of t) as [r' | e] eqn:Hr; [| intros []].
  destruct (file_write (Csv.writerow (fields_of r'))); [| intros []].
  destruct (write_rows ts) as [rs stop]. simpl.
  intros [<- | Hin]; [eauto |].
  destruct (IH Hin) as (t' & Ht' & Hr'). eauto.
Qed.

Lemma In_parse_statement (pdf : document) (ts : list Transaction)
      (t : Transaction) :
  parse_statement pdf = Ok ts -> In t ts ->
  exists line, transaction_of_line line = Ok t.
Proof.
  destruct pdf as [pages | e]; intros H Hin.
  - rewrite parse_statement_ok in H. injection H as <-.
    apply (In_collected _ t Hin).
  - injection H as <-. destruct Hin.
Qed.

(** X15. Every record that the export writes for the transactions of a
    parsed statement comes from one of them, has a date of the form
    [YYYY-MM-DD] (ten characters, ASCII digits around two hyphens), an
    empty memo and the payee of its transaction. *)
Theorem exported_records_have_iso_dates :
  forall (pdf : document) (ts : list Transaction) (opened : res unit)
         (r : csv_record),
    parse_statement pdf = Ok ts ->
    In r (fst (export_to_csv ts opened)) ->
    iso_date (Date r) = true
    /\ Memo r = empty
    /\ exists t, In t ts
                 /\ Date r = Datetime.strftime (date t)
                 /\ Payee r = payee t
                 /\ Py.round (amount t) = Ok (Amount r).
Proof.
  intros pdf ts opened r Hts Hin.
  destruct opened as [[] | e]; [| destruct Hin].
  cbn [export_to_csv] in Hin.
  destruct (In_write_rows ts r Hin) as (t & Ht & Hr).
  destruct (In_parse_statement pdf ts t Hts Ht) as (line & Hline).
  destruct (transaction_of_line_inv line t Hline)
    as (d & a & o & _ & Hd & _ & Hm).
  unfold csv_record_of in Hr.
  destruct (Py.round (amount t)) as [z | e] eqn:Hz; [| discriminate].
  injection Hr as <-. cbn [Date Memo Payee Amount].
  split; [| split; [exact Hm |]].
  - apply (valid_date_checked _ (strptime_valid d _ Hd)).
  - exists t. auto.
Qed.

Lemma exported_records_have_iso_dates_witness :
  iso_date (u "2024-03-02") = true
  /\ empty = empty
  /\ exists t, In t (collected (fst (get_transaction_tables mixed_statement)))
               /\ u "2024-03-02" = Datetime.strftime (date t)
               /\ Some (u "Shop") = payee t
               /\ Py.round (amount t) = Ok 0%Z.
Proof.
  apply (exported_records_have_iso_dates
           (Ok mixed_statement)
           (collected (fst (get_transaction_tables mixed_statement)))
           (Ok tt)
           {| Date := u "2024-03-02"; Payee := Some (u "Shop");
              Memo := empty; Amount := 0 |}).
  - reflexivity.
  - vm_compute. right. left. reflexivity.
Defined.

(** ** The text of the output file *)

Lemma uint_str_inj (a b : Decimal.uint) :
  Datetime.uint_str a = Datetime.uint_str b -> a = b.
Proof.
  revert b. induction a; intros b H; destruct b; simpl in H;
    try discriminate; try reflexivity;
    injection H as H; f_equal; apply IHa; exact H.
Qed.

Lemma uint_str_head (d : Decimal.uint) (c : codepoint) (r : str) :
  Datetime.uint_str d = c :: r -> c <> 45.
Proof. destruct d; simpl; intros H; inversion H; discriminate. Qed.

Lemma decimal_str_inj (n m : N) :
  Datetime.decimal_str n = Datetime.decimal_str m -> n = m.
Proof.
  unfold Datetime.decimal_str. intros H.
  apply DecimalN.Unsigned.to_uint_inj, uint_str_inj, H.
Qed.

Lemma str_of_int_inj (a b : Z) :
  Csv.str_of_int a = Csv.str_of_int b -> a = b.
Proof.
  assert (Hz : forall p, Datetime.decimal_str (Npos p) <> [48]).
  { intros p H. change [48] with (Datetime.decimal_str 0) in H.
    apply decimal_str_inj in H. discriminate. }
  assert (Hm : forall p r, Datetime.decimal_str (Npos p) <> 45 :: r).
  { intros p r H. apply uint_str_head in H. apply H. reflexivity. }
  destruct a as [| p | p], b as [| q | q]; cbn [Csv.str_of_int]; intros H;
    try reflexivity; try discriminate;
    try (symmetry in H; apply Hz in H; destruct H);
    try (apply Hz in H; destruct H);
    try (symmetry in H; apply Hm in H; destruct H);
    try (apply Hm in H; destruct H).
  - apply decimal_str_inj in H. congruence.
  - injection H as H. apply decimal_str_inj in H. congruence.
Qed.

Lemma read_quoted_double (f : str) (x : codepoint) (rest : str) :
  x <> 34 ->
  read_quoted (Csv.double_quotes f ++ 34 :: x :: rest) = Some (f, x :: rest).
Proof.
  intros Hx. apply N.eqb_neq in Hx.
  induction f as [| c f IH]; cbn [Csv.double_quotes app read_quoted].
  - rewrite N.eqb_refl, Hx. reflexivity.
  - destruct (c =? 34) eqn:Hc; cbn [app read_quoted].
    + rewrite !N.eqb_refl, IH. apply N.eqb_eq in Hc. subst c. reflexivity.
    + rewrite Hc, IH. reflexivity.
Qed.

Lemma quoted_app (f rest : str) :
  Csv.quoted f ++ rest = 34 :: Csv.double_quotes f ++ 34 :: rest.
Proof.
  unfold Csv.quoted. cbn [app]. rewrite <- app_assoc. reflexivity.
Qed.

Lemma double_cancel (f g : str) (x y : codepoint) (r r' : str) :
  x <> 34 -> y <> 34 ->
  Csv.double_quotes f ++ 34 :: x :: r = Csv.double_quotes g ++ 34 :: y :: r' ->
  f = g /\ r = r'.
Proof.
  intros Hx Hy H. apply (f_equal read_quoted) in H.
  rewrite (read_quoted_double f x r Hx), (read_quoted_double g y r' Hy) in H.
  injection H as -> _ ->. split; reflexivity.
Qed.

Lemma writerow_app (a b c d rest : str) :
  Csv.writerow [a; b; c; d] ++ rest
  = 34 :: Csv.double_quotes a ++ 34 :: 44
       :: 34 :: Csv.double_quotes b ++ 34 :: 44
       :: 34 :: Csv.double_quotes c ++ 34 :: 44
       :: 34 :: Csv.double_quotes d ++ 34 :: 13 :: 10 :: rest.
Proof.
  unfold Csv.writerow. cbn [Csv.join_fields]. unfold Csv.quoted. cbn [app].
  repeat (rewrite <- app_assoc; cbn [app]). reflexivity.
Qed.

Lemma writerow_cancel (a b c d a' b' c' d' rest rest' : str) :
  Csv.writerow [a; b; c; d] ++ rest = Csv.writerow [a'; b'; c'; d'] ++ rest' ->
  [a; b; c; d] = [a'; b'; c'; d'] /\ rest = rest'.
Proof.
  rewrite !writerow_app. intros H. injection H as H.
  apply double_cancel in H; [| discriminate | discriminate].
  destruct H as [-> H]. injection H as H.
  apply double_cancel in H; [| discriminate | discriminate].
  destruct H as [-> H]. injection H as H.
  apply double_cancel in H; [| discriminate | discriminate].
  destruct H as [-> H]. injection H as H.
  apply double_cancel in H; [| discriminate | discriminate].
  destruct H as [-> H]. injection H as H. subst. split; reflexivity.
Qed.

Lemma rows_cancel (rs rs' : list csv_record) :
  flat_map (fun r => Csv.writerow (fields_of r)) rs
  = flat_map (fun r => Csv.writerow (fields_of r)) rs' ->
  map fields_of rs = map fields_of rs'.
Proof.
  revert rs'. induction rs as [| r rs IH]; intros [| r' rs'];
    cbn [flat_map map]; intros H; try reflexivity.
  - unfold fields_of in H. rewrite writerow_app in H. discriminate.
  - unfold fields_of in H. rewrite writerow_app in H. discriminate.
  - unfold fields_of in H |- *. apply writerow_cancel in H.
    destruct H as [Hf H]. rewrite Hf. f_equal. apply IH, H.
Qed.

(** The text for two records, as the writer of CPython 3.11 produces
    it: a payee with a double quote and a missing payee. *)
Example csv_text_example :
  let q := [34] in
  let line_end := [13; 10] in
  csv_text [{| Date := u "2024-03-01"; Payee := Some (u "q" ++ q ++ u "q");
               Memo := empty; Amount := (-3)%Z |};
            {| Date := u "2024-03-02"; Payee := None;
               Memo := empty; Amount := 1001%Z |}]
  = q ++ u "Date" ++ q ++ u "," ++ q ++ u "Payee" ++ q ++ u ","
      ++ q ++ u "Memo" ++ q ++ u "," ++ q ++ u "Amount" ++ q ++ line_end
      ++ q ++ u "2024-03-01" ++ q ++ u "," ++ q ++ u "q" ++ q ++ q ++ u "q" ++ q
      ++ u "," ++ q ++ q ++ u "," ++ q ++ u "-3" ++ q ++ line_end
      ++ q ++ u "2024-03-02" ++ q ++ u "," ++ q ++ q
      ++ u "," ++ q ++ q ++ u "," ++ q ++ u "1001" ++ q ++ line_end.
Proof. vm_compute. reflexivity. Qed.

(** X16. The text that the writer produces for the records determines
    them: two lists of records with the same text have the same
    length and, record by record, the same date, memo and amount, and
    the same payee text (a missing payee and an empty payee are both
    written as an empty field). Quotes, commas and line ends inside a
    payee cannot shift a field or a row. *)
Theorem csv_text_determines_the_records :
  forall rs rs' : list csv_record,
    csv_text rs = csv_text rs' ->
    Forall2 (fun r r' =>
               Date r = Date r'
               /\ Csv.text_of_cell (Payee r) = Csv.text_of_cell (Payee r')
               /\ Memo r = Memo r'
               /\ Amount r = Amount r') rs rs'.
Proof.
  intros rs rs' H. unfold csv_text in H. apply app_inv_head in H.
  apply rows_cancel in H. revert rs' H.
  induction rs as [| r rs IH]; intros [| r' rs'] H; try discriminate;
    [constructor |].
  cbn [map] in H. unfold fields_of in H at 1 3.
  injection H as Hd Hp Hm Ha H. apply str_of_int_inj in Ha.
  constructor; [auto | apply IH, H].
Qed.

Lemma csv_text_determines_the_records_witness :
  Forall2 (fun r r' =>
             Date r = Date r'
             /\ Csv.text_of_cell (Payee r) = Csv.text_of_cell (Payee r')
             /\ Memo r = Memo r'
             /\ Amount r = Amount r')
          [{| Date := u "2024-03-01"; Payee := None;
              Memo := empty; Amount := (-250)%Z |}]
          [{| Date := u "2024-03-01"; Payee := Some empty;
              Memo := empty; Amount := (-250)%Z |}].
Proof.
  apply (csv_text_determines_the_records
           [{| Date := u "2024-03-01"; Payee := None;
               Memo := empty; Amount := (-250)%Z |}]
           [{| Date := u "2024-03-01"; Payee := Some empty;
               Memo := empty; Amount := (-250)%Z |}]).
  reflexivity.
Defined.

(** ** The output path and [main] *)

Lemma before_last_dot_no_dot (s : str) :
  existsb (N.eqb 46) s = false -> before_last_dot s = s.
Proof.
  induction s as [| c s IH]; cbn [before_last_dot existsb]; [reflexivity |].
  intros H. apply orb_false_iff in H. destruct H as [Hc Hs].
  rewrite N.eqb_sym in Hc. rewrite Hc, (IH Hs). reflexivity.
Qed.

Lemma before_last_dot_split (stem ext : str) :
  existsb (N.eqb 46) ext = false ->
  before_last_dot (stem ++ 46 :: ext) = stem.
Proof.
  intros Hext. induction stem as [| c stem IH]; cbn [app before_last_dot].
  - rewrite N.eqb_refl, Hext. reflexivity.
  - rewrite existsb_app. cbn [existsb]. rewrite N.eqb_refl.
    rewrite orb_true_r, andb_false_r, IH. reflexivity.
Qed.

Lemma default_output (args : Namespace) :
  output args = None \/ output args = Some empty ->
  output_csv args = before_last_dot (statement args) ++ u ".csv".
Proof. unfold output_csv. intros [-> | ->]; reflexivity. Qed.

(** X17. Without [--output] (or with an empty one) the output path is
    the statement path with everything from its last full stop on
    replaced by [.csv], also when that full stop is in a directory
    name; a path without a full stop gets [.csv] appended. *)
Theorem default_output_replaces_the_last_suffix :
  forall (args : Namespace) (stem ext : str),
    output args = None \/ output args = Some empty ->
    existsb (N.eqb 46) ext = false ->
    (statement args = stem ++ 46 :: ext ->
     output_csv args = stem ++ u ".csv")
    /\ (statement args = ext ->
        output_csv args = ext ++ u ".csv").
Proof.
  intros args stem ext Hout Hext.
  rewrite (default_output args Hout). split; intros ->.
  - rewrite (before_last_dot_split stem ext Hext). reflexivity.
  - rewrite (before_last_dot_no_dot ext Hext). reflexivity.
Qed.

Lemma default_output_replaces_the_last_suffix_witness :
  output_csv {| statement := u "statements.2024/march"; output := None |}
  = u "statements.csv".
Proof.
  apply (default_output_replaces_the_last_suffix
           {| statement := u "statements.2024/march"; output := None |}
           (u "statements") (u "2024/march")); [left | |]; reflexivity.
Defined.

(** X18. Without [--output] the output path is the statement path
    itself exactly when the statement path ends in [.csv]: the export
    then writes over the file it was asked to read. *)
Theorem default_output_is_the_statement_iff_csv :
  forall args : Namespace,
    output args = None \/ output args = Some empty ->
    (output_csv args = statement args
     <-> exists stem, statement args = stem ++ u ".csv").
Proof.
  intros args Hout. rewrite (default_output args Hout). split.
  - intros H. exists (before_last_dot (statement args)). symmetry. exact H.
  - intros [stem ->].
    change (stem ++ u ".csv") with (stem ++ 46 :: u "csv").
    rewrite (before_last_dot_split stem (u "csv") eq_refl). reflexivity.
Qed.

Lemma default_output_is_the_statement_iff_csv_witness :
  output_csv {| statement := u "march.csv"; output := Some empty |}
  = u "march.csv"
  <-> exists stem, u "march.csv" = stem ++ u ".csv".
Proof.
  apply (default_output_is_the_statement_iff_csv
           {| statement := u "march.csv"; output := Some empty |}).
  right. reflexivity.
Defined.

Lemma parse_statement_total (pdf : document) :
  exists ts, parse_statement pdf = Ok ts.
Proof.
  unfold parse_statement, parse_statement_run.
  destruct (parse_statement_try pdf initial_frame) as [f [e |]];
    cbn [snd]; eauto.
Qed.


